(** * The WebSocket provider of the NMS mobile client

    A shallow embedding of [context/WebSocketContext.tsx]: the request
    identifier generator, the table of pending requests, the connection
    life cycle with its reconnect back-off, and the two handler registries.

    Conventions of the embedding.
    - A JavaScript [Map] is an association list in insertion order (the order
      [forEach] visits), a [Set] a duplicate-free list in insertion order.
    - Objects with identity (sockets, promises, timers, handler functions) are
      natural numbers; a socket is an index in the heap of sockets.
    - Every call that leaves the provider (resolve and reject of a promise,
      a handler invocation, [new WebSocket], [close], [send], [setTimeout],
      [clearTimeout]) is appended to a chronological log of effects.
      [console.log] and [console.error] are not recorded.
    - What the environment decides (the outcome of [Math.random], whether
      [send] throws, what a frame parses to, when a timer fires) is an
      argument of the operation or an event. *)

From Stdlib Require Import ZArith QArith Qround List String Ascii Bool Lia PeanoNat.
Import ListNotations.
Local Open Scope string_scope.
Local Open Scope list_scope.
Local Open Scope Z_scope.

Set Implicit Arguments.

(** ** Numbers and strings of the host language *)

(** [x | 0] on an integral value: reduction to a signed 32-bit integer. *)
Definition to_int32 (z : Z) : Z := (z + 2 ^ 31) mod 2 ^ 32 - 2 ^ 31.

(** Truncation toward zero, the first step of [x | 0]. *)
Definition js_trunc (q : Q) : Z :=
  if Qle_bool 0 q then Qfloor q else Qceiling q.

Definition hex_digit (v : Z) : ascii :=
  match v with
  | 0 => "0" | 1 => "1" | 2 => "2" | 3 => "3" | 4 => "4" | 5 => "5"
  | 6 => "6" | 7 => "7" | 8 => "8" | 9 => "9" | 10 => "a" | 11 => "b"
  | 12 => "c" | 13 => "d" | 14 => "e" | _ => "f"
  end%char.

Fixpoint hex_digits (fuel : nat) (n : Z) (acc : string) : string :=
  match fuel with
  | O => acc
  | S k =>
      let acc' := String (hex_digit (n mod 16)) acc in
      if n / 16 =? 0 then acc' else hex_digits k (n / 16) acc'
  end.

(** [Number.prototype.toString(16)] on an integer. *)
Definition toString16 (v : Z) : string :=
  if v <? 0
  then String "-"%char (hex_digits (S (Z.to_nat (Z.log2 (- v)))) (- v) "")
  else hex_digits (S (Z.to_nat (Z.log2 v))) v "".

(** ** Identifier generator *)

Module IdGen.

Definition template : string := "xxxxxxxx-xxxx-4xxx-yxxx-xxxxxxxxxxxx".

(** The callback of [replace]: [draw] is what [Math.random()] returned. *)
Definition replacement (c : ascii) (draw : Q) : string :=
let r := to_int32 (js_trunc (draw * 16)) in
let v := if Ascii.eqb c "x" then r else Z.lor (Z.land r 3) 8 in
toString16 v.

(** [t.replace(/[xy]/g, cb)]: the matches are visited from left to right and
  the [i]-th visit consumes the [i]-th outcome of [Math.random]. *)
Fixpoint replace_xy (t : string) (draws : nat -> Q) (i : nat) : string :=
match t with
| EmptyString => EmptyString
| String c rest =>
    if (Ascii.eqb c "x" || Ascii.eqb c "y")%bool
    then (replacement c (draws i) ++ replace_xy rest draws (S i))%string
    else String c (replace_xy rest draws i)
end.

Definition generateRequestId (draws : nat -> Q) : string :=
replace_xy template draws 0.

(** The contract of [Math.random]: a number in the half-open unit interval. *)
Definition unit_interval (draws : nat -> Q) : Prop :=
forall i, (0 <= draws i)%Q /\ (draws i < 1)%Q.

(** *** What an identifier depends on *)

(** [Math.random() * 16 | 0] *)
Definition nibble (draw : Q) : Z := to_int32 (js_trunc (draw * 16)).

(** The characters of the template that are replaced. *)
Definition holes (t : string) : list ascii :=
filter (fun c => Ascii.eqb c "x" || Ascii.eqb c "y")%bool (list_ascii_of_string t).

(** Two outcomes of [Math.random] that give the same digit in the place of
  [c]: the same integer part of the sixteenfold for an [x], the same two
  low bits of it for the [y]. *)
Definition same_digit (c : ascii) (q1 q2 : Q) : Prop :=
if Ascii.eqb c "x" then nibble q1 = nibble q2
else Z.land (nibble q1) 3 = Z.land (nibble q2) 3.

(** *** The shape of a version 4 UUID *)

Definition is_hex (c : ascii) : bool :=
existsb (Ascii.eqb c)
  (list_ascii_of_string "0123456789abcdef").

Definition is_variant (c : ascii) : bool :=
existsb (Ascii.eqb c) (list_ascii_of_string "89ab").

(** What position [i] of the 36 characters must hold. *)
Definition char_ok (i : nat) (c : ascii) : bool :=
if existsb (Nat.eqb i) [8; 13; 18; 23]%nat then Ascii.eqb c "-"
else if Nat.eqb i 14 then Ascii.eqb c "4"
else if Nat.eqb i 19 then is_variant c
else is_hex c.

Fixpoint chars_ok (i : nat) (s : string) : bool :=
match s with
| EmptyString => true
| String c rest => char_ok i c && chars_ok (S i) rest
end.

Definition uuid_v4_shaped (s : string) : bool :=
Nat.eqb (String.length s) 36 && chars_ok 0 s.

End IdGen.

(** ** Containers of the host language *)

(** [Map<string, V>]: [set] on a present key replaces the value in place,
    on an absent key appends; [forEach] visits in list order. *)
Module JsMap.
Section Ops.
Variable V : Type.

Definition t := list (string * V).

Fixpoint get (k : string) (m : t) : option V :=
  match m with
  | [] => None
  | (k', v) :: rest => if String.eqb k k' then Some v else get k rest
  end.

Definition has (k : string) (m : t) : bool :=
  match get k m with Some _ => true | None => false end.

Fixpoint set (k : string) (v : V) (m : t) : t :=
  match m with
  | [] => [(k, v)]
  | (k', v') :: rest =>
    if String.eqb k k' then (k, v) :: rest else (k', v') :: set k v rest
  end.

Fixpoint delete (k : string) (m : t) : t :=
  match m with
  | [] => []
  | (k', v') :: rest =>
    if String.eqb k k' then rest else (k', v') :: delete k rest
  end.

Definition keys (m : t) : list string := map fst m.
End Ops.
End JsMap.

(** [Set<Function>]: a function is known by its identity, adding a member
    again changes nothing. *)
Module JsSet.
Definition t := list nat.

Definition has (h : nat) (s : t) : bool := existsb (Nat.eqb h) s.

Definition add (h : nat) (s : t) : t := if has h s then s else s ++ [h].

Definition delete (h : nat) (s : t) : t :=
  filter (fun x => negb (Nat.eqb x h)) s.
End JsSet.

(** ** Values that travel over the socket *)

(** What [JSON.parse] can return. *)
#[local] Unset Elimination Schemes.
Inductive json : Type :=
| JNull
| JBool (b : bool)
| JNum (q : Q)
| JStr (s : string)
| JArr (items : list json)
| JObj (fields : list (string * json)).
#[local] Set Elimination Schemes.

(** The result of evaluating an expression: a value or an exception. *)
Inductive Completion (A : Type) : Type :=
| Returns (a : A)
| Throws.
Arguments Throws {A}.

(** [data.request_id]: reading a property of [null] is a [TypeError], a
    missing property reads as [undefined] ([None]). *)
Definition get_prop (data : json) (k : string) : Completion (option json) :=
  match data with
  | JNull => Throws
  | JObj fields => Returns (JsMap.get k fields)
  | _ => Returns None
  end.

(** [ToBoolean]. *)
Definition truthy (v : option json) : bool :=
  match v with
  | None => false
  | Some JNull => false
  | Some (JBool b) => b
  | Some (JNum q) => negb (Qeq_bool q 0)
  | Some (JStr s) => negb (String.eqb s "")
  | Some (JArr _) => true
  | Some (JObj _) => true
  end.

(** The keys of the pending table are strings, so only a string can be found
    by [has] and [get]. *)
Definition as_key (v : option json) : option string :=
  match v with
  | Some (JStr s) => Some s
  | _ => None
  end.

(** What a promise is rejected with: [new Error(msg)], or the exception
    that [send] (or [JSON.stringify]) threw, known by a description. *)
Inductive JsError : Type :=
| ErrorMsg (msg : string)
| HostException (what : string).

Definition NotConnected : JsError := ErrorMsg "WebSocket not connected".
Definition RequestTimeout : JsError := ErrorMsg "Request timeout".
Definition ConnectionClosed : JsError := ErrorMsg "Connection closed".
Definition Disconnected : JsError := ErrorMsg "Disconnected".

(** ** State of the provider and of its host *)

Inductive ReadyState : Type := CONNECTING | OPEN | CLOSING | CLOSED.

Definition ReadyState_eqb (a b : ReadyState) : bool :=
  match a, b with
  | CONNECTING, CONNECTING | OPEN, OPEN | CLOSING, CLOSING | CLOSED, CLOSED => true
  | _, _ => false
  end.

(** A socket object. The four handler fields say whether the closure that
    [connect] installed is still attached ([false] after [ws.on... = null]). *)
Record WebSocket : Type := mkWebSocket {
  url : string;
  readyState : ReadyState;
  onopen : bool;
  onmessage : bool;
  onerror : bool;
  onclose : bool
}.

(** The record held in the pending table: [resolve] and [reject] are the
    two functions of one promise, [promise]. *)
Record PendingRequest : Type := mkPending {
  promise : nat;
  timeout : nat
}.

(** The two closures handed to [setTimeout]. *)
Inductive TimerAction : Type :=
| TReconnect
| TRequestTimeout (requestId : string) (p : nat).

Record Timer : Type := mkTimer {
  handle : nat;
  delay : Z;
  action : TimerAction
}.

Inductive Effect : Type :=
| EResolve (p : nat) (data : json)
| EReject (p : nat) (reason : JsError)
| ENotifyConnection (h : nat) (connected : bool)
| ENotifyMessage (h : nat) (data : json)
| ENewWebSocket (w : nat) (uri : string)
| EClose (w : nat)
| ESend (w : nat) (frame : json)
| ESetTimeout (t : Timer)
| EClearTimeout (h : nat).

(** The state of the provider. [isConnected] and [isConnecting] are the two
    [useState] variables: the field holds the value last given to the
    setter, which is what the components see from their next render on. The
    other fields are the refs, the sockets and timers of the host, the
    counters that name timers and promises, and the log of the effects. *)
Record State : Type := mkState {
  isConnected : bool;
  isConnecting : bool;
  wsRef : option nat;
  pendingRequests : JsMap.t PendingRequest;
  messageHandlers : JsSet.t;
  connectionHandlers : JsSet.t;
  serverConfig : string * string;
  reconnectTimeout : option nat;
  reconnectAttempts : nat;
  sockets : list WebSocket;
  timers : list Timer;
  next_timer : nat;
  next_promise : nat;
  log : list Effect
}.

Definition maxReconnectAttempts : nat := 5.

(** The state after the first render. Timer handles start at 1: the source
    tests a handle for truth. *)
Definition initial_state : State :=
  {| isConnected := false; isConnecting := false; wsRef := None;
     pendingRequests := []; messageHandlers := []; connectionHandlers := [];
     serverConfig := ("192.168.0.56", "8081");
     reconnectTimeout := None; reconnectAttempts := 0%nat;
     sockets := []; timers := []; next_timer := 1%nat; next_promise := 0%nat;
     log := [] |}.

(** *** Field updates *)

Definition setIsConnected (b : bool) (s : State) : State :=
  mkState b (isConnecting s) (wsRef s) (pendingRequests s) (messageHandlers s)
    (connectionHandlers s) (serverConfig s) (reconnectTimeout s)
    (reconnectAttempts s) (sockets s) (timers s) (next_timer s)
    (next_promise s) (log s).

Definition setIsConnecting (b : bool) (s : State) : State :=
  mkState (isConnected s) b (wsRef s) (pendingRequests s) (messageHandlers s)
    (connectionHandlers s) (serverConfig s) (reconnectTimeout s)
    (reconnectAttempts s) (sockets s) (timers s) (next_timer s)
    (next_promise s) (log s).

Definition set_wsRef (w : option nat) (s : State) : State :=
  mkState (isConnected s) (isConnecting s) w (pendingRequests s)
    (messageHandlers s) (connectionHandlers s) (serverConfig s)
    (reconnectTimeout s) (reconnectAttempts s) (sockets s) (timers s)
    (next_timer s) (next_promise s) (log s).

Definition set_pendingRequests (m : JsMap.t PendingRequest) (s : State) : State :=
  mkState (isConnected s) (isConnecting s) (wsRef s) m (messageHandlers s)
    (connectionHandlers s) (serverConfig s) (reconnectTimeout s)
    (reconnectAttempts s) (sockets s) (timers s) (next_timer s)
    (next_promise s) (log s).

Definition set_messageHandlers (hs : JsSet.t) (s : State) : State :=
  mkState (isConnected s) (isConnecting s) (wsRef s) (pendingRequests s) hs
    (connectionHandlers s) (serverConfig s) (reconnectTimeout s)
    (reconnectAttempts s) (sockets s) (timers s) (next_timer s)
    (next_promise s) (log s).

Definition set_connectionHandlers (hs : JsSet.t) (s : State) : State :=
  mkState (isConnected s) (isConnecting s) (wsRef s) (pendingRequests s)
    (messageHandlers s) hs (serverConfig s) (reconnectTimeout s)
    (reconnectAttempts s) (sockets s) (timers s) (next_timer s)
    (next_promise s) (log s).

Definition set_serverConfig (c : string * string) (s : State) : State :=
  mkState (isConnected s) (isConnecting s) (wsRef s) (pendingRequests s)
    (messageHandlers s) (connectionHandlers s) c (reconnectTimeout s)
    (reconnectAttempts s) (sockets s) (timers s) (next_timer s)
    (next_promise s) (log s).

Definition set_reconnectTimeout (h : option nat) (s : State) : State :=
  mkState (isConnected s) (isConnecting s) (wsRef s) (pendingRequests s)
    (messageHandlers s) (connectionHandlers s) (serverConfig s) h
    (reconnectAttempts s) (sockets s) (timers s) (next_timer s)
    (next_promise s) (log s).

Definition set_reconnectAttempts (n : nat) (s : State) : State :=
  mkState (isConnected s) (isConnecting s) (wsRef s) (pendingRequests s)
    (messageHandlers s) (connectionHandlers s) (serverConfig s)
    (reconnectTimeout s) n (sockets s) (timers s) (next_timer s)
    (next_promise s) (log s).

Definition set_sockets (ws : list WebSocket) (s : State) : State :=
  mkState (isConnected s) (isConnecting s) (wsRef s) (pendingRequests s)
    (messageHandlers s) (connectionHandlers s) (serverConfig s)
    (reconnectTimeout s) (reconnectAttempts s) ws (timers s) (next_timer s)
    (next_promise s) (log s).

Definition set_timers (ts : list Timer) (s : State) : State :=
  mkState (isConnected s) (isConnecting s) (wsRef s) (pendingRequests s)
    (messageHandlers s) (connectionHandlers s) (serverConfig s)
    (reconnectTimeout s) (reconnectAttempts s) (sockets s) ts (next_timer s)
    (next_promise s) (log s).

Definition set_next_timer (n : nat) (s : State) : State :=
  mkState (isConnected s) (isConnecting s) (wsRef s) (pendingRequests s)
    (messageHandlers s) (connectionHandlers s) (serverConfig s)
    (reconnectTimeout s) (reconnectAttempts s) (sockets s) (timers s) n
    (next_promise s) (log s).

Definition set_next_promise (n : nat) (s : State) : State :=
  mkState (isConnected s) (isConnecting s) (wsRef s) (pendingRequests s)
    (messageHandlers s) (connectionHandlers s) (serverConfig s)
    (reconnectTimeout s) (reconnectAttempts s) (sockets s) (timers s)
    (next_timer s) n (log s).

Definition set_log (l : list Effect) (s : State) : State :=
  mkState (isConnected s) (isConnecting s) (wsRef s) (pendingRequests s)
    (messageHandlers s) (connectionHandlers s) (serverConfig s)
    (reconnectTimeout s) (reconnectAttempts s) (sockets s) (timers s)
    (next_timer s) (next_promise s) l.

(** ** Primitives of the host *)

Definition emit (es : list Effect) (s : State) : State :=
  set_log (log s ++ es) s.

(** [setTimeout(cb, ms)]: a fresh handle, the timer is armed. *)
Definition setTimeout (a : TimerAction) (ms : Z) (s : State) : nat * State :=
  let t := mkTimer (next_timer s) ms a in
  (next_timer s,
   emit [ESetTimeout t]
     (set_next_timer (S (next_timer s)) (set_timers (timers s ++ [t]) s))).

(** [clearTimeout(h)]: the timer is disarmed; nothing happens when it has
    fired or was cleared before. *)
Definition clearTimeout (h : nat) (s : State) : State :=
  emit [EClearTimeout h]
    (set_timers
       (filter (fun t => negb (Nat.eqb (handle t) h)) (timers s)) s).

Definition find_timer (h : nat) (s : State) : option Timer :=
  find (fun t => Nat.eqb (handle t) h) (timers s).

(** A [new Promise]: the executor gets the two functions of promise [p]. *)
Definition new_promise (s : State) : nat * State :=
  (next_promise s, set_next_promise (S (next_promise s)) s).

Definition resolve (p : nat) (data : json) : State -> State :=
  emit [EResolve p data].

Definition reject (p : nat) (reason : JsError) : State -> State :=
  emit [EReject p reason].

Definition socket (w : nat) (s : State) : option WebSocket :=
  nth_error (sockets s) w.

Fixpoint update_nth {A : Type} (n : nat) (f : A -> A) (l : list A) : list A :=
  match l, n with
  | [], _ => []
  | x :: rest, O => f x :: rest
  | x :: rest, S k => x :: update_nth k f rest
  end.

Definition update_socket (w : nat) (f : WebSocket -> WebSocket) (s : State) : State :=
  set_sockets (update_nth w f (sockets s)) s.

Definition set_readyState (r : ReadyState) (x : WebSocket) : WebSocket :=
  mkWebSocket (url x) r (onopen x) (onmessage x) (onerror x) (onclose x).

(** [ws.onclose = null]. *)
Definition clear_onclose (x : WebSocket) : WebSocket :=
  mkWebSocket (url x) (readyState x) (onopen x) (onmessage x) (onerror x) false.

(** The four assignments of [null] in [connect]. *)
Definition clear_handlers (x : WebSocket) : WebSocket :=
  mkWebSocket (url x) (readyState x) false false false false.

(** [ws.close()]: a socket that is connecting or open starts closing, one
    that is closing or closed stays as it is. *)
Definition closing (x : WebSocket) : WebSocket :=
  match readyState x with
  | CONNECTING | OPEN => set_readyState CLOSING x
  | CLOSING | CLOSED => x
  end.

Definition ws_close (w : nat) (s : State) : State :=
  emit [EClose w] (update_socket w closing s).

(** [wsRef.current?.readyState === WebSocket.OPEN]. *)
Definition ws_is_open (s : State) : bool :=
  match wsRef s with
  | None => false
  | Some w =>
      match socket w s with
      | Some x => ReadyState_eqb (readyState x) OPEN
      | None => false
      end
  end.

(** ** Handler registries *)

(** [forEach] on a [Set] whose callbacks add to and delete from the very set
    that is being visited. The members are kept as the language defines
    them: a list of slots, a deleted member leaves an empty slot, a new one
    is appended, and the visit goes on while the index is below the current
    number of slots. *)
Module Registry.

Inductive Op : Type :=
| Add (h : nat)
| Delete (h : nat).

Definition slot_is (h : nat) (e : option nat) : bool :=
  match e with Some x => Nat.eqb x h | None => false end.

Definition apply_op (o : Op) (entries : list (option nat)) : list (option nat) :=
  match o with
  | Add h => if existsb (slot_is h) entries then entries else entries ++ [Some h]
  | Delete h => map (fun e => if slot_is h e then None else e) entries
  end.

Definition apply_ops (ops : list Op) (entries : list (option nat)) : list (option nat) :=
  fold_left (fun acc o => apply_op o acc) ops entries.

(** [behaviour h] is what the body of handler [h] does to the registry
    when it is called. The result is the slots after the pass and the
    handlers called, in order; [None] when the fuel ran out. *)
Fixpoint forEach (fuel : nat) (behaviour : nat -> list Op)
    (entries : list (option nat)) (index : nat) (called : list nat)
    : option (list (option nat) * list nat) :=
  match fuel with
  | O => None
  | S k =>
      match nth_error entries index with
      | None => Some (entries, called)
      | Some None => forEach k behaviour entries (S index) called
      | Some (Some h) =>
          forEach k behaviour (apply_ops (behaviour h) entries) (S index)
            (called ++ [h])
      end
  end.

Fixpoint members (entries : list (option nat)) : JsSet.t :=
  match entries with
  | [] => []
  | Some h :: rest => h :: members rest
  | None :: rest => members rest
  end.

(** One notify pass over registry [s]: the registry afterwards and the
    handlers that were called. *)
Definition notify_all (fuel : nat) (behaviour : nat -> list Op) (s : JsSet.t)
    : option (JsSet.t * list nat) :=
  match forEach fuel behaviour (map Some s) 0 [] with
  | Some (entries, called) => Some (members entries, called)
  | None => None
  end.

(** A handler whose body leaves the registry alone. *)
Definition inert (behaviour : nat -> list Op) : Prop :=
  forall h, behaviour h = [].

(** A handler body that at most unsubscribes the handler itself. *)
Definition self_unsubscribing (behaviour : nat -> list Op) : Prop :=
  forall h, behaviour h = [] \/ behaviour h = [Delete h].

(** What a pass over a snapshot taken at its start would call. *)
Definition snapshot_calls (s : JsSet.t) : list nat := s.

(** Whether the body of [h] leaves [h] registered. *)
Definition stays (behaviour : nat -> list Op) (h : nat) : bool :=
  match behaviour h with
  | [] => true
  | _ => false
  end.

End Registry.

(** [addMessageHandler] and [addConnectionHandler]; the function each
    returns is [removeMessageHandler], [removeConnectionHandler]. *)
Definition addMessageHandler (h : nat) (s : State) : State :=
  set_messageHandlers (JsSet.add h (messageHandlers s)) s.

Definition removeMessageHandler (h : nat) (s : State) : State :=
  set_messageHandlers (JsSet.delete h (messageHandlers s)) s.

Definition addConnectionHandler (h : nat) (s : State) : State :=
  set_connectionHandlers (JsSet.add h (connectionHandlers s)) s.

Definition removeConnectionHandler (h : nat) (s : State) : State :=
  set_connectionHandlers (JsSet.delete h (connectionHandlers s)) s.

(** In the provider below a pass records the call of each member, in
    insertion order, and leaves the set as it is. What a handler does to the
    provider in turn (the observers of the repository call [sendRequest]
    when they are told [true]) is an event of its own, after the step of
    the pass. *)
Definition notifyConnectionHandlers (connected : bool) (s : State) : State :=
  emit (map (fun h => ENotifyConnection h connected) (connectionHandlers s)) s.

Definition notifyMessageHandlers (data : json) (s : State) : State :=
  emit (map (fun h => ENotifyMessage h data) (messageHandlers s)) s.

(** ** Pending request table *)

(** The body of the two [forEach] loops over the table. *)
Definition reject_pending (reason : JsError) (s : State) (e : string * PendingRequest) : State :=
  reject (promise (snd e)) reason (clearTimeout (timeout (snd e)) s).

Definition reject_all (reason : JsError) (s : State) : State :=
  set_pendingRequests []
    (fold_left (reject_pending reason) (pendingRequests s) s).

(** What the two loops over the table do, read off the state: the timers
    left when the handles [hs] are cleared, and the calls made. *)
Definition disarm (hs : list nat) (ts : list Timer) : list Timer :=
  filter (fun t => negb (existsb (Nat.eqb (handle t)) hs)) ts.

Definition pending_handles (s : State) : list nat :=
  map (fun e => timeout (snd e)) (pendingRequests s).

Definition rejections (reason : JsError) (m : JsMap.t PendingRequest) : list Effect :=
  flat_map (fun e => [EClearTimeout (timeout (snd e));
                      EReject (promise (snd e)) reason]) m.

(** The closure armed by [sendRequest]. *)
Definition request_timeout (requestId : string) (p : nat) (s : State) : State :=
  if JsMap.has requestId (pendingRequests s)
  then reject p RequestTimeout
         (set_pendingRequests (JsMap.delete requestId (pendingRequests s)) s)
  else s.

(** [{ action, request_id: requestId, ...params }], the parameters being
    those that have a JSON value; [request_object] below admits
    [undefined]. *)
Definition request_frame (action requestId : string) (params : list (string * json)) : json :=
  JObj (fold_left (fun o kv => JsMap.set (fst kv) (snd kv) o) params
          [("action", JStr action); ("request_id", JStr requestId)]).

(** The same object when a parameter may be [undefined] ([None]), as in
    [{ folder: undefined }]. *)
Definition request_object (action requestId : string)
    (params : list (string * option json)) : list (string * option json) :=
  fold_left (fun o kv => JsMap.set (fst kv) (snd kv) o) params
    [("action", Some (JStr action)); ("request_id", Some (JStr requestId))].

(** [JSON.stringify] leaves out the properties whose value is [undefined]. *)
Definition defined_fields (o : list (string * option json)) : list (string * json) :=
  flat_map (fun kv => match snd kv with
                      | Some v => [(fst kv, v)]
                      | None => []
                      end) o.

(** The object that the text [JSON.stringify(request)] denotes. *)
Definition wire_frame (action requestId : string)
    (params : list (string * option json)) : json :=
  JObj (defined_fields (request_object action requestId params)).

(** Parameters none of which is [undefined]. *)
Definition all_defined (params : list (string * json)) : list (string * option json) :=
  map (fun kv => (fst kv, Some (snd kv))) params.

(** [sendRequest]: [draws] is the outcome of [Math.random], [send_error]
    what [JSON.stringify] or [send] throws, if anything. The result is the
    promise returned and the new state. *)
Definition sendRequest (action : string) (params : list (string * json))
    (draws : nat -> Q) (send_error : option string) (s : State) : nat * State :=
  let (p, s0) := new_promise s in
  match wsRef s0 with
  | None => (p, reject p NotConnected s0)
  | Some w =>
      if ws_is_open s0 then
        let requestId := IdGen.generateRequestId draws in
        let request := request_frame action requestId params in
        let (timeout, s1) := setTimeout (TRequestTimeout requestId p) 30000 s0 in
        let s2 := set_pendingRequests
                    (JsMap.set requestId (mkPending p timeout) (pendingRequests s1)) s1 in
        match send_error with
        | None => (p, emit [ESend w request] s2)
        | Some error =>
            let s3 := clearTimeout timeout s2 in
            let s4 := set_pendingRequests
                        (JsMap.delete requestId (pendingRequests s3)) s3 in
            (p, reject p (HostException error) s4)
        end
      else (p, reject p NotConnected s0)
  end.

(** ** Connection manager *)

Definition disconnect (s : State) : State :=
  let s1 := set_reconnectAttempts maxReconnectAttempts s in
  let s2 := match reconnectTimeout s1 with
            | Some h => set_reconnectTimeout None (clearTimeout h s1)
            | None => s1
            end in
  let s3 := match wsRef s2 with
            | Some w => set_wsRef None (ws_close w (update_socket w clear_onclose s2))
            | None => s2
            end in
  let s4 := setIsConnecting false (setIsConnected false s3) in
  reject_all Disconnected s4.

Definition onopen_handler (s : State) : State :=
  notifyConnectionHandlers true
    (set_reconnectAttempts 0
       (setIsConnecting false (setIsConnected true s))).

(** [parsed] is the result of [JSON.parse(event.data)], [None] when it
    throws. Every exception of the body ends in the [catch]. *)
Definition onmessage_handler (parsed : option json) (s : State) : State :=
  match parsed with
  | None => s
  | Some data =>
      match get_prop data "request_id" with
      | Throws => s
      | Returns rid =>
          let s1 :=
            match (if truthy rid then as_key rid else None) with
            | Some k =>
                match JsMap.get k (pendingRequests s) with
                | Some pending =>
                    resolve (promise pending) data
                      (set_pendingRequests (JsMap.delete k (pendingRequests s))
                         (clearTimeout (timeout pending) s))
                | None => s
                end
            | None => s
            end in
          notifyMessageHandlers data s1
      end
  end.

(** [Math.min(1000 * Math.pow(2, attempts), 10000)]. *)
Definition backoff_delay (attempts : nat) : Z :=
  Z.min (1000 * 2 ^ Z.of_nat attempts) 10000.

Definition onclose_handler (s : State) : State :=
  let s1 := set_wsRef None (setIsConnecting false (setIsConnected false s)) in
  let s2 := notifyConnectionHandlers false s1 in
  let s3 := reject_all ConnectionClosed s2 in
  if (reconnectAttempts s3 <? maxReconnectAttempts)%nat then
    let (h, s4) := setTimeout TReconnect (backoff_delay (reconnectAttempts s3)) s3 in
    set_reconnectTimeout (Some h) s4
  else s3.

(** The timer the close handler sets, as an entry of the log. *)
Definition backoff_timer_set (s : State) : list Effect :=
  if (reconnectAttempts s <? maxReconnectAttempts)%nat
  then [ESetTimeout (mkTimer (next_timer s)
                       (backoff_delay (reconnectAttempts s)) TReconnect)]
  else [].

Section Provider.

(** Whether [new WebSocket(uri)] accepts the address; it throws a
    [SyntaxError] when it does not. *)
Variable url_accepted : string -> bool.

Definition new_WebSocket (uri : string) (s : State) : nat * State :=
  let w := List.length (sockets s) in
  (w, emit [ENewWebSocket w uri]
        (set_sockets (sockets s ++ [mkWebSocket uri CONNECTING true true true true]) s)).

(** The body of [connect]. [isConnecting_seen] is the value of the state
    variable [isConnecting] in the render that created the closure. *)
Definition connect_with (isConnecting_seen : bool) (ip port : string) (s : State) : State :=
  if ws_is_open s then s
  else if isConnecting_seen then s
  else
    let s1 := match reconnectTimeout s with
              | Some h => set_reconnectTimeout None (clearTimeout h s)
              | None => s
              end in
    let s2 := setIsConnecting true (set_serverConfig (ip, port) s1) in
    let uri := ("ws://" ++ ip ++ ":" ++ port)%string in
    let s3 := match wsRef s2 with
              | Some w => set_wsRef None (ws_close w (update_socket w clear_handlers s2))
              | None => s2
              end in
    if url_accepted uri then
      let (w, s4) := new_WebSocket uri s3 in
      set_wsRef (Some w) s4
    else setIsConnecting false s3.

(** [connect] is built by [useCallback] with an empty dependency list, so
    the provider hands out the closure of its first render for ever, and
    in that render [isConnecting] is the initial [useState(false)]. *)
Definition connect : string -> string -> State -> State :=
  connect_with false.

(** The closure armed by the close handler. *)
Definition reconnect_timer (s : State) : State :=
  let s1 := set_reconnectAttempts (S (reconnectAttempts s)) s in
  connect (fst (serverConfig s1)) (snd (serverConfig s1)) s1.

Definition run_timer (a : TimerAction) (s : State) : State :=
  match a with
  | TReconnect => reconnect_timer s
  | TRequestTimeout requestId p => request_timeout requestId p s
  end.

(** ** Events *)

Inductive Event : Type :=
| CallConnect (ip port : string)
| CallDisconnect
| CallSendRequest (action : string) (params : list (string * json))
    (draws : nat -> Q) (send_error : option string)
| CallAddMessageHandler (h : nat)
| CallRemoveMessageHandler (h : nat)
| CallAddConnectionHandler (h : nat)
| CallRemoveConnectionHandler (h : nat)
| SocketOpen (w : nat)
| SocketMessage (w : nat) (parsed : option json)
| SocketError (w : nat)
| SocketClosing (w : nat)
| SocketClose (w : nat) (code : Z)
| TimerFire (h : nat).

(** The host delivers [open] to a connecting socket, [message] to an open
    or closing one, [close] to one that is not closed yet, and fires only
    armed timers; an event that cannot happen leaves the state as it is.
    The error handler only writes to the console. *)
Definition step (e : Event) (s : State) : State :=
  match e with
  | CallConnect ip port => connect ip port s
  | CallDisconnect => disconnect s
  | CallSendRequest action params draws send_error =>
      snd (sendRequest action params draws send_error s)
  | CallAddMessageHandler h => addMessageHandler h s
  | CallRemoveMessageHandler h => removeMessageHandler h s
  | CallAddConnectionHandler h => addConnectionHandler h s
  | CallRemoveConnectionHandler h => removeConnectionHandler h s
  | SocketOpen w =>
      match socket w s with
      | Some x =>
          match readyState x with
          | CONNECTING =>
              let s1 := update_socket w (set_readyState OPEN) s in
              if onopen x then onopen_handler s1 else s1
          | _ => s
          end
      | None => s
      end
  | SocketMessage w parsed =>
      match socket w s with
      | Some x =>
          match readyState x with
          | OPEN | CLOSING => if onmessage x then onmessage_handler parsed s else s
          | _ => s
          end
      | None => s
      end
  | SocketError w => s
  | SocketClosing w =>
      match socket w s with
      | Some x =>
          match readyState x with
          | OPEN => update_socket w (set_readyState CLOSING) s
          | _ => s
          end
      | None => s
      end
  | SocketClose w code =>
      match socket w s with
      | Some x =>
          match readyState x with
          | CLOSED => s
          | _ =>
              let s1 := update_socket w (set_readyState CLOSED) s in
              if onclose x then onclose_handler s1 else s1
          end
      | None => s
      end
  | TimerFire h =>
      match find_timer h s with
      | Some t =>
          run_timer (action t)
            (set_timers (filter (fun t' => negb (Nat.eqb (handle t') h)) (timers s)) s)
      | None => s
      end
  end.

Definition run (es : list Event) (s : State) : State :=
  fold_left (fun st e => step e st) es s.

(** *** Reading the log *)

Inductive Outcome : Type :=
| Resolved (data : json)
| Rejected (reason : JsError).

(** The calls of [resolve] and [reject] of promise [p], in order. *)
Fixpoint settlements (p : nat) (l : list Effect) : list Outcome :=
  match l with
  | [] => []
  | EResolve p' data :: rest =>
      if Nat.eqb p' p then Resolved data :: settlements p rest else settlements p rest
  | EReject p' reason :: rest =>
      if Nat.eqb p' p then Rejected reason :: settlements p rest else settlements p rest
  | _ :: rest => settlements p rest
  end.

(** The timers set, in order. *)
Fixpoint timers_set (l : list Effect) : list Timer :=
  match l with
  | [] => []
  | ESetTimeout t :: rest => t :: timers_set rest
  | _ :: rest => timers_set rest
  end.

(** The sockets opened, in order. *)
Fixpoint sockets_opened (l : list Effect) : list nat :=
  match l with
  | [] => []
  | ENewWebSocket w _ :: rest => w :: sockets_opened rest
  | _ :: rest => sockets_opened rest
  end.

(** The message handlers called with [data], in order. *)
Fixpoint notified_message (l : list Effect) : list (nat * json) :=
  match l with
  | [] => []
  | ENotifyMessage h data :: rest => (h, data) :: notified_message rest
  | _ :: rest => notified_message rest
  end.

(** The connection handlers called, in order. *)
Fixpoint notified_connection (l : list Effect) : list (nat * bool) :=
  match l with
  | [] => []
  | ENotifyConnection h b :: rest => (h, b) :: notified_connection rest
  | _ :: rest => notified_connection rest
  end.

(** The addresses of the sockets opened, in order. *)
Fixpoint addresses (l : list Effect) : list string :=
  match l with
  | [] => []
  | ENewWebSocket _ uri :: rest => uri :: addresses rest
  | _ :: rest => addresses rest
  end.

(** What the log of [s'] has after the log of [s]. *)
Definition new_effects (s s' : State) : list Effect :=
  skipn (List.length (log s)) (log s').

(** *** Consecutive failures *)

Definition server_uri (c : string * string) : string :=
  ("ws://" ++ fst c ++ ":" ++ snd c)%string.

(** The transport of the current socket closes with [code]. *)
Definition close_current (code : Z) (s : State) : State :=
  match wsRef s with
  | Some w => step (SocketClose w code) s
  | None => s
  end.

(** The timer held in [reconnectTimeoutRef] fires. *)
Definition fire_reconnect (s : State) : State :=
  match reconnectTimeout s with
  | Some h => step (TimerFire h) s
  | None => s
  end.

(** One failed attempt followed by the retry. *)
Definition fail_and_retry (s : State) (code : Z) : State :=
  fire_reconnect (close_current code s).

Definition failures (codes : list Z) (s : State) : State :=
  fold_left fail_and_retry codes s.

(** A connection attempt is under way or established on a current socket,
    and nothing is left of earlier attempts: no reconnect timer, no other
    socket that could still open or report its close. *)
Record Live (s : State) : Prop := {
  live_socket :
    exists w x, wsRef s = Some w /\ socket w s = Some x
                /\ readyState x <> CLOSED /\ onclose x = true;
  live_url : url_accepted (server_uri (serverConfig s)) = true;
  live_timeout : reconnectTimeout s = None;
  live_fresh : forall t, In t (timers s) -> (handle t < next_timer s)%nat;
  live_no_reconnect : forall t, In t (timers s) -> action t <> TReconnect;
  live_others :
    forall w x, socket w s = Some x -> wsRef s <> Some w ->
                readyState x <> CONNECTING
                /\ (onclose x = false \/ readyState x = CLOSED)
}.

(** The manager is disconnected and nothing is scheduled or in progress
    that could connect it again. *)
Record Quiet (s : State) : Prop := {
  quiet_isConnected : isConnected s = false;
  quiet_wsRef : wsRef s = None;
  quiet_no_reconnect : forall t, In t (timers s) -> action t <> TReconnect;
  quiet_sockets :
    forall w x, socket w s = Some x ->
                readyState x <> CONNECTING
                /\ (onclose x = false \/ readyState x = CLOSED)
}.

Definition is_connect (e : Event) : bool :=
  match e with
  | CallConnect _ _ => true
  | _ => false
  end.

Definition is_send (e : Event) : bool :=
  match e with
  | CallSendRequest _ _ _ _ => true
  | _ => false
  end.

(** *** Settlement of the promises *)

(** The frame answers the request with identifier [id]. *)
Definition matching_response (id : string) (data : json) : Prop :=
  get_prop data "request_id" = Returns (Some (JStr id)).

(** The ways in which the promise of a registered request is settled. *)
Definition good_outcome (id : string) (o : Outcome) : Prop :=
  match o with
  | Resolved data => matching_response id data
  | Rejected reason =>
      reason = RequestTimeout \/ reason = ConnectionClosed
      \/ reason = Disconnected \/ exists what, reason = HostException what
  end.

(** The identifier a call of [sendRequest] generates is not a key of the
    pending table at that moment. *)
Definition no_collision (e : Event) (s : State) : Prop :=
  match e with
  | CallSendRequest _ _ draws _ =>
      ws_is_open s = true ->
      JsMap.has (IdGen.generateRequestId draws) (pendingRequests s) = false
  | _ => True
  end.

Fixpoint collision_free (es : list Event) (s : State) : Prop :=
  match es with
  | [] => True
  | e :: rest => no_collision e s /\ collision_free rest (step e s)
  end.

(** What holds of the table, the timers and the log in every state reached
    without a collision of identifiers. *)
Record Inv (s : State) : Prop := {
  inv_keys : NoDup (JsMap.keys (pendingRequests s));
  inv_promises : NoDup (map (fun e => promise (snd e)) (pendingRequests s));
  inv_handles : NoDup (map handle (timers s));
  inv_fresh : forall t, In t (timers s) -> (handle t < next_timer s)%nat;
  inv_entry :
    forall id pd, In (id, pd) (pendingRequests s) ->
      In (mkTimer (timeout pd) 30000 (TRequestTimeout id (promise pd))) (timers s)
      /\ settlements (promise pd) (log s) = []
      /\ (promise pd < next_promise s)%nat;
  inv_timer :
    forall t id p, In t (timers s) -> action t = TRequestTimeout id p ->
      In (id, mkPending p (handle t)) (pendingRequests s);
  inv_reconnect :
    forall h, reconnectTimeout s = Some h ->
      (h < next_timer s)%nat
      /\ forall t, In t (timers s) -> handle t = h -> action t = TReconnect;
  inv_registered :
    forall t id p, In t (timers_set (log s)) -> action t = TRequestTimeout id p ->
      (p < next_promise s)%nat
      /\ ((settlements p (log s) = [] /\ In t (timers s))
          \/ exists o, settlements p (log s) = [o] /\ good_outcome id o);
  inv_unborn :
    forall p, (next_promise s <= p)%nat -> settlements p (log s) = []
}.

(** Effects that settle no promise and set no timer. *)
Definition neutral (es : list Effect) : Prop :=
  (forall p, settlements p es = []) /\ timers_set es = [].

(** A change of state that leaves the pending table and the counters alone,
    disarms at most reconnect timers, and logs only neutral effects. *)
Record Neutral (s s' : State) : Prop := {
  neutral_pending : pendingRequests s' = pendingRequests s;
  neutral_next_timer : next_timer s' = next_timer s;
  neutral_next_promise : next_promise s' = next_promise s;
  neutral_sub : forall t, In t (timers s') -> In t (timers s);
  neutral_handles : NoDup (map handle (timers s'));
  neutral_keep :
    forall t, In t (timers s) -> action t <> TReconnect -> In t (timers s');
  neutral_log : exists es, log s' = log s ++ es /\ neutral es;
  neutral_reconnect :
    reconnectTimeout s' = None \/ reconnectTimeout s' = reconnectTimeout s
}.

(** *** One transport at a time *)

(** A socket the manager has let go of: it is closing or closed, and its
    close will not be reported. *)
Definition retired (x : WebSocket) : Prop :=
  (readyState x = CLOSING \/ readyState x = CLOSED)
  /\ (onclose x = false \/ readyState x = CLOSED).

Record OneSocket (s : State) : Prop := {
  one_current : forall w, wsRef s = Some w -> (w < List.length (sockets s))%nat;
  one_retired :
    forall w x, socket w s = Some x -> wsRef s <> Some w -> retired x
}.

(** The sockets after the current one, if any, was detached by [f] and
    closed. *)
Definition let_go (f : WebSocket -> WebSocket) (s : State) : list WebSocket :=
  match wsRef s with
  | Some w => update_nth w closing (update_nth w f (sockets s))
  | None => sockets s
  end.

(** A socket that is connecting or open. *)
Definition alive (x : WebSocket) : bool :=
  match readyState x with
  | CONNECTING | OPEN => true
  | CLOSING | CLOSED => false
  end.

(** *** At most one settlement *)

(** What holds in every reachable state, also when identifiers collide: an
    entry of the table has its timer armed, a promise whose request timer
    is armed is not settled, two armed request timers belong to different
    promises, and no promise is settled twice. *)
Record Once (s : State) : Prop := {
  once_keys : NoDup (JsMap.keys (pendingRequests s));
  once_handles : NoDup (map handle (timers s));
  once_fresh : forall t, In t (timers s) -> (handle t < next_timer s)%nat;
  once_entry :
    forall id pd, In (id, pd) (pendingRequests s) ->
      In (mkTimer (timeout pd) 30000 (TRequestTimeout id (promise pd))) (timers s);
  once_armed :
    forall t id p, In t (timers s) -> action t = TRequestTimeout id p ->
      settlements p (log s) = [] /\ (p < next_promise s)%nat;
  once_promise :
    forall t1 t2 id1 id2 p, In t1 (timers s) -> In t2 (timers s) ->
      action t1 = TRequestTimeout id1 p -> action t2 = TRequestTimeout id2 p ->
      t1 = t2;
  once_reconnect :
    forall h, reconnectTimeout s = Some h ->
      (h < next_timer s)%nat
      /\ forall t, In t (timers s) -> handle t = h -> action t = TReconnect;
  once_settled : forall p, (List.length (settlements p (log s)) <= 1)%nat;
  once_unborn :
    forall p, (next_promise s <= p)%nat -> settlements p (log s) = []
}.

(** *** Reconnect timers *)

(** An armed reconnect timer is the one held in [reconnectTimeoutRef], and
    none is armed while there is a current socket. *)
Record Tidy (s : State) : Prop := {
  tidy_held :
    forall t, In t (timers s) -> action t = TReconnect ->
      reconnectTimeout s = Some (handle t);
  tidy_current :
    forall w t, wsRef s = Some w -> In t (timers s) -> action t <> TReconnect
}.

(** Effects among which no socket is opened, no timer is set and no
    connection handler is called. *)
Definition still (es : list Effect) : Prop :=
  sockets_opened es = [] /\ timers_set es = [] /\ notified_connection es = [].

(** *** The flags and the socket *)

(** The current socket has its open and close handlers attached, and while
    it is open the value last given to [setIsConnected] is [true] and the
    one last given to [setIsConnecting] is [false]. *)
Record Shown (s : State) : Prop := {
  shown_attached :
    forall w x, wsRef s = Some w -> socket w s = Some x ->
      onopen x = true /\ onclose x = true;
  shown_open :
    ws_is_open s = true -> isConnected s = true /\ isConnecting s = false
}.

(** A step that opens no socket and leaves the address alone. *)
Definition keeps_address (s s' : State) : Prop :=
  (exists es, log s' = log s ++ es /\ sockets_opened es = [])
  /\ serverConfig s' = serverConfig s.

End Provider.

(** ** Concrete scenarios *)

(** * The maps screen *)

Module MapsScreen.

Record MapItem : Type := mkMapItem {
  filename : string;
  name : string;
  mod_time : option string;
  last_adm : option string
}.

(** [s.startsWith(p)] *)
Definition startsWith (s p : string) : bool := String.prefix p s.

(** A string that may be [null] or [undefined] is truthy when it is there
    and not empty. *)
Definition given (folder : option string) : option string :=
  match folder with
  | Some f => if String.eqb f "" then None else Some f
  | None => None
  end.

(** [loadMaps]: the folder asked for,
    [!canEditMaps ? 'main' : (folder || undefined)]. *)
Definition requestFolder (canEditMaps : bool) (folder : option string) : option string :=
  if negb canEditMaps then Some "main" else given folder.

(** [loadMaps]: the maps kept of the answer. *)
Definition shownMaps (canEditMaps : bool) (maps : list MapItem) : list MapItem :=
  if negb canEditMaps
  then filter (fun map => negb (startsWith (filename map) "00_Core")
                          && negb (startsWith (name map) "00_Core"))%bool maps
  else maps.

(** [loadMaps]: whether the list of folders is asked for,
    [canEditMaps && !folder]. *)
Definition asksFolders (canEditMaps : bool) (folder : option string) : bool :=
  (canEditMaps && match given folder with Some _ => false | None => true end)%bool.

(** [handleMapPress]: the path handed to the canvas. *)
Definition mapPath (canEditMaps : bool) (currentFolder : option string)
    (map : MapItem) : string :=
  let effectiveFolder := if negb canEditMaps then Some "main" else currentFolder in
  match given effectiveFolder with
  | Some f => ("maps/" ++ f ++ "/" ++ filename map)%string
  | None => ("maps/" ++ filename map)%string
  end.

End MapsScreen.

Module Scenario.

(** A host whose [WebSocket] constructor accepts every address. *)
Definition any_url (uri : string) : bool := true.

(** A random source that always returns one half. *)
Definition half (i : nat) : Q := 1 # 2.

(** [connect] was called once and the socket has not opened yet. *)
Definition connecting : State :=
  connect any_url "10.0.0.1" "8081" initial_state.

(** The socket has opened. *)
Definition connected : State := step any_url (SocketOpen 0) connecting.

(** One request is outstanding. *)
Definition one_pending : State :=
  snd (sendRequest "ping" [] half None connected).

(** A second request was sent while the first is outstanding, and the
    random source repeated itself. *)
Definition two_sent : State :=
  snd (sendRequest "status" [] half None one_pending).

(** One message handler is registered on an open connection. *)
Definition listening : State := addMessageHandler 7 connected.

  (** The identifier the random source [half] yields. *)
Definition id8 : string := "88888888-8888-4888-8888-888888888888".

(** The answer of the server to the request [id8]. *)
Definition pong : json :=
  JObj [("request_id", JStr id8); ("success", JBool true); ("data", JStr "pong")].

(** A request and its answer. *)
Definition ping_pong : list Event :=
  [CallConnect "10.0.0.1" "8081"; SocketOpen 0;
   CallSendRequest "ping" [] half None; SocketMessage 0 (Some pong)].

(** Two requests that get the same identifier; nothing is answered and
    both timers fire. *)
Definition collision : list Event :=
  [CallConnect "10.0.0.1" "8081"; SocketOpen 0;
   CallSendRequest "ping" [] half None; CallSendRequest "status" [] half None;
   TimerFire 1; TimerFire 2].

(** A request, then a manual disconnect. *)
Definition hang_up : list Event :=
  [CallConnect "10.0.0.1" "8081"; SocketOpen 0;
   CallSendRequest "ping" [] half None; CallDisconnect].

(** Handler 2 unsubscribes itself when it is called. *)
Definition leaves_when_called (h : nat) : list Registry.Op :=
  if Nat.eqb h 2 then [Registry.Delete h] else [].

(** Handler 1 unsubscribes handler 2 when it is called. *)
Definition removes_next (h : nat) : list Registry.Op :=
  if Nat.eqb h 1 then [Registry.Delete 2] else [].

(** Handler 1 registers handler 3 when it is called. *)
Definition adds_another (h : nat) : list Registry.Op :=
  if Nat.eqb h 1 then [Registry.Add 3] else [].

(** A host whose [WebSocket] constructor refuses every address. *)
Definition no_url (uri : string) : bool := false.

(** A connection is set up and a request is sent. *)
Definition asking : list Event :=
  [CallConnect "10.0.0.1" "8081"; SocketOpen 0; CallSendRequest "ping" [] half None].

(** What may follow a disconnect: the transport reports its close, the
    timer of the request fires, the application sends another request. *)
Definition aftermath : list Event :=
  [SocketClose 0 1000; TimerFire 1; CallSendRequest "status" [] half None].

(** The transport fails twice and the reconnect timers fire. *)
Definition two_failures : list Event :=
  [SocketClose 0 1006; TimerFire 1; SocketClose 1 1006; TimerFire 2].

(** A random source that always returns seventeen thirty-seconds. *)
Definition above_half (i : nat) : Q := 17 # 32.

(** Two maps of the folder [main]. *)
Definition core_map : MapsScreen.MapItem :=
  MapsScreen.mkMapItem "00_Core.json" "00_Core" None None.

Definition city_map : MapsScreen.MapItem :=
  MapsScreen.mkMapItem "city.json" "City" None None.

(** A request is outstanding on an open socket when the closing handshake
    starts; [connect] is called before the socket has closed. Handler 7
    listens to the connection. *)
Definition replaced : list Event :=
  [CallConnect "10.0.0.1" "8081"; CallAddConnectionHandler 7; SocketOpen 0;
   CallSendRequest "ping" [] half None; SocketClosing 0;
   CallConnect "10.0.0.1" "8081"].

(** A request is outstanding when the application disconnects; then the
    socket closes. Handler 7 listens to the connection. *)
Definition rung_off : list Event :=
  [CallConnect "10.0.0.1" "8081"; CallAddConnectionHandler 7; SocketOpen 0;
   CallSendRequest "ping" [] half None; CallDisconnect; SocketClose 0 1000].

(** What the observers of the repository do when they are told [true]:
    they start requests. *)
Definition loads : list Event :=
  [CallSendRequest "list_maps_with_metadata" [("folder", JStr "main")] half None;
   CallSendRequest "csv_read" [("path", JStr "globals/issues.csv")] (fun _ => 1 # 4) None].

End Scenario.

(** * Properties *)

Section Properties.

Variable url_accepted : string -> bool.

#[local] Set Default Proof Using "Type".

(** Propositional steps, kept independent of the host. *)
Ltac prop := try clear url_accepted; tauto.

(** ** Identifier generator *)

Lemma nibble_range (q : Q) :
  (0 <= q)%Q -> (q < 1)%Q ->
  0 <= to_int32 (js_trunc (q * 16)) < 16.
Proof.
  intros H0 H1.
  assert (Hp : (0 <= q * 16)%Q).
  { apply Qmult_le_0_compat; [assumption | discriminate]. }
  unfold js_trunc.
  assert (Hb : Qle_bool 0 (q * 16) = true) by (apply Qle_bool_iff; assumption).
  rewrite Hb.
  assert (Hlo : 0 <= Qfloor (q * 16)).
  { change 0 with (Qfloor (inject_Z 0)). apply Qfloor_resp_le. assumption. }
  assert (Hhi : Qfloor (q * 16) < 16).
  { rewrite Zlt_Qlt.
    apply Qle_lt_trans with (q * 16)%Q; [apply Qfloor_le |].
    change (inject_Z 16) with (1 * 16)%Q.
    apply Qmult_lt_compat_r; [reflexivity | assumption]. }
  unfold to_int32.
  rewrite Z.mod_small by lia. lia.
Qed.

Lemma small_cases (v : Z) :
  0 <= v < 16 ->
  v = 0 \/ v = 1 \/ v = 2 \/ v = 3 \/ v = 4 \/ v = 5 \/ v = 6 \/ v = 7 \/
  v = 8 \/ v = 9 \/ v = 10 \/ v = 11 \/ v = 12 \/ v = 13 \/ v = 14 \/ v = 15.
Proof. lia. Qed.

Ltac by_nibble v H :=
  destruct (small_cases H) as
    [?|[?|[?|[?|[?|[?|[?|[?|[?|[?|[?|[?|[?|[?|[?|?]]]]]]]]]]]]]]];
  subst v.

Lemma toString16_nibble (v : Z) :
  0 <= v < 16 -> toString16 v = String (hex_digit v) "".
Proof. intros H. by_nibble v H; reflexivity. Qed.

Lemma is_hex_nibble (v : Z) :
  0 <= v < 16 -> IdGen.is_hex (hex_digit v) = true.
Proof. intros H. by_nibble v H; reflexivity. Qed.

Lemma variant_nibble (r : Z) :
  0 <= r < 16 ->
  let v := Z.lor (Z.land r 3) 8 in
  0 <= v < 16 /\ IdGen.is_variant (hex_digit v) = true.
Proof. intros H. by_nibble r H; cbv; repeat split; congruence. Qed.

Lemma replacement_x (q : Q) :
  (0 <= q)%Q /\ (q < 1)%Q ->
  exists c, IdGen.replacement "x" q = String c "" /\ IdGen.is_hex c = true.
Proof.
  intros [H0 H1]. pose proof (nibble_range H0 H1) as Hr.
  exists (hex_digit (to_int32 (js_trunc (q * 16)))). split.
  - unfold IdGen.replacement. cbn [Ascii.eqb]. simpl Bool.eqb.
    cbv iota. apply toString16_nibble, Hr.
  - apply is_hex_nibble, Hr.
Qed.

Lemma replacement_y (q : Q) :
  (0 <= q)%Q /\ (q < 1)%Q ->
  exists c, IdGen.replacement "y" q = String c "" /\ IdGen.is_variant c = true.
Proof.
  intros [H0 H1]. pose proof (nibble_range H0 H1) as Hr.
  destruct (variant_nibble Hr) as [Hv Hc].
  exists (hex_digit (Z.lor (Z.land (to_int32 (js_trunc (q * 16))) 3) 8)). split.
  - unfold IdGen.replacement. cbn [Ascii.eqb]. simpl Bool.eqb.
    cbv iota. apply toString16_nibble, Hv.
  - exact Hc.
Qed.

Lemma replace_x (rest : string) (draws : nat -> Q) (i : nat) :
  IdGen.replace_xy (String "x" rest) draws i
  = (IdGen.replacement "x" (draws i) ++ IdGen.replace_xy rest draws (S i))%string.
Proof. reflexivity. Qed.

Lemma replace_y (rest : string) (draws : nat -> Q) (i : nat) :
  IdGen.replace_xy (String "y" rest) draws i
  = (IdGen.replacement "y" (draws i) ++ IdGen.replace_xy rest draws (S i))%string.
Proof. reflexivity. Qed.

Lemma replace_dash (rest : string) (draws : nat -> Q) (i : nat) :
  IdGen.replace_xy (String "-" rest) draws i
  = String "-" (IdGen.replace_xy rest draws i).
Proof. reflexivity. Qed.

Lemma replace_four (rest : string) (draws : nat -> Q) (i : nat) :
  IdGen.replace_xy (String "4" rest) draws i
  = String "4" (IdGen.replace_xy rest draws i).
Proof. reflexivity. Qed.

(** C9. Whatever [Math.random] returns (within its contract, a number of
    the half-open unit interval), [generateRequestId] returns a string of
    36 characters: hexadecimal digits in groups of 8, 4, 4, 4 and 12
    separated by hyphens, the first digit of the third group being 4 and
    the first digit of the fourth one of 8, 9, a, b. The function is total,
    so it always returns. *)
Theorem generateRequestId_uuid_v4 (draws : nat -> Q) :
  IdGen.unit_interval draws ->
  IdGen.uuid_v4_shaped (IdGen.generateRequestId draws) = true.
Proof.
  intros Hd. unfold IdGen.generateRequestId, IdGen.template.
  repeat
    match goal with
    | |- context [IdGen.replace_xy (String "x" ?r) ?d ?i] =>
        rewrite (replace_x r d i);
        let c := fresh "c" in let E := fresh "E" in let Hc := fresh "Hc" in
        destruct (replacement_x (Hd i)) as [c [E Hc]]; rewrite E; clear E
    | |- context [IdGen.replace_xy (String "y" ?r) ?d ?i] =>
        rewrite (replace_y r d i);
        let c := fresh "c" in let E := fresh "E" in let Hc := fresh "Hc" in
        destruct (replacement_y (Hd i)) as [c [E Hc]]; rewrite E; clear E
    | |- context [IdGen.replace_xy (String "-" ?r) ?d ?i] =>
        rewrite (replace_dash r d i)
    | |- context [IdGen.replace_xy (String "4" ?r) ?d ?i] =>
        rewrite (replace_four r d i)
    end.
  cbn [IdGen.replace_xy String.append].
  unfold IdGen.uuid_v4_shaped.
  cbn [String.length Nat.eqb andb IdGen.chars_ok].
  unfold IdGen.char_ok. cbn [existsb Nat.eqb orb].
  repeat match goal with H : _ = true |- _ => rewrite H; clear H end.
  reflexivity.
Qed.

(** ** Request facade *)

Lemma new_effects_app (s s' : State) (es : list Effect) :
  log s' = log s ++ es -> new_effects s s' = es.
Proof.
  intros H. unfold new_effects. rewrite H.
  rewrite skipn_app, skipn_all, Nat.sub_diag. reflexivity.
Qed.

Lemma sendRequest_closed (action : string) (params : list (string * json))
    (draws : nat -> Q) (send_error : option string) (s : State) :
  ws_is_open s = false ->
  sendRequest action params draws send_error s
  = (next_promise s,
     reject (next_promise s) NotConnected (set_next_promise (S (next_promise s)) s)).
Proof.
  intros Hopen. unfold sendRequest, new_promise.
  change (ws_is_open (set_next_promise (S (next_promise s)) s))
    with (ws_is_open s).
  rewrite Hopen.
  cbn [wsRef set_next_promise]. destruct (wsRef s); reflexivity.
Qed.

(** C5. A call of [sendRequest] while the socket is absent or not open
    returns a promise that is rejected at once with "WebSocket not
    connected"; the result does not depend on the random source (no
    identifier is generated), and the pending table and the timers are
    those of before. *)
Theorem sendRequest_not_connected (action : string)
    (params : list (string * json)) (draws : nat -> Q)
    (send_error : option string) (s : State) :
  ws_is_open s = false ->
  let p := next_promise s in
  sendRequest action params draws send_error s
  = (p, reject p NotConnected (set_next_promise (S p) s))
  /\ new_effects s (snd (sendRequest action params draws send_error s))
     = [EReject p NotConnected]
  /\ pendingRequests (snd (sendRequest action params draws send_error s))
     = pendingRequests s
  /\ timers (snd (sendRequest action params draws send_error s)) = timers s.
Proof.
  intros Hopen p.
  pose proof (@sendRequest_closed action params draws send_error s Hopen) as E.
  fold p in E. rewrite E. cbn [snd]. repeat split.
  apply new_effects_app. reflexivity.
Qed.

(** ** Rejecting the whole table *)

Lemma disarm_nil (ts : list Timer) : disarm [] ts = ts.
Proof.
  unfold disarm. induction ts as [|t ts IH]; cbn; [reflexivity|].
  cbn in IH. rewrite IH. reflexivity.
Qed.

Lemma disarm_cons (h : nat) (hs : list nat) (ts : list Timer) :
  disarm hs (filter (fun t => negb (Nat.eqb (handle t) h)) ts)
  = disarm (h :: hs) ts.
Proof.
  unfold disarm. induction ts as [|t ts IH]; cbn; [reflexivity|].
  destruct (Nat.eqb (handle t) h); cbn; [exact IH|].
  destruct (existsb (Nat.eqb (handle t)) hs); cbn; rewrite IH; reflexivity.
Qed.

Lemma reject_each_eq (reason : JsError) (m : JsMap.t PendingRequest) (s : State) :
  fold_left (reject_pending reason) m s
  = set_log (log s ++ rejections reason m)
      (set_timers (disarm (map (fun e => timeout (snd e)) m) (timers s)) s).
Proof.
  revert s. induction m as [|e m IH]; intros s.
  - cbn [fold_left rejections flat_map map]. rewrite disarm_nil, app_nil_r.
    destruct s; reflexivity.
  - cbn [fold_left]. rewrite IH.
    unfold reject_pending, reject, clearTimeout, emit.
    cbn [log timers set_log set_timers map rejections flat_map].
    rewrite disarm_cons, <- !app_assoc.
    unfold set_log, set_timers. cbn. reflexivity.
Qed.

Lemma reject_all_eq (reason : JsError) (s : State) :
  reject_all reason s
  = set_pendingRequests []
      (set_log (log s ++ rejections reason (pendingRequests s))
         (set_timers
            (disarm (map (fun e => timeout (snd e)) (pendingRequests s))
               (timers s)) s)).
Proof. unfold reject_all. rewrite reject_each_eq. reflexivity. Qed.

Lemma rejections_In (reason : JsError) (m : JsMap.t PendingRequest)
    (id : string) (pending : PendingRequest) :
  In (id, pending) m ->
  In (EReject (promise pending) reason) (rejections reason m).
Proof.
  intros H. unfold rejections. apply in_flat_map.
  exists (id, pending). split; [exact H | cbn; auto].
Qed.

Lemma disarm_not_armed (hs : list nat) (ts : list Timer) (h : nat) :
  In h hs -> find (fun t => Nat.eqb (handle t) h) (disarm hs ts) = None.
Proof.
  intros Hin. unfold disarm.
  induction ts as [|t ts IH]; cbn; [reflexivity|].
  destruct (existsb (Nat.eqb (handle t)) hs) eqn:E; cbn; [exact IH|].
  destruct (Nat.eqb (handle t) h) eqn:E'; [|exact IH].
  apply Nat.eqb_eq in E'. exfalso.
  assert (existsb (Nat.eqb (handle t)) hs = true); [|congruence].
  apply existsb_exists. exists h. split; [exact Hin|].
  apply Nat.eqb_eq. exact E'.
Qed.

(** What the close handler appends to the log. *)
Lemma onclose_handler_log (s : State) :
  log (onclose_handler s)
  = log s
    ++ map (fun h => ENotifyConnection h false) (connectionHandlers s)
    ++ rejections ConnectionClosed (pendingRequests s)
    ++ backoff_timer_set s.
Proof.
  unfold onclose_handler, backoff_timer_set. rewrite reject_all_eq.
  cbn [reconnectAttempts set_pendingRequests set_log set_timers
       notifyConnectionHandlers emit set_wsRef setIsConnecting setIsConnected
       log pendingRequests connectionHandlers timers next_timer].
  destruct (reconnectAttempts s <? maxReconnectAttempts)%nat.
  - cbn. rewrite <- !app_assoc. reflexivity.
  - cbn. rewrite app_nil_r, <- !app_assoc. reflexivity.
Qed.

Lemma onclose_handler_pending (s : State) :
  pendingRequests (onclose_handler s) = [].
Proof.
  unfold onclose_handler. rewrite reject_all_eq.
  destruct (_ <? _)%nat; reflexivity.
Qed.

Lemma settlements_app (p : nat) (l1 l2 : list Effect) :
  settlements p (l1 ++ l2) = settlements p l1 ++ settlements p l2.
Proof.
  induction l1 as [|e l1 IH]; [reflexivity|].
  destruct e; cbn; try exact IH;
    destruct (Nat.eqb _ p); cbn; rewrite IH; reflexivity.
Qed.

Lemma settlements_notify_connection (p : nat) (b : bool) (hs : list nat) :
  settlements p (map (fun h => ENotifyConnection h b) hs) = [].
Proof. induction hs; [reflexivity | exact IHhs]. Qed.

Lemma settlements_notify_message (p : nat) (d : json) (hs : list nat) :
  settlements p (map (fun h => ENotifyMessage h d) hs) = [].
Proof. induction hs; [reflexivity | exact IHhs]. Qed.

Lemma settlements_rejections (p : nat) (reason : JsError)
    (m : JsMap.t PendingRequest) (o : Outcome) :
  In o (settlements p (rejections reason m)) -> o = Rejected reason.
Proof.
  induction m as [|e m IH]; cbn; [tauto|].
  destruct (Nat.eqb _ p); cbn; [intros [H|H]; [congruence | exact (IH H)] | exact IH].
Qed.

Lemma notified_connection_app (l1 l2 : list Effect) :
  notified_connection (l1 ++ l2)
  = notified_connection l1 ++ notified_connection l2.
Proof.
  induction l1 as [|e l1 IH]; [reflexivity|].
  destruct e; cbn; rewrite ?IH; reflexivity.
Qed.

Lemma notified_connection_map (b : bool) (hs : list nat) :
  notified_connection (map (fun h => ENotifyConnection h b) hs)
  = map (fun h => (h, b)) hs.
Proof. induction hs as [|h hs IH]; cbn; [|rewrite IH]; reflexivity. Qed.

Lemma notified_connection_rejections (reason : JsError) (m : JsMap.t PendingRequest) :
  notified_connection (rejections reason m) = [].
Proof. induction m as [|e m IH]; [reflexivity | exact IH]. Qed.

(** ** Close of the transport *)

(** C3. When the socket closes (whatever the close code) and its close
    handler is attached, every entry of the pending table has its promise
    rejected with "Connection closed" and no promise is settled in any
    other way, the table is empty afterwards, and every connection handler
    is called with [false], in registration order. *)
Theorem close_rejects_all_pending (w : nat) (code : Z) (x : WebSocket) (s : State) :
  socket w s = Some x -> readyState x <> CLOSED -> onclose x = true ->
  let s' := step url_accepted (SocketClose w code) s in
  pendingRequests s' = []
  /\ (forall id pending, In (id, pending) (pendingRequests s) ->
        In (EReject (promise pending) ConnectionClosed) (new_effects s s'))
  /\ (forall p o, In o (settlements p (new_effects s s')) ->
        o = Rejected ConnectionClosed)
  /\ notified_connection (new_effects s s')
     = map (fun h => (h, false)) (connectionHandlers s).
Proof.
  intros Hx Hr Hc s'.
  set (s1 := update_socket w (set_readyState CLOSED) s).
  assert (E : s' = onclose_handler s1).
  { subst s' s1. cbn [step]. rewrite Hx, Hc. destruct (readyState x); congruence. }
  pose proof (onclose_handler_log s1) as Hlog.
  change (log s1) with (log s) in Hlog.
  change (connectionHandlers s1) with (connectionHandlers s) in Hlog.
  change (pendingRequests s1) with (pendingRequests s) in Hlog.
  rewrite <- E in Hlog.
  assert (Htail : forall p, settlements p (backoff_timer_set s1) = []).
  { intros p. unfold backoff_timer_set. destruct (_ <? _)%nat; reflexivity. }
  rewrite (new_effects_app s s' _ Hlog).
  split; [rewrite E; apply onclose_handler_pending|].
  split; [|split].
  - intros id pending Hin. apply in_or_app. right. apply in_or_app. left.
    eapply rejections_In; eassumption.
  - intros p o. rewrite !settlements_app, settlements_notify_connection, Htail.
    rewrite app_nil_r. cbn [app]. apply settlements_rejections.
  - rewrite !notified_connection_app, notified_connection_map,
      notified_connection_rejections.
    unfold backoff_timer_set. destruct (_ <? _)%nat; cbn; apply app_nil_r.
Qed.

(** ** Manual disconnect *)

Lemma disconnect_log (s : State) :
  log (disconnect s)
  = log s
    ++ match reconnectTimeout s with Some h => [EClearTimeout h] | None => [] end
    ++ match wsRef s with Some w => [EClose w] | None => [] end
    ++ rejections Disconnected (pendingRequests s).
Proof.
  unfold disconnect. rewrite reject_all_eq.
  cbn [reconnectTimeout set_reconnectAttempts].
  destruct (reconnectTimeout s) as [h|], (wsRef s) as [w|] eqn:Ew;
    cbn; rewrite ?Ew; cbn; rewrite <- ?app_assoc; reflexivity.
Qed.

Lemma disconnect_timers (s : State) :
  timers (disconnect s)
  = disarm (map (fun e => timeout (snd e)) (pendingRequests s))
      match reconnectTimeout s with
      | Some h => filter (fun t => negb (Nat.eqb (handle t) h)) (timers s)
      | None => timers s
      end.
Proof.
  unfold disconnect. rewrite reject_all_eq.
  cbn [reconnectTimeout set_reconnectAttempts].
  destruct (reconnectTimeout s) as [h|], (wsRef s) as [w|] eqn:Ew;
    cbn; rewrite ?Ew; cbn; reflexivity.
Qed.

Lemma disconnect_sockets (s : State) :
  sockets (disconnect s)
  = match wsRef s with
    | Some w => update_nth w closing (update_nth w clear_onclose (sockets s))
    | None => sockets s
    end.
Proof.
  unfold disconnect. rewrite reject_all_eq.
  cbn [reconnectTimeout set_reconnectAttempts].
  destruct (reconnectTimeout s) as [h|], (wsRef s) as [w|] eqn:Ew;
    cbn; rewrite ?Ew; cbn; reflexivity.
Qed.

Lemma disconnect_fields (s : State) :
  reconnectTimeout (disconnect s) = None
  /\ wsRef (disconnect s) = None
  /\ pendingRequests (disconnect s) = []
  /\ reconnectAttempts (disconnect s) = maxReconnectAttempts
  /\ isConnected (disconnect s) = false
  /\ isConnecting (disconnect s) = false.
Proof.
  unfold disconnect. rewrite reject_all_eq.
  cbn [reconnectTimeout set_reconnectAttempts].
  destruct (reconnectTimeout s) as [h|] eqn:Er, (wsRef s) as [w|] eqn:Ew;
    cbn; rewrite ?Ew, ?Er; cbn; rewrite ?Ew, ?Er; repeat split; reflexivity.
Qed.

Lemma nth_error_update_nth {A : Type} (f : A -> A) (l : list A) (n : nat) :
  nth_error (update_nth n f l) n = option_map f (nth_error l n).
Proof.
  revert n. induction l as [|a l IH]; intros [|n]; cbn; try reflexivity.
  apply IH.
Qed.

Lemma nth_error_update_nth_ne {A : Type} (f : A -> A) (l : list A) (n m : nat) :
  n <> m -> nth_error (update_nth n f l) m = nth_error l m.
Proof.
  revert n m. induction l as [|a l IH]; intros [|n] [|m] H; cbn;
    try reflexivity; try congruence.
  apply IH. congruence.
Qed.

Lemma find_handle_None (h : nat) (ts : list Timer) :
  (forall t, In t ts -> handle t <> h) ->
  find (fun t => Nat.eqb (handle t) h) ts = None.
Proof.
  intros H. destruct (find _ ts) as [t|] eqn:E; [|reflexivity].
  apply find_some in E. destruct E as [Hin He].
  apply Nat.eqb_eq in He. exfalso. exact (H t Hin He).
Qed.

Lemma In_disarm (hs : list nat) (ts : list Timer) (t : Timer) :
  In t (disarm hs ts) <-> In t ts /\ ~ In (handle t) hs.
Proof.
  unfold disarm. rewrite filter_In, negb_true_iff. split.
  - intros [Hin Hn]. split; [exact Hin|]. intros Hh.
    assert (existsb (Nat.eqb (handle t)) hs = true); [|congruence].
    apply existsb_exists. exists (handle t). split; [exact Hh | apply Nat.eqb_refl].
  - intros [Hin Hn]. split; [exact Hin|].
    destruct (existsb _ hs) eqn:E; [|reflexivity].
    apply existsb_exists in E. destruct E as [h [Hh He]].
    apply Nat.eqb_eq in He. subst h. contradiction.
Qed.

Lemma In_clear (h : nat) (ts : list Timer) (t : Timer) :
  In t (filter (fun t => negb (Nat.eqb (handle t) h)) ts)
  <-> In t ts /\ handle t <> h.
Proof.
  rewrite filter_In, negb_true_iff, Nat.eqb_neq. tauto.
Qed.

Lemma timers_set_app (l1 l2 : list Effect) :
  timers_set (l1 ++ l2) = timers_set l1 ++ timers_set l2.
Proof.
  induction l1 as [|e l1 IH]; [reflexivity|].
  destruct e; cbn; rewrite ?IH; reflexivity.
Qed.

Lemma timers_set_rejections (reason : JsError) (m : JsMap.t PendingRequest) :
  timers_set (rejections reason m) = [].
Proof. induction m as [|e m IH]; [reflexivity | exact IH]. Qed.

Lemma timers_set_notify_connection (b : bool) (hs : list nat) :
  timers_set (map (fun h => ENotifyConnection h b) hs) = [].
Proof. induction hs; [reflexivity | exact IHhs]. Qed.

(** C7. From every state, [disconnect] clears the reconnect timer if one
    is held, closes the socket if there is one (after detaching its close
    handler), rejects the promise of every entry of the pending table with
    "Disconnected" and clears its timer, leaves the table empty, and sets
    the attempt counter to the maximum; it sets no timer itself, and no
    close event delivered afterwards sets one. *)
Theorem disconnect_tears_down (s : State) :
  let s' := disconnect s in
  (reconnectTimeout s' = None
   /\ forall h, reconnectTimeout s = Some h ->
        In (EClearTimeout h) (new_effects s s') /\ find_timer h s' = None)
  /\ (wsRef s' = None
      /\ forall w x, wsRef s = Some w -> socket w s = Some x ->
           In (EClose w) (new_effects s s')
           /\ socket w s' = Some (closing (clear_onclose x)))
  /\ (pendingRequests s' = []
      /\ forall id pending, In (id, pending) (pendingRequests s) ->
           In (EReject (promise pending) Disconnected) (new_effects s s')
           /\ find_timer (timeout pending) s' = None)
  /\ (reconnectAttempts s' = maxReconnectAttempts
      /\ isConnected s' = false /\ isConnecting s' = false
      /\ timers_set (new_effects s s') = []
      /\ forall w code,
           timers_set (new_effects s' (step url_accepted (SocketClose w code) s')) = []).
Proof.
  intros s'.
  destruct (disconnect_fields s) as [Hrt [Hws [Hpend [Hatt [Hic Hig]]]]].
  pose proof (disconnect_log s) as Hlog.
  pose proof (disconnect_timers s) as Htim.
  pose proof (disconnect_sockets s) as Hsock.
  fold s' in Hrt, Hws, Hpend, Hatt, Hic, Hig, Hlog, Htim, Hsock.
  rewrite (new_effects_app s s' _ Hlog).
  repeat split; try assumption.
  - rewrite H. cbn. auto.
  - unfold find_timer. rewrite Htim, H. apply find_handle_None.
    intros t Ht. apply In_disarm in Ht. destruct Ht as [Ht _].
    apply In_clear in Ht. exact (proj2 Ht).
  - rewrite H. apply in_or_app. right. cbn. auto.
  - unfold socket. rewrite Hsock, H.
    rewrite !nth_error_update_nth. unfold socket in H0. rewrite H0. reflexivity.
  - apply in_or_app. right. apply in_or_app. right.
    eapply rejections_In; eassumption.
  - unfold find_timer. rewrite Htim. apply find_handle_None.
    intros t Ht. apply In_disarm in Ht. destruct Ht as [_ Ht].
    intros Hh. apply Ht. apply in_map_iff.
    exists (id, pending). split; [symmetry; exact Hh | exact H].
  - rewrite !timers_set_app, timers_set_rejections.
    destruct (reconnectTimeout s), (wsRef s); reflexivity.
  - intros w code. cbn [step].
    destruct (socket w s') as [x|] eqn:Ex;
      [|unfold new_effects; rewrite skipn_all; reflexivity].
    assert (Hskip : forall s0, log s0 = log s' -> timers_set (new_effects s' s0) = []).
    { intros s0 E. unfold new_effects. rewrite E, skipn_all. reflexivity. }
    assert (Hrun : timers_set (new_effects s'
                     (onclose_handler (update_socket w (set_readyState CLOSED) s'))) = []).
    { rewrite (new_effects_app s' _ _
                 (onclose_handler_log (update_socket w (set_readyState CLOSED) s'))).
      cbn [update_socket set_sockets connectionHandlers pendingRequests].
      rewrite !timers_set_app, timers_set_rejections, timers_set_notify_connection.
      unfold backoff_timer_set. cbn [reconnectAttempts update_socket set_sockets].
      rewrite Hatt. reflexivity. }
    destruct (readyState x); try (apply Hskip; reflexivity);
      destruct (onclose x); try exact Hrun; apply Hskip; reflexivity.
Qed.

(** ** Failure of the transmission *)

Lemma JsMap_has_set_delete {V : Type} (k : string) (v : V) (m : JsMap.t V) :
  JsMap.has k m = false -> JsMap.delete k (JsMap.set k v m) = m.
Proof.
  unfold JsMap.has. induction m as [|[k' v'] m IH]; cbn.
  - rewrite String.eqb_refl. reflexivity.
  - destruct (String.eqb k k') eqn:E; [discriminate|].
    intros H. cbn. rewrite E, (IH H). reflexivity.
Qed.

Lemma ws_is_open_wsRef (s : State) :
  ws_is_open s = true -> exists w, wsRef s = Some w.
Proof.
  unfold ws_is_open. destruct (wsRef s) as [w|]; [eauto | discriminate].
Qed.

(** C10, as the code has it. When [send] throws in a call of [sendRequest]
    on an open socket, and the generated identifier is not already a key
    of the pending table, the table after the call is the table before it,
    the timer set by the call is cleared, and the promise returned is
    rejected with what was thrown (and settled in no other way). *)
Theorem sendRequest_send_failure (action : string)
    (params : list (string * json)) (draws : nat -> Q)
    (error : string) (s : State) :
  ws_is_open s = true ->
  JsMap.has (IdGen.generateRequestId draws) (pendingRequests s) = false ->
  let p := next_promise s in
  let h := next_timer s in
  let r := sendRequest action params draws (Some error) s in
  fst r = p
  /\ pendingRequests (snd r) = pendingRequests s
  /\ find_timer h (snd r) = None
  /\ new_effects s (snd r)
     = [ESetTimeout (mkTimer h 30000
                       (TRequestTimeout (IdGen.generateRequestId draws) p));
        EClearTimeout h;
        EReject p (HostException error)]
  /\ settlements p (new_effects s (snd r)) = [Rejected (HostException error)].
Proof.
  intros Hopen Hfresh p h r.
  destruct (ws_is_open_wsRef s Hopen) as [w Hw].
  assert (E : r = (p, reject p (HostException error)
               (set_pendingRequests
                  (JsMap.delete (IdGen.generateRequestId draws)
                     (JsMap.set (IdGen.generateRequestId draws) (mkPending p h)
                        (pendingRequests s)))
                  (clearTimeout h
                     (snd (setTimeout
                             (TRequestTimeout (IdGen.generateRequestId draws) p)
                             30000 (set_next_promise (S p) s))))))).
  { subst r. unfold sendRequest, new_promise.
    change (ws_is_open (set_next_promise (S (next_promise s)) s))
      with (ws_is_open s).
    rewrite Hopen. cbn [wsRef set_next_promise]. rewrite Hw. reflexivity. }
  rewrite E. cbn [fst snd].
  split; [reflexivity|]. split; [|split; [|split]].
  - cbn. apply JsMap_has_set_delete. exact Hfresh.
  - unfold find_timer. apply find_handle_None.
    intros t Ht. cbn in Ht. apply In_clear in Ht. exact (proj2 Ht).
  - apply new_effects_app. cbn. rewrite <- !app_assoc. reflexivity.
  - erewrite new_effects_app; [|cbn; rewrite <- !app_assoc; reflexivity].
    cbn. subst p. rewrite Nat.eqb_refl. reflexivity.
Qed.

(** ** Inbound frames *)

Lemma notified_message_app (l1 l2 : list Effect) :
  notified_message (l1 ++ l2) = notified_message l1 ++ notified_message l2.
Proof.
  induction l1 as [|e l1 IH]; [reflexivity|].
  destruct e; cbn; rewrite ?IH; reflexivity.
Qed.

Lemma notified_message_map (data : json) (hs : list nat) :
  notified_message (map (fun h => ENotifyMessage h data) hs)
  = map (fun h => (h, data)) hs.
Proof. induction hs as [|h hs IH]; cbn; [|rewrite IH]; reflexivity. Qed.

Lemma get_prop_not_null (data : json) (k : string) :
  data <> JNull -> exists v, get_prop data k = Returns v.
Proof. destruct data; cbn; eauto. congruence. Qed.

(** C6, as the code has it. For every frame that parses to a value other
    than [null], the message handlers are called with the parsed value,
    each once and in registration order, whether or not the frame answers
    a pending request; and when its [request_id] is not a key of the
    pending table, the handler ends normally with the table and the timers
    unchanged and no promise settled: the calls of the message handlers
    are all it does. *)
Theorem onmessage_fans_out (data : json) (s : State) :
  data <> JNull ->
  let s' := onmessage_handler (Some data) s in
  notified_message (new_effects s s')
  = map (fun h => (h, data)) (messageHandlers s)
  /\ ((forall k, get_prop data "request_id" = Returns (Some (JStr k)) ->
                 JsMap.has k (pendingRequests s) = false) ->
      pendingRequests s' = pendingRequests s
      /\ timers s' = timers s
      /\ new_effects s s'
         = map (fun h => ENotifyMessage h data) (messageHandlers s)).
Proof.
  intros Hnn s'. subst s'.
  destruct (get_prop_not_null "request_id" Hnn) as [rid Hrid].
  unfold onmessage_handler. rewrite Hrid.
  destruct (if truthy rid then as_key rid else None) as [k|] eqn:Ek.
  - assert (Hk : rid = Some (JStr k)).
    { destruct (truthy rid); [|discriminate].
      destruct rid as [[]|]; cbn in Ek; congruence. }
    destruct (JsMap.get k (pendingRequests s)) as [pending|] eqn:Eg.
    + split.
      * erewrite new_effects_app;
          [|cbn; rewrite <- !app_assoc; reflexivity].
        cbn. apply notified_message_map.
      * intros Hno. specialize (Hno k). rewrite Hk in Hno.
        specialize (Hno eq_refl). unfold JsMap.has in Hno.
        rewrite Eg in Hno. discriminate.
    + split; [|intros _; repeat split]; try (erewrite new_effects_app by reflexivity);
        try reflexivity.
      apply notified_message_map.
  - split; [|intros _; repeat split]; try (erewrite new_effects_app by reflexivity);
      try reflexivity.
    apply notified_message_map.
Qed.

(** ** Handler registries *)

Lemma JsSet_add_has (h : nat) (s : JsSet.t) :
  JsSet.has h (JsSet.add h s) = true.
Proof.
  unfold JsSet.add. destruct (JsSet.has h s) eqn:E; [exact E|].
  unfold JsSet.has. rewrite existsb_app. cbn.
  rewrite Nat.eqb_refl, orb_true_r. reflexivity.
Qed.

Lemma JsSet_add_twice (h : nat) (s : JsSet.t) :
  JsSet.add h (JsSet.add h s) = JsSet.add h s.
Proof.
  unfold JsSet.add at 1. rewrite JsSet_add_has. reflexivity.
Qed.

Lemma JsSet_delete_has (h : nat) (s : JsSet.t) :
  JsSet.has h (JsSet.delete h s) = false.
Proof.
  unfold JsSet.has, JsSet.delete.
  induction s as [|x s IH]; cbn; [reflexivity|].
  destruct (Nat.eqb x h) eqn:E; cbn; [exact IH|].
  rewrite Nat.eqb_sym, E. exact IH.
Qed.

Lemma delete_slots_absent (h : nat) (entries : list (option nat)) :
  ~ In (Some h) entries ->
  map (fun e => if Registry.slot_is h e then None else e) entries = entries.
Proof.
  induction entries as [|e entries IH]; cbn; [reflexivity|].
  intros H. rewrite IH by tauto.
  destruct e as [x|]; cbn; [|reflexivity].
  destruct (Nat.eqb x h) eqn:E; [|reflexivity].
  apply Nat.eqb_eq in E. subst x. exfalso. apply H. left. reflexivity.
Qed.

Lemma In_map_Some (h : nat) (l : list nat) :
  In (Some h) (map Some l) -> In h l.
Proof.
  rewrite in_map_iff. intros [x [E Hx]]. congruence.
Qed.

Lemma nth_error_middle {A : Type} (pre : list A) (x : A) (rest : list A) :
  nth_error (pre ++ x :: rest) (List.length pre) = Some x.
Proof.
  rewrite nth_error_app2 by apply Nat.le_refl.
  rewrite Nat.sub_diag. reflexivity.
Qed.

(** A pass in which each callback at most unsubscribes its own handler:
    the slots before the index are done, those from the index on are the
    members still to visit. *)
Lemma forEach_self_unsubscribing (behaviour : nat -> list Registry.Op) :
  Registry.self_unsubscribing behaviour ->
  forall (rest : list nat) (pre : list (option nat)) (called : list nat) (fuel : nat),
    NoDup rest ->
    (forall h, In h rest -> ~ In (Some h) pre) ->
    (List.length rest < fuel)%nat ->
    Registry.forEach fuel behaviour (pre ++ map Some rest) (List.length pre) called
    = Some (pre ++ map (fun h => if Registry.stays behaviour h then Some h else None) rest,
            called ++ rest).
Proof.
  intros Hb rest. induction rest as [|h rest IH]; intros pre called fuel Hnd Hpre Hfuel.
  - destruct fuel as [|fuel]; [inversion Hfuel|].
    cbn [map Registry.forEach]. rewrite !app_nil_r.
    rewrite (proj2 (nth_error_None pre (List.length pre)) (Nat.le_refl _)).
    reflexivity.
  - destruct fuel as [|fuel]; [inversion Hfuel|].
    cbn [map Registry.forEach]. rewrite nth_error_middle.
    inversion Hnd as [|? ? Hnotin Hnd']; subst.
    assert (Hstep : forall slot,
      (forall h', In h' rest -> ~ In (Some h') (pre ++ [slot])) ->
      Registry.forEach fuel behaviour (pre ++ slot :: map Some rest)
        (S (List.length pre)) (called ++ [h])
      = Some (pre ++ slot
                :: map (fun h => if Registry.stays behaviour h then Some h else None) rest,
              called ++ h :: rest)).
    { intros slot Hslot.
      replace (S (List.length pre)) with (List.length (pre ++ [slot]))
        by (rewrite length_app; cbn; apply Nat.add_1_r).
      replace (pre ++ slot :: map Some rest) with ((pre ++ [slot]) ++ map Some rest)
        by (rewrite <- app_assoc; reflexivity).
      rewrite IH; [| exact Hnd' | exact Hslot
                   | cbn in Hfuel; apply Nat.succ_lt_mono; exact Hfuel].
      rewrite <- !app_assoc. reflexivity. }
    destruct (Hb h) as [E|E];
      [assert (Hs : Registry.stays behaviour h = true)
         by (unfold Registry.stays; rewrite E; reflexivity)
      |assert (Hs : Registry.stays behaviour h = false)
         by (unfold Registry.stays; rewrite E; reflexivity)];
      rewrite Hs, E; cbn [Registry.apply_ops fold_left].
    + apply (Hstep (Some h)).
      intros h' Hin Hin'. apply in_app_or in Hin'. destruct Hin' as [Hin'|[Hin'|[]]].
      * exact (Hpre h' (or_intror Hin) Hin').
      * injection Hin' as ->. contradiction.
    + cbn [Registry.apply_op]. rewrite map_app. cbn [map Registry.slot_is].
      rewrite Nat.eqb_refl.
      rewrite (delete_slots_absent h pre) by (apply Hpre; left; reflexivity).
      rewrite (delete_slots_absent h (map Some rest))
        by (intros Hin; apply In_map_Some in Hin; contradiction).
      apply (Hstep None).
      intros h' Hin Hin'. apply in_app_or in Hin'. destruct Hin' as [Hin'|[Hin'|[]]].
      * exact (Hpre h' (or_intror Hin) Hin').
      * discriminate.
Qed.

Lemma members_stays (behaviour : nat -> list Registry.Op) (s : list nat) :
  Registry.members
    (map (fun h => if Registry.stays behaviour h then Some h else None) s)
  = filter (Registry.stays behaviour) s.
Proof.
  induction s as [|h s IH]; cbn; [reflexivity|].
  destruct (Registry.stays behaviour h); cbn; rewrite IH; reflexivity.
Qed.

(** C8, as the code has it. A registry is a set of handler functions:
    registering a handler that is already registered changes nothing, and
    one call of the function returned removes it. A notify pass visits the
    live set; when every callback at most unsubscribes its own handler, the
    pass ends, calls every handler registered at its start once, in
    registration order, and leaves registered those that did not
    unsubscribe. *)
Theorem registry_is_a_live_set (behaviour : nat -> list Registry.Op)
    (s : JsSet.t) (h : nat) :
  NoDup s ->
  Registry.self_unsubscribing behaviour ->
  JsSet.add h (JsSet.add h s) = JsSet.add h s
  /\ JsSet.has h (JsSet.delete h (JsSet.add h (JsSet.add h s))) = false
  /\ Registry.notify_all (S (List.length s)) behaviour s
     = Some (filter (Registry.stays behaviour) s, s).
Proof.
  intros Hnd Hb. split; [apply JsSet_add_twice|].
  split; [apply JsSet_delete_has|].
  unfold Registry.notify_all.
  pose proof (@forEach_self_unsubscribing behaviour Hb s [] [] (S (List.length s))
                Hnd (fun _ _ (F : In _ []) => F) (Nat.lt_succ_diag_r _)) as H.
  cbn [app List.length] in H. rewrite H, members_stays. reflexivity.
Qed.

(** ** Reconnect back-off *)

Lemma step_close_attached (w : nat) (code : Z) (x : WebSocket) (s : State) :
  socket w s = Some x -> readyState x <> CLOSED -> onclose x = true ->
  step url_accepted (SocketClose w code) s
  = onclose_handler (update_socket w (set_readyState CLOSED) s).
Proof.
  intros Hx Hr Hc. cbn [step]. rewrite Hx, Hc.
  destruct (readyState x); congruence.
Qed.

Lemma onclose_handler_retry (s : State) :
  (reconnectAttempts s < maxReconnectAttempts)%nat ->
  let s' := onclose_handler s in
  wsRef s' = None
  /\ reconnectTimeout s' = Some (next_timer s)
  /\ timers s' = disarm (pending_handles s) (timers s)
                 ++ [mkTimer (next_timer s) (backoff_delay (reconnectAttempts s)) TReconnect]
  /\ next_timer s' = S (next_timer s)
  /\ sockets s' = sockets s
  /\ serverConfig s' = serverConfig s
  /\ reconnectAttempts s' = reconnectAttempts s
  /\ isConnected s' = false.
Proof.
  intros Hlt. apply Nat.ltb_lt in Hlt.
  unfold onclose_handler. rewrite reject_all_eq.
  cbn [reconnectAttempts set_pendingRequests set_log set_timers
       notifyConnectionHandlers emit set_wsRef setIsConnecting setIsConnected].
  rewrite Hlt. cbn. repeat split; reflexivity.
Qed.

Lemma onclose_handler_give_up (s : State) :
  (maxReconnectAttempts <= reconnectAttempts s)%nat ->
  let s' := onclose_handler s in
  wsRef s' = None
  /\ reconnectTimeout s' = reconnectTimeout s
  /\ timers s' = disarm (pending_handles s) (timers s)
  /\ sockets s' = sockets s
  /\ isConnected s' = false
  /\ isConnecting s' = false.
Proof.
  intros Hle. apply Nat.ltb_ge in Hle.
  unfold onclose_handler. rewrite reject_all_eq.
  cbn [reconnectAttempts set_pendingRequests set_log set_timers
       notifyConnectionHandlers emit set_wsRef setIsConnecting setIsConnected].
  rewrite Hle. cbn. repeat split; reflexivity.
Qed.

Lemma connect_from_scratch (ip port : string) (s : State) :
  wsRef s = None ->
  url_accepted (server_uri (ip, port)) = true ->
  let s' := connect url_accepted ip port s in
  wsRef s' = Some (List.length (sockets s))
  /\ sockets s'
     = sockets s ++ [mkWebSocket (server_uri (ip, port)) CONNECTING true true true true]
  /\ timers s'
     = match reconnectTimeout s with
       | Some h => filter (fun t => negb (Nat.eqb (handle t) h)) (timers s)
       | None => timers s
       end
  /\ next_timer s' = next_timer s
  /\ reconnectTimeout s' = None
  /\ serverConfig s' = (ip, port)
  /\ reconnectAttempts s' = reconnectAttempts s
  /\ exists es, log s' = log s ++ es /\ timers_set es = [].
Proof.
  intros Hws Hurl s'. subst s'.
  unfold connect, connect_with, ws_is_open. rewrite Hws.
  change ("ws://" ++ ip ++ ":" ++ port)%string with (server_uri (ip, port)).
  rewrite Hurl.
  destruct (reconnectTimeout s) as [h|] eqn:Er;
    cbn -[new_effects]; rewrite Hws; cbn -[new_effects];
    (repeat split; try reflexivity; try exact Er);
    (eexists; split; [rewrite <- ?app_assoc; reflexivity | reflexivity]).
Qed.

Lemma find_fresh_timer (ts : list Timer) (t : Timer) :
  (forall t', In t' ts -> (handle t' < handle t)%nat) ->
  find (fun t' => Nat.eqb (handle t') (handle t)) (ts ++ [t]) = Some t
  /\ filter (fun t' => negb (Nat.eqb (handle t') (handle t))) (ts ++ [t]) = ts.
Proof.
  induction ts as [|a ts IH]; intros H; cbn.
  - rewrite Nat.eqb_refl. split; reflexivity.
  - assert (Ha : Nat.eqb (handle a) (handle t) = false).
    { apply Nat.eqb_neq. specialize (H a (or_introl eq_refl)). lia. }
    rewrite Ha. cbn. destruct IH as [IH1 IH2]; [intros; apply H; right; assumption|].
    rewrite IH1, IH2. split; reflexivity.
Qed.

Lemma filter_fresh_handle (ts : list Timer) (h : nat) :
  (forall t, In t ts -> (handle t < h)%nat) ->
  filter (fun t => negb (Nat.eqb (handle t) h)) ts = ts.
Proof.
  induction ts as [|a ts IH]; intros H; cbn; [reflexivity|].
  assert (Ha : Nat.eqb (handle a) h = false).
  { apply Nat.eqb_neq. specialize (H a (or_introl eq_refl)). lia. }
  rewrite Ha. cbn. rewrite IH; [reflexivity|].
  intros; apply H; right; assumption.
Qed.

Lemma length_update_nth {A : Type} (f : A -> A) (l : list A) (n : nat) :
  List.length (update_nth n f l) = List.length l.
Proof.
  revert n. induction l as [|a l IH]; intros [|n]; cbn; try reflexivity.
  rewrite IH. reflexivity.
Qed.

Lemma socket_after_close (w w0 : nat) (x0 : WebSocket) (s : State) :
  nth_error (update_nth w (set_readyState CLOSED) (sockets s)) w0 = Some x0 ->
  (w0 = w /\ readyState x0 = CLOSED)
  \/ (w0 <> w /\ socket w0 s = Some x0).
Proof.
  intros H. destruct (Nat.eq_dec w0 w) as [->|Hne].
  - left. split; [reflexivity|].
    rewrite nth_error_update_nth in H.
    destruct (nth_error (sockets s) w); cbn in H; [|discriminate].
    injection H as <-. reflexivity.
  - right. split; [exact Hne|].
    rewrite nth_error_update_nth_ne in H by congruence. exact H.
Qed.

(** One failure and its retry: the timer set carries the delay of the
    current attempt, and the retry leaves a fresh connecting socket. *)
Lemma fail_and_retry_live (s : State) (code : Z) :
  Live url_accepted s ->
  (reconnectAttempts s < maxReconnectAttempts)%nat ->
  let s' := fail_and_retry url_accepted s code in
  Live url_accepted s'
  /\ reconnectAttempts s' = S (reconnectAttempts s)
  /\ exists es, log s' = log s ++ es
                /\ map delay (timers_set es) = [backoff_delay (reconnectAttempts s)].
Proof.
  intros [(w & x & Hw & Hx & Hr & Hc) Hurl Hto Hfresh Hnore Hothers] Hlt.
  unfold fail_and_retry, close_current. rewrite Hw.
  rewrite (@step_close_attached w code x s Hx Hr Hc).
  set (sa := update_socket w (set_readyState CLOSED) s).
  pose proof (onclose_handler_log sa) as Hlog1.
  destruct (@onclose_handler_retry sa Hlt)
    as (Hws1 & Hrt1 & Htim1 & Hnt1 & Hsock1 & Hcfg1 & Hatt1 & _).
  set (s1 := onclose_handler sa) in *.
  change (next_timer sa) with (next_timer s) in *.
  change (timers sa) with (timers s) in *.
  change (reconnectAttempts sa) with (reconnectAttempts s) in *.
  change (serverConfig sa) with (serverConfig s) in *.
  change (pending_handles sa) with (pending_handles s) in *.
  set (T := mkTimer (next_timer s) (backoff_delay (reconnectAttempts s)) TReconnect) in *.
  set (ts := disarm (pending_handles s) (timers s)) in *.
  assert (Hts : forall t, In t ts -> (handle t < next_timer s)%nat).
  { intros t Ht. apply In_disarm in Ht. apply Hfresh. exact (proj1 Ht). }
  destruct (@find_fresh_timer ts T Hts) as [Hfind Hfilter].
  cbn [handle T] in Hfind, Hfilter.
  unfold fire_reconnect. rewrite Hrt1. cbn [step]. unfold find_timer.
  rewrite Htim1, Hfind. cbn [action T run_timer]. rewrite Hfilter.
  unfold reconnect_timer.
  set (s2 := set_reconnectAttempts _ (set_timers ts s1)).
  assert (Hurl2 : url_accepted
            (server_uri (fst (serverConfig s2), snd (serverConfig s2))) = true).
  { change (serverConfig s2) with (serverConfig s1). rewrite Hcfg1. exact Hurl. }
  destruct (@connect_from_scratch (fst (serverConfig s2)) (snd (serverConfig s2)) s2
              Hws1 Hurl2)
    as (Hws' & Hsock' & Htim' & Hnt' & Hrt' & Hcfg' & Hatt' & es & Hlog' & Hes).
  set (s' := connect url_accepted _ _ s2) in *.
  change (reconnectTimeout s2) with (reconnectTimeout s1) in Htim'.
  change (timers s2) with ts in Htim'.
  change (sockets s2) with (sockets s1) in Hws', Hsock'.
  change (next_timer s2) with (next_timer s1) in Hnt'.
  change (log s2) with (log s1) in Hlog'.
  rewrite Hrt1, (@filter_fresh_handle ts _ Hts) in Htim'.
  rewrite Hsock1 in Hws', Hsock'.
  change (sockets sa) with (update_nth w (set_readyState CLOSED) (sockets s))
    in Hws', Hsock'.
  split; [constructor|split].
  - exists (List.length (update_nth w (set_readyState CLOSED) (sockets s))).
    eexists. split; [exact Hws'|]. split.
    + unfold socket. rewrite Hsock'. apply nth_error_middle.
    + split; [discriminate | reflexivity].
  - rewrite Hcfg'. exact Hurl2.
  - exact Hrt'.
  - intros t Ht. rewrite Htim' in Ht. rewrite Hnt', Hnt1.
    apply Nat.lt_lt_succ_r. apply Hts. exact Ht.
  - intros t Ht. rewrite Htim' in Ht. apply In_disarm in Ht.
    apply Hnore. exact (proj1 Ht).
  - intros w0 x0 Hx0 Hne. unfold socket in Hx0. rewrite Hsock' in Hx0.
    rewrite Hws' in Hne.
    assert (Hlen : (w0 < List.length (update_nth w (set_readyState CLOSED) (sockets s)))%nat).
    { assert (Hsome : nth_error
                (update_nth w (set_readyState CLOSED) (sockets s) ++
                 [mkWebSocket (server_uri (fst (serverConfig s2), snd (serverConfig s2)))
                    CONNECTING true true true true]) w0 <> None) by congruence.
      apply nth_error_Some in Hsome. rewrite length_app in Hsome. cbn in Hsome.
      assert (w0 <> List.length (update_nth w (set_readyState CLOSED) (sockets s)))
        by congruence.
      lia. }
    rewrite nth_error_app1 in Hx0 by exact Hlen.
    destruct (@socket_after_close w w0 x0 s Hx0) as [[-> Hcl]|[Hne0 Hs0]].
    + rewrite Hcl. split; [discriminate | right; reflexivity].
    + apply (Hothers w0 x0 Hs0). rewrite Hw. congruence.
  - rewrite Hatt'. cbn [s2 reconnectAttempts set_reconnectAttempts set_timers].
    rewrite Hatt1. reflexivity.
  - eexists. split.
    + rewrite Hlog', Hlog1. change (log sa) with (log s).
      rewrite <- !app_assoc. reflexivity.
    + rewrite !timers_set_app, timers_set_notify_connection, timers_set_rejections, Hes.
      unfold backoff_timer_set.
      change (reconnectAttempts sa) with (reconnectAttempts s).
      apply Nat.ltb_lt in Hlt. rewrite Hlt. reflexivity.
Qed.

Lemma failures_live (codes : list Z) (s : State) :
  Live url_accepted s ->
  (reconnectAttempts s + List.length codes <= maxReconnectAttempts)%nat ->
  let s' := failures url_accepted codes s in
  Live url_accepted s'
  /\ reconnectAttempts s' = (reconnectAttempts s + List.length codes)%nat
  /\ exists es, log s' = log s ++ es
                /\ map delay (timers_set es)
                   = map backoff_delay (seq (reconnectAttempts s) (List.length codes)).
Proof.
  revert s. induction codes as [|c codes IH]; intros s Hlive Hle; cbn [failures fold_left].
  - split; [exact Hlive|]. split; [cbn; lia|].
    exists []. split; [rewrite app_nil_r|]; reflexivity.
  - cbn [List.length] in Hle.
    destruct (@fail_and_retry_live s c Hlive) as (Hlive1 & Hatt1 & es1 & Hlog1 & Hes1);
      [lia|].
    destruct (IH (fail_and_retry url_accepted s c) Hlive1) as (Hlive2 & Hatt2 & es2 & Hlog2 & Hes2);
      [rewrite Hatt1; lia|].
    fold (failures url_accepted codes (fail_and_retry url_accepted s c)).
    split; [exact Hlive2|]. split; [rewrite Hatt2, Hatt1; cbn; lia|].
    exists (es1 ++ es2). split.
    + rewrite Hlog2, Hlog1, app_assoc. reflexivity.
    + rewrite timers_set_app, map_app, Hes1, Hes2, Hatt1. reflexivity.
Qed.

(** The failure after the last retry: nothing is scheduled any more. *)
Lemma give_up_quiet (s : State) (code : Z) :
  Live url_accepted s ->
  (maxReconnectAttempts <= reconnectAttempts s)%nat ->
  let g := close_current url_accepted code s in
  Quiet g
  /\ isConnecting g = false
  /\ reconnectTimeout g = None
  /\ exists es, log g = log s ++ es /\ timers_set es = [].
Proof.
  intros [(w & x & Hw & Hx & Hr & Hc) Hurl Hto Hfresh Hnore Hothers] Hle.
  unfold close_current. rewrite Hw.
  rewrite (@step_close_attached w code x s Hx Hr Hc).
  set (sa := update_socket w (set_readyState CLOSED) s).
  pose proof (onclose_handler_log sa) as Hlog.
  destruct (@onclose_handler_give_up sa Hle) as (Hws & Hrt & Htim & Hsock & Hic & Hig).
  set (g := onclose_handler sa) in *.
  split; [constructor|split; [exact Hig|split]].
  - exact Hic.
  - exact Hws.
  - intros t Ht. rewrite Htim in Ht. apply In_disarm in Ht.
    apply Hnore. exact (proj1 Ht).
  - intros w0 x0 Hx0. unfold socket in Hx0. rewrite Hsock in Hx0.
    destruct (@socket_after_close w w0 x0 s Hx0) as [[-> Hcl]|[Hne0 Hs0]].
    + rewrite Hcl. split; [discriminate | right; reflexivity].
    + apply (Hothers w0 x0 Hs0). rewrite Hw. congruence.
  - rewrite Hrt. exact Hto.
  - eexists. split; [exact Hlog|].
    rewrite !timers_set_app, timers_set_notify_connection, timers_set_rejections.
    unfold backoff_timer_set. apply Nat.ltb_ge in Hle.
    change (reconnectAttempts sa) with (reconnectAttempts s). rewrite Hle. reflexivity.
Qed.

Lemma sockets_after_update (P : WebSocket -> Prop) (f : WebSocket -> WebSocket)
    (l : list WebSocket) (w : nat) :
  (forall w0 x0, nth_error l w0 = Some x0 -> P x0) ->
  (forall x, nth_error l w = Some x -> P (f x)) ->
  forall w0 x0, nth_error (update_nth w f l) w0 = Some x0 -> P x0.
Proof.
  intros Hall Hw w0 x0 H. destruct (Nat.eq_dec w0 w) as [->|Hne].
  - rewrite nth_error_update_nth in H.
    destruct (nth_error l w) as [x|] eqn:E; cbn in H; [|discriminate].
    injection H as <-. apply Hw. reflexivity.
  - rewrite nth_error_update_nth_ne in H by congruence. exact (Hall w0 x0 H).
Qed.

Lemma onmessage_handler_frame (parsed : option json) (s : State) :
  let s' := onmessage_handler parsed s in
  isConnected s' = isConnected s
  /\ wsRef s' = wsRef s
  /\ sockets s' = sockets s
  /\ forall t, In t (timers s') -> In t (timers s).
Proof.
  unfold onmessage_handler.
  destruct parsed as [data|]; [|cbn; auto].
  destruct (get_prop data "request_id") as [rid|]; [|cbn; auto].
  destruct (if truthy rid then as_key rid else None) as [k|]; [|cbn; auto].
  destruct (JsMap.get k (pendingRequests s)) as [pending|]; [|cbn; auto].
  cbn. repeat split. intros t Ht. apply In_clear in Ht. exact (proj1 Ht).
Qed.

Lemma request_timeout_frame (requestId : string) (p : nat) (s : State) :
  let s' := request_timeout requestId p s in
  isConnected s' = isConnected s
  /\ wsRef s' = wsRef s
  /\ sockets s' = sockets s
  /\ timers s' = timers s.
Proof.
  unfold request_timeout.
  destruct (JsMap.has requestId (pendingRequests s)); cbn; auto.
Qed.

(** Nothing but a call of [connect] ends the quiet. *)
Lemma Quiet_step (e : Event) (s : State) :
  Quiet s -> is_connect e = false ->
  Quiet (step url_accepted e s).
Proof.
  intros Hq He. pose proof Hq as [Hic Hws Hnore Hsock].
  destruct e as [ip port| |act params draws send_error|h|h|h|h|w|w parsed|w|w|w code|h];
    try discriminate; cbn [step].
  - (* disconnect *)
    destruct (disconnect_fields s) as (_ & Hws' & _ & _ & Hic' & _).
    constructor; [exact Hic' | exact Hws' | |].
    + intros t Ht. rewrite disconnect_timers in Ht. apply In_disarm in Ht.
      destruct Ht as [Ht _]. apply Hnore.
      destruct (reconnectTimeout s); [apply In_clear in Ht; exact (proj1 Ht) | exact Ht].
    + unfold socket. rewrite disconnect_sockets, Hws. exact Hsock.
  - (* sendRequest *)
    assert (Hopen : ws_is_open s = false) by (unfold ws_is_open; rewrite Hws; reflexivity).
    rewrite (@sendRequest_closed act params draws send_error s Hopen). cbn [snd]. constructor; assumption.
  - constructor; assumption.
  - constructor; assumption.
  - constructor; assumption.
  - constructor; assumption.
  - (* open *)
    destruct (socket w s) as [x|] eqn:Ex; [|exact Hq].
    destruct (readyState x) eqn:Er; try exact Hq.
    destruct (Hsock w x Ex) as [Hn _]. congruence.
  - (* message *)
    destruct (onmessage_handler_frame parsed s) as (Hic' & Hws' & Hsock' & Htim').
    destruct (socket w s) as [x|] eqn:Ex; [|exact Hq].
    destruct (readyState x); try exact Hq; (destruct (onmessage x); [|exact Hq]);
      (constructor;
       [rewrite Hic'; exact Hic | rewrite Hws'; exact Hws
       | intros t Ht; apply Hnore, Htim', Ht
       | unfold socket; rewrite Hsock'; exact Hsock]).
  - exact Hq.
  - (* closing handshake *)
    destruct (socket w s) as [x|] eqn:Ex; [|exact Hq].
    destruct (readyState x) eqn:Er; try exact Hq.
    constructor; try assumption.
    unfold socket. cbn [update_socket set_sockets sockets].
    apply sockets_after_update; [exact Hsock|].
    intros x' Hx'. unfold socket in Ex. rewrite Ex in Hx'. injection Hx' as <-.
    cbn. split; [discriminate|].
    destruct (Hsock w x Ex) as [_ [Hc|Hc]]; [left; exact Hc | congruence].
  - (* close *)
    destruct (socket w s) as [x|] eqn:Ex; [|exact Hq].
    assert (Hupd : Quiet (update_socket w (set_readyState CLOSED) s)).
    { constructor; try assumption.
      unfold socket. cbn [update_socket set_sockets sockets].
      apply sockets_after_update; [exact Hsock|].
      intros x' Hx'. cbn. split; [discriminate | right; reflexivity]. }
    destruct (Hsock w x Ex) as [_ [Hc|Hc]].
    + rewrite Hc. destruct (readyState x); try exact Hq; exact Hupd.
    + rewrite Hc. exact Hq.
  - (* timer *)
    unfold find_timer. destruct (find _ (timers s)) as [t|] eqn:Ef; [|exact Hq].
    apply find_some in Ef. destruct Ef as [Hin _].
    specialize (Hnore t Hin) as Hact.
    destruct (action t) as [|requestId p]; [congruence|].
    cbn [run_timer].
    set (s1 := set_timers _ s).
    destruct (request_timeout_frame requestId p s1) as (Hic' & Hws' & Hsock' & Htim').
    constructor.
    + rewrite Hic'. exact Hic.
    + rewrite Hws'. exact Hws.
    + intros t' Ht'. rewrite Htim' in Ht'. cbn in Ht'.
      apply In_clear in Ht'. apply Hnore. exact (proj1 Ht').
    + unfold socket. rewrite Hsock'. exact Hsock.
Qed.

Lemma Quiet_run (es : list Event) (s : State) :
  Quiet s -> forallb (fun e => negb (is_connect e)) es = true ->
  Quiet (run url_accepted es s).
Proof.
  revert s. induction es as [|e es IH]; intros s Hq Hes; [exact Hq|].
  cbn in Hes. apply andb_prop in Hes. destruct Hes as [He Hes].
  apply negb_true_iff in He. apply (IH _ (@Quiet_step e s Hq He) Hes).
Qed.

(** C2. Start from a state in which a connection attempt is under way (or
    established) on the current socket and the attempt counter is 0, and let
    the transport fail six times in a row, each of the first five failures
    being followed by the firing of the reconnect timer. The delays of the
    timers set are 1000, 2000, 4000, 8000 and 10000 ms, the n-th being
    [min (1000 * 2^n) 10000]; the failure of the fifth retry sets no timer,
    and from then on the manager is disconnected (no socket, no reconnect
    timer armed, no socket that could still open) and stays so under every
    sequence of events that contains no call of [connect]. *)
Theorem reconnect_backoff (s0 : State) (c0 c1 c2 c3 c4 c5 : Z) :
  Live url_accepted s0 ->
  reconnectAttempts s0 = 0%nat ->
  let s5 := failures url_accepted [c0; c1; c2; c3; c4] s0 in
  let g := close_current url_accepted c5 s5 in
  let delays := map delay (timers_set (new_effects s0 g)) in
  delays = [1000; 2000; 4000; 8000; 10000]
  /\ (forall n, (n < 5)%nat ->
        nth_error delays n = Some (Z.min (1000 * 2 ^ Z.of_nat n) 10000))
  /\ timers_set (new_effects s5 g) = []
  /\ reconnectTimeout g = None
  /\ isConnecting g = false
  /\ Quiet g
  /\ forall es, forallb (fun e => negb (is_connect e)) es = true ->
                Quiet (run url_accepted es g).
Proof.
  intros Hlive Hz s5 g delays.
  destruct (@failures_live [c0; c1; c2; c3; c4] s0 Hlive)
    as (Hlive5 & Hatt5 & es5 & Hlog5 & Hes5);
    [rewrite Hz; cbn; unfold maxReconnectAttempts; lia|].
  fold s5 in Hlive5, Hatt5, Hlog5.
  rewrite Hz in Hatt5, Hes5.
  destruct (@give_up_quiet s5 c5 Hlive5)
    as (Hq & Hig & Hrt & es6 & Hlog6 & Hes6);
    [rewrite Hatt5; apply Nat.le_refl|].
  fold g in Hq, Hig, Hrt, Hlog6.
  assert (Hd : delays = [1000; 2000; 4000; 8000; 10000]).
  { subst delays.
    rewrite (@new_effects_app s0 g (es5 ++ es6))
      by (rewrite Hlog6, Hlog5, app_assoc; reflexivity).
    rewrite timers_set_app, Hes6, app_nil_r, Hes5. reflexivity. }
  split; [exact Hd|]. split; [|split; [|split; [|split; [|split]]]].
  - intros n Hn. rewrite Hd.
    do 5 (destruct n as [|n]; [reflexivity|]). lia.
  - rewrite (@new_effects_app s5 g es6 Hlog6). exact Hes6.
  - exact Hrt.
  - exact Hig.
  - exact Hq.
  - intros es Hes. apply Quiet_run; assumption.
Qed.

Lemma notify_all_inert (behaviour : nat -> list Registry.Op) (s : JsSet.t) :
  Registry.inert behaviour -> NoDup s ->
  Registry.notify_all (S (List.length s)) behaviour s = Some (s, s).
Proof.
  intros Hb Hnd. unfold Registry.notify_all.
  assert (Hself : Registry.self_unsubscribing behaviour) by (intros h; left; apply Hb).
  pose proof (@forEach_self_unsubscribing behaviour Hself s [] [] (S (List.length s))
                Hnd (fun _ _ (F : In _ []) => F) (Nat.lt_succ_diag_r _)) as H.
  cbn [app List.length] in H. rewrite H, members_stays.
  assert (Hf : filter (Registry.stays behaviour) s = s).
  { clear - Hb. induction s as [|h s IH]; cbn; [reflexivity|].
    unfold Registry.stays at 1. rewrite (Hb h). f_equal. exact IH. }
  rewrite Hf. reflexivity.
Qed.

(** ** Exactly-once settlement *)

(** *** The pending table as a list *)

Lemma JsMap_In_delete {V : Type} (k id : string) (v : V) (m : JsMap.t V) :
  In (id, v) (JsMap.delete k m) -> In (id, v) m.
Proof.
  induction m as [|[k' v'] m IH]; cbn; [prop|].
  destruct (String.eqb k k'); cbn; [prop|]. intros [H|H]; [left; exact H | right; exact (IH H)].
Qed.

Lemma JsMap_delete_key {V : Type} (k id : string) (v : V) (m : JsMap.t V) :
  NoDup (JsMap.keys m) -> In (id, v) (JsMap.delete k m) -> id <> k.
Proof.
  induction m as [|[k' v'] m IH]; cbn; [prop|].
  intros Hnd. inversion Hnd as [|? ? Hnot Hnd']; subst.
  destruct (String.eqb k k') eqn:E.
  - apply String.eqb_eq in E. subst k'. intros Hin ->.
    apply Hnot. apply (in_map fst) in Hin. exact Hin.
  - cbn. intros [H|H]; [|exact (IH Hnd' H)].
    injection H as -> ->. apply String.eqb_neq in E. congruence.
Qed.

Lemma JsMap_delete_other {V : Type} (k id : string) (v : V) (m : JsMap.t V) :
  In (id, v) m -> id <> k -> In (id, v) (JsMap.delete k m).
Proof.
  induction m as [|[k' v'] m IH]; cbn; [prop|].
  intros [H|H] Hne.
  - injection H as -> ->. destruct (String.eqb k id) eqn:E.
    + apply String.eqb_eq in E. congruence.
    + left. reflexivity.
  - destruct (String.eqb k k'); [exact H | right; exact (IH H Hne)].
Qed.

Lemma JsMap_delete_NoDup {V A : Type} (f : string * V -> A) (k : string) (m : JsMap.t V) :
  NoDup (map f m) -> NoDup (map f (JsMap.delete k m)).
Proof.
  induction m as [|[k' v'] m IH]; cbn; [prop|].
  intros Hnd. inversion Hnd as [|? ? Hnot Hnd']; subst.
  destruct (String.eqb k k'); [exact Hnd'|].
  cbn. constructor; [|exact (IH Hnd')].
  intros Hin. apply Hnot. apply in_map_iff in Hin.
  destruct Hin as [[id v] [E Hin]]. apply in_map_iff.
  exists (id, v). split; [exact E | exact (JsMap_In_delete _ _ _ _ Hin)].
Qed.

Lemma JsMap_get_In {V : Type} (k : string) (v : V) (m : JsMap.t V) :
  JsMap.get k m = Some v -> In (k, v) m.
Proof.
  induction m as [|[k' v'] m IH]; cbn; [discriminate|].
  destruct (String.eqb k k') eqn:E.
  - apply String.eqb_eq in E. subst. intros H. injection H as ->. left. reflexivity.
  - intros H. right. exact (IH H).
Qed.

Lemma JsMap_In_has {V : Type} (k : string) (v : V) (m : JsMap.t V) :
  In (k, v) m -> JsMap.has k m = true.
Proof.
  unfold JsMap.has. induction m as [|[k' v'] m IH]; cbn; [prop|].
  intros [H|H].
  - injection H as -> ->. rewrite String.eqb_refl. reflexivity.
  - destruct (String.eqb k k'); [reflexivity | exact (IH H)].
Qed.

Lemma JsMap_set_fresh {V : Type} (k : string) (v : V) (m : JsMap.t V) :
  JsMap.has k m = false -> JsMap.set k v m = m ++ [(k, v)].
Proof.
  unfold JsMap.has. induction m as [|[k' v'] m IH]; cbn; [reflexivity|].
  destruct (String.eqb k k'); [discriminate|].
  intros H. rewrite (IH H). reflexivity.
Qed.

Lemma NoDup_map_inj {A B : Type} (f : A -> B) (l : list A) (x y : A) :
  NoDup (map f l) -> In x l -> In y l -> f x = f y -> x = y.
Proof.
  induction l as [|a l IH]; cbn; [prop|].
  intros Hnd. inversion Hnd as [|? ? Hnot Hnd']; subst.
  intros [Hx|Hx] [Hy|Hy] E.
  - congruence.
  - subst a. exfalso. apply Hnot. rewrite E. apply in_map. exact Hy.
  - subst a. exfalso. apply Hnot. rewrite <- E. apply in_map. exact Hx.
  - exact (IH Hnd' Hx Hy E).
Qed.

Lemma NoDup_map_filter {A B : Type} (f : A -> B) (P : A -> bool) (l : list A) :
  NoDup (map f l) -> NoDup (map f (filter P l)).
Proof.
  induction l as [|a l IH]; cbn; [prop|].
  intros Hnd. inversion Hnd as [|? ? Hnot Hnd']; subst.
  destruct (P a); [|exact (IH Hnd')].
  cbn. constructor; [|exact (IH Hnd')].
  intros Hin. apply Hnot. apply in_map_iff in Hin.
  destruct Hin as [x [E Hx]]. apply filter_In in Hx.
  apply in_map_iff. exists x. prop.
Qed.

Lemma NoDup_map_snoc {A B : Type} (f : A -> B) (l : list A) (x : A) :
  NoDup (map f l) -> ~ In (f x) (map f l) -> NoDup (map f (l ++ [x])).
Proof.
  intros Hnd Hnot. rewrite map_app. cbn.
  apply NoDup_app; [exact Hnd | repeat constructor; prop |].
  intros b Hb [<-|[]]. exact (Hnot Hb).
Qed.

(** *** Changes that keep the invariant for free *)

Lemma neutral_nil : neutral [].
Proof. split; reflexivity. Qed.

Lemma neutral_app (es1 es2 : list Effect) :
  neutral es1 -> neutral es2 -> neutral (es1 ++ es2).
Proof.
  intros [H1 H1'] [H2 H2']. split.
  - intros p. rewrite settlements_app, H1, H2. reflexivity.
  - rewrite timers_set_app, H1', H2'. reflexivity.
Qed.

Lemma Neutral_refl (s : State) : NoDup (map handle (timers s)) -> Neutral s s.
Proof.
  intros Hnd. constructor; auto.
  exists []. split; [rewrite app_nil_r; reflexivity | apply neutral_nil].
Qed.

Lemma Neutral_trans (s1 s2 s3 : State) :
  Neutral s1 s2 -> Neutral s2 s3 -> Neutral s1 s3.
Proof.
  intros [Hp Ht Hq Hsub Hnd Hkeep [es [Hl Hn]] Hr]
         [Hp' Ht' Hq' Hsub' Hnd' Hkeep' [es' [Hl' Hn']] Hr'].
  constructor; try congruence; auto.
  - exists (es ++ es'). split; [rewrite Hl', Hl, app_assoc; reflexivity|].
    apply neutral_app; assumption.
  - destruct Hr' as [Hr'|Hr']; [left; exact Hr'|]. rewrite Hr'. exact Hr.
Qed.

Lemma Inv_neutral (s s' : State) : Neutral s s' -> Inv s -> Inv s'.
Proof.
  intros [Hp Ht Hq Hsub Hnd Hkeep [es [Hl [Hset Htim]]] Hr]
         [Ikeys Iprom Ihand Ifresh Ientry Itimer Irec Ireg Iunborn].
  assert (Hs : forall p, settlements p (log s') = settlements p (log s)).
  { intros p. rewrite Hl, settlements_app, Hset, app_nil_r. reflexivity. }
  assert (Hts : timers_set (log s') = timers_set (log s)).
  { rewrite Hl, timers_set_app, Htim, app_nil_r. reflexivity. }
  constructor.
  - rewrite Hp. exact Ikeys.
  - rewrite Hp. exact Iprom.
  - exact Hnd.
  - intros t H. rewrite Ht. auto.
  - intros id pd H. rewrite Hp in H. destruct (Ientry id pd H) as (H1 & H2 & H3).
    rewrite Hs, Hq. repeat split; try assumption.
    apply Hkeep; [exact H1 | discriminate].
  - intros t id p H Ha. rewrite Hp. eapply Itimer; eauto.
  - intros h Hh. destruct Hr as [Hr|Hr]; [congruence|]. rewrite Hr in Hh.
    destruct (Irec h Hh) as [H1 H2]. rewrite Ht. split; [exact H1|]. auto.
  - intros t id p H Ha. rewrite Hts in H. destruct (Ireg t id p H Ha) as [H1 H2].
    rewrite Hq, Hs. split; [exact H1|].
    destruct H2 as [[H2 H3]|H2]; [left | right; exact H2].
    split; [exact H2|]. apply Hkeep; [exact H3 | congruence].
  - intros p H. rewrite Hs. apply Iunborn. rewrite <- Hq. exact H.
Qed.

Lemma Neutral_cleared (s s' : State) (h : nat) (es : list Effect) :
  NoDup (map handle (timers s)) ->
  (forall t, In t (timers s) -> handle t = h -> action t = TReconnect) ->
  pendingRequests s' = pendingRequests s ->
  next_timer s' = next_timer s ->
  next_promise s' = next_promise s ->
  timers s' = filter (fun t => negb (Nat.eqb (handle t) h)) (timers s) ->
  log s' = log s ++ es -> neutral es ->
  reconnectTimeout s' = None \/ reconnectTimeout s' = reconnectTimeout s ->
  Neutral s s'.
Proof.
  intros Hnd Hh Hp Ht Hq Htim Hl Hn Hr. constructor; try assumption.
  - intros t H. rewrite Htim in H. apply In_clear in H. exact (proj1 H).
  - rewrite Htim. apply NoDup_map_filter. exact Hnd.
  - intros t H Ha. rewrite Htim. apply In_clear. split; [exact H|].
    intros E. apply Ha. exact (Hh t H E).
  - exists es. split; assumption.
Qed.

Lemma Neutral_kept (s s' : State) (es : list Effect) :
  NoDup (map handle (timers s)) ->
  pendingRequests s' = pendingRequests s ->
  next_timer s' = next_timer s ->
  next_promise s' = next_promise s ->
  timers s' = timers s ->
  log s' = log s ++ es -> neutral es ->
  reconnectTimeout s' = None \/ reconnectTimeout s' = reconnectTimeout s ->
  Neutral s s'.
Proof.
  intros Hnd Hp Ht Hq Htim Hl Hn Hr. constructor; try assumption.
  - intros t H. rewrite Htim in H. exact H.
  - rewrite Htim. exact Hnd.
  - intros t H _. rewrite Htim. exact H.
  - exists es. split; assumption.
Qed.

Lemma neutral_one (e : Effect) :
  match e with
  | EResolve _ _ | EReject _ _ | ESetTimeout _ => False
  | _ => True
  end -> neutral [e].
Proof. destruct e; intros H; try contradiction; split; reflexivity. Qed.

Lemma neutral_notify_connection (b : bool) (hs : list nat) :
  neutral (map (fun h => ENotifyConnection h b) hs).
Proof.
  split; [intros p; apply settlements_notify_connection
         | apply timers_set_notify_connection].
Qed.

Lemma neutral_notify_message (d : json) (hs : list nat) :
  neutral (map (fun h => ENotifyMessage h d) hs).
Proof.
  split; [intros p; apply settlements_notify_message|].
  induction hs; [reflexivity | exact IHhs].
Qed.

Lemma neutral_ext_refl (l : list Effect) :
  exists es, l = l ++ es /\ neutral es.
Proof. exists []. split; [rewrite app_nil_r; reflexivity | apply neutral_nil]. Qed.

Lemma neutral_ext_snoc (l l' es2 : list Effect) :
  (exists es, l' = l ++ es /\ neutral es) -> neutral es2 ->
  exists es, l' ++ es2 = l ++ es /\ neutral es.
Proof.
  intros [es [E Hn]] Hn2. exists (es ++ es2). split.
  - rewrite E, app_assoc. reflexivity.
  - apply neutral_app; assumption.
Qed.

Lemma Neutral_cleared' (s s' : State) (h : nat) :
  NoDup (map handle (timers s)) ->
  (forall t, In t (timers s) -> handle t = h -> action t = TReconnect) ->
  pendingRequests s' = pendingRequests s ->
  next_timer s' = next_timer s ->
  next_promise s' = next_promise s ->
  timers s' = filter (fun t => negb (Nat.eqb (handle t) h)) (timers s) ->
  (exists es, log s' = log s ++ es /\ neutral es) ->
  reconnectTimeout s' = None \/ reconnectTimeout s' = reconnectTimeout s ->
  Neutral s s'.
Proof.
  intros Hnd Hh Hp Ht Hq Htim [es [Hl Hn]] Hr.
  exact (@Neutral_cleared s s' h es Hnd Hh Hp Ht Hq Htim Hl Hn Hr).
Qed.

Lemma Neutral_kept' (s s' : State) :
  NoDup (map handle (timers s)) ->
  pendingRequests s' = pendingRequests s ->
  next_timer s' = next_timer s ->
  next_promise s' = next_promise s ->
  timers s' = timers s ->
  (exists es, log s' = log s ++ es /\ neutral es) ->
  reconnectTimeout s' = None \/ reconnectTimeout s' = reconnectTimeout s ->
  Neutral s s'.
Proof.
  intros Hnd Hp Ht Hq Htim [es [Hl Hn]] Hr.
  exact (@Neutral_kept s s' es Hnd Hp Ht Hq Htim Hl Hn Hr).
Qed.

(** Solve the log condition of [Neutral] on a state written out as updates
    of [s]. *)
Ltac neutral_effects :=
  first [ apply neutral_nil | apply neutral_one; exact I
        | apply neutral_notify_connection | apply neutral_notify_message ].

Ltac neutral_log :=
  cbn;
  repeat first [ apply neutral_ext_refl
               | apply neutral_ext_snoc; [ | neutral_effects ] ].

Lemma connect_neutral (ip port : string) (s : State) :
  Inv s -> Neutral s (connect url_accepted ip port s).
Proof.
  intros HI. pose proof (inv_handles HI) as Hnd.
  unfold connect, connect_with.
  destruct (ws_is_open s); [apply Neutral_refl; exact Hnd|].
  destruct (reconnectTimeout s) as [h|] eqn:Er.
  - destruct (inv_reconnect HI Er) as [_ Hh].
    cbn [wsRef setIsConnecting set_serverConfig set_reconnectTimeout clearTimeout
         emit set_log set_timers].
    destruct (wsRef s) as [w|]; destruct (url_accepted _);
      (apply (@Neutral_cleared' s _ h Hnd Hh);
       [reflexivity | reflexivity | reflexivity | reflexivity
       | neutral_log | left; reflexivity]).
  - cbn [wsRef setIsConnecting set_serverConfig].
    destruct (wsRef s) as [w|]; destruct (url_accepted _);
      (apply (@Neutral_kept' s _ Hnd);
       [reflexivity | reflexivity | reflexivity | reflexivity
       | neutral_log | right; reflexivity]).
Qed.


(** *** Changes that settle promises *)

Lemma settlements_rejections_absent (p : nat) (reason : JsError)
    (m : JsMap.t PendingRequest) :
  (forall e, In e m -> promise (snd e) <> p) ->
  settlements p (rejections reason m) = [].
Proof.
  induction m as [|e m IH]; intros H; cbn; [reflexivity|].
  assert (E : Nat.eqb (promise (snd e)) p = false).
  { apply Nat.eqb_neq. apply H. left. reflexivity. }
  rewrite E. apply IH. intros e' He'. apply H. right. exact He'.
Qed.

Lemma settlements_rejections_once (reason : JsError) (m : JsMap.t PendingRequest)
    (id : string) (pd : PendingRequest) :
  NoDup (map (fun e => promise (snd e)) m) ->
  In (id, pd) m ->
  settlements (promise pd) (rejections reason m) = [Rejected reason].
Proof.
  induction m as [|e m IH]; intros Hnd Hin; [contradiction|].
  inversion Hnd as [|? ? Hnot Hnd']; subst.
  cbn [rejections flat_map app settlements].
  destruct Hin as [->|Hin].
  - cbn [snd]. rewrite Nat.eqb_refl. f_equal.
    apply settlements_rejections_absent.
    intros e' He' E. apply Hnot. cbn [snd]. rewrite <- E.
    apply (in_map (fun e => promise (snd e))). exact He'.
  - assert (E : Nat.eqb (promise (snd e)) (promise pd) = false).
    { apply Nat.eqb_neq. intros E. apply Hnot. rewrite E.
      apply (in_map (fun e => promise (snd e)) m (id, pd)). exact Hin. }
    rewrite E. exact (IH Hnd' Hin).
Qed.

Lemma Inv_reject_all (reason : JsError) (s : State) :
  (forall id, good_outcome id (Rejected reason)) ->
  Inv s -> Inv (reject_all reason s).
Proof.
  intros Hgood [Ikeys Iprom Ihand Ifresh Ientry Itimer Irec Ireg Iunborn].
  rewrite reject_all_eq.
  constructor;
    cbn [pendingRequests timers next_timer next_promise log reconnectTimeout
         set_pendingRequests set_log set_timers].
  - constructor.
  - constructor.
  - apply NoDup_map_filter. exact Ihand.
  - intros t Ht. apply In_disarm in Ht. apply Ifresh. exact (proj1 Ht).
  - intros id pd [].
  - intros t id p Ht Ha. apply In_disarm in Ht. destruct Ht as [Ht Hn].
    exfalso. apply Hn. apply in_map_iff.
    exists (id, mkPending p (handle t)). split; [reflexivity|].
    exact (Itimer t id p Ht Ha).
  - intros h Hh. destruct (Irec h Hh) as [H1 H2]. split; [exact H1|].
    intros t Ht. apply In_disarm in Ht. apply H2. exact (proj1 Ht).
  - intros t id p Ht Ha. rewrite timers_set_app, timers_set_rejections, app_nil_r in Ht.
    destruct (Ireg t id p Ht Ha) as [H1 H2]. split; [exact H1|].
    right. rewrite settlements_app.
    destruct H2 as [[H2 H3]|[o [H2 H3]]].
    + pose proof (Itimer t id p H3 Ha) as Hin.
      exists (Rejected reason). split; [|apply Hgood].
      rewrite H2. cbn [app].
      apply (@settlements_rejections_once reason (pendingRequests s) id
               (mkPending p (handle t)) Iprom Hin).
    + exists o. split; [|exact H3].
      rewrite H2, settlements_rejections_absent; [reflexivity|].
      intros [id' pd'] Hin E. cbn [snd] in E.
      destruct (Ientry id' pd' Hin) as (_ & Hs & _). rewrite E, H2 in Hs. discriminate.
  - intros p Hp. rewrite settlements_app, (Iunborn p Hp).
    apply settlements_rejections_absent.
    intros [id' pd'] Hin E. cbn [snd] in E.
    destruct (Ientry id' pd' Hin) as (_ & _ & Hlt). lia.
Qed.

Lemma Inv_reconnect_timer (ms : Z) (s : State) :
  Inv s ->
  Inv (set_reconnectTimeout (Some (fst (setTimeout TReconnect ms s)))
         (snd (setTimeout TReconnect ms s))).
Proof.
  intros [Ikeys Iprom Ihand Ifresh Ientry Itimer Irec Ireg Iunborn].
  constructor;
    cbn [setTimeout fst snd emit pendingRequests timers next_timer next_promise log
         reconnectTimeout set_reconnectTimeout set_log set_timers set_next_timer].
  - exact Ikeys.
  - exact Iprom.
  - apply NoDup_map_snoc; [exact Ihand|]. cbn [handle].
    intros Hin. apply in_map_iff in Hin. destruct Hin as [t [E Ht]].
    specialize (Ifresh t Ht). lia.
  - intros t Ht. apply in_app_or in Ht. destruct Ht as [Ht|[<-|[]]].
    + specialize (Ifresh t Ht). lia.
    + cbn. lia.
  - intros id pd Hin. destruct (Ientry id pd Hin) as (H1 & H2 & H3).
    rewrite settlements_app, H2. repeat split; try assumption.
    apply in_or_app. left. exact H1.
  - intros t id p Ht Ha. apply in_app_or in Ht. destruct Ht as [Ht|[<-|[]]].
    + exact (Itimer t id p Ht Ha).
    + discriminate.
  - intros h Hh. injection Hh as <-. split; [lia|].
    intros t Ht Eh. apply in_app_or in Ht. destruct Ht as [Ht|[<-|[]]].
    + specialize (Ifresh t Ht). lia.
    + reflexivity.
  - intros t id p Ht Ha. rewrite timers_set_app in Ht. cbn in Ht.
    apply in_app_or in Ht. destruct Ht as [Ht|[<-|[]]]; [|discriminate].
    destruct (Ireg t id p Ht Ha) as [H1 H2]. split; [exact H1|].
    rewrite settlements_app, app_nil_r.
    destruct H2 as [[H2 H3]|H2]; [left | right; exact H2].
    split; [exact H2|]. apply in_or_app. left. exact H3.
  - intros p Hp. rewrite settlements_app, (Iunborn p Hp). reflexivity.
Qed.

(** One entry leaves the table together with its timer, and its promise is
    settled: the answer to the request, or its time-out. *)
Lemma Inv_settle (s s' : State) (id : string) (pd : PendingRequest)
    (es : list Effect) (o : Outcome) :
  Inv s ->
  In (id, pd) (pendingRequests s) ->
  pendingRequests s' = JsMap.delete id (pendingRequests s) ->
  timers s' = filter (fun t => negb (Nat.eqb (handle t) (timeout pd))) (timers s) ->
  next_timer s' = next_timer s ->
  next_promise s' = next_promise s ->
  reconnectTimeout s' = reconnectTimeout s ->
  log s' = log s ++ es ->
  (forall p, settlements p es = if Nat.eqb (promise pd) p then [o] else []) ->
  timers_set es = [] ->
  good_outcome id o ->
  Inv s'.
Proof.
  intros [Ikeys Iprom Ihand Ifresh Ientry Itimer Irec Ireg Iunborn]
         Hin Hp Ht Hnt Hnp Hr Hl Hes Hts Hgood.
  destruct (Ientry id pd Hin) as (HT & Hunset & Hlt).
  set (T := mkTimer (timeout pd) 30000 (TRequestTimeout id (promise pd))) in *.
  assert (Hsame_handle : forall t, In t (timers s) -> handle t = timeout pd -> t = T).
  { intros t Hin' E. exact (@NoDup_map_inj _ _ handle (timers s) t T Ihand Hin' HT E). }
  assert (Hsame_promise : forall id' pd', In (id', pd') (pendingRequests s) ->
            promise pd' = promise pd -> id' = id /\ pd' = pd).
  { intros id' pd' Hin' E.
    pose proof (@NoDup_map_inj _ _ (fun e => promise (snd e)) (pendingRequests s)
                  (id', pd') (id, pd) Iprom Hin' Hin E) as Heq.
    injection Heq as -> ->. split; reflexivity. }
  assert (Hsame_key : forall pd', In (id, pd') (pendingRequests s) -> pd' = pd).
  { intros pd' Hin'.
    pose proof (@NoDup_map_inj _ _ fst (pendingRequests s) (id, pd') (id, pd)
                  Ikeys Hin' Hin eq_refl) as Heq.
    injection Heq as ->. reflexivity. }
  constructor.
  - rewrite Hp. apply (@JsMap_delete_NoDup _ _ fst). exact Ikeys.
  - rewrite Hp. apply JsMap_delete_NoDup. exact Iprom.
  - rewrite Ht. apply NoDup_map_filter. exact Ihand.
  - intros t H. rewrite Ht in H. apply In_clear in H. rewrite Hnt.
    apply Ifresh. exact (proj1 H).
  - intros id' pd' H. rewrite Hp in H.
    pose proof (@JsMap_delete_key _ _ _ _ _ Ikeys H) as Hne.
    apply JsMap_In_delete in H.
    destruct (Ientry id' pd' H) as (H1 & H2 & H3).
    rewrite Ht, Hl, settlements_app, H2, Hes, Hnp. repeat split.
    + apply In_clear. split; [exact H1|]. cbn [handle]. intros E.
      pose proof (Hsame_handle _ H1 E) as Heq.
      apply (f_equal action) in Heq. cbn [action T] in Heq.
      injection Heq as Hid _. exact (Hne Hid).
    + destruct (Nat.eqb (promise pd) (promise pd')) eqn:E; [|reflexivity].
      apply Nat.eqb_eq in E. destruct (Hsame_promise id' pd' H (eq_sym E)). contradiction.
    + exact H3.
  - intros t id' p H Ha. rewrite Ht in H. apply In_clear in H. destruct H as [H Hh].
    rewrite Hp. pose proof (Itimer t id' p H Ha) as Hin'.
    apply JsMap_delete_other; [exact Hin'|].
    intros ->. apply Hh. rewrite <- (Hsame_key _ Hin'). reflexivity.
  - intros h Hh. rewrite Hr in Hh. destruct (Irec h Hh) as [H1 H2].
    rewrite Hnt. split; [exact H1|].
    intros t H. rewrite Ht in H. apply In_clear in H. apply H2. exact (proj1 H).
  - intros t id' p H Ha. rewrite Hl, timers_set_app, Hts, app_nil_r in H.
    destruct (Ireg t id' p H Ha) as [H1 H2].
    rewrite Hnp, Hl, settlements_app, Hes. split; [exact H1|].
    destruct (Nat.eqb (promise pd) p) eqn:E.
    + apply Nat.eqb_eq in E. subst p. right. exists o.
      destruct H2 as [[H2 H3]|[o' [H2 _]]]; [|rewrite Hunset in H2; discriminate].
      rewrite H2. split; [reflexivity|].
      pose proof (Itimer t id' (promise pd) H3 Ha) as Hin'.
      destruct (Hsame_promise _ _ Hin' eq_refl) as [-> _]. exact Hgood.
    + apply Nat.eqb_neq in E. rewrite app_nil_r.
      destruct H2 as [[H2 H3]|H2]; [left | right; exact H2].
      split; [exact H2|]. rewrite Ht. apply In_clear. split; [exact H3|].
      intros Eh. pose proof (Hsame_handle t H3 Eh) as Heq. subst t.
      cbn [action T] in Ha. injection Ha as _ Hp'. exact (E Hp').
  - intros p Hle. rewrite Hnp in Hle.
    rewrite Hl, settlements_app, (Iunborn p Hle), Hes.
    destruct (Nat.eqb (promise pd) p) eqn:E; [|reflexivity].
    apply Nat.eqb_eq in E. lia.
Qed.

(** A promise is created and settled in the same call: the request was not
    sent, or its transmission failed. *)
Lemma Inv_born (s s' : State) (es : list Effect) :
  Inv s ->
  pendingRequests s' = pendingRequests s ->
  timers s' = timers s ->
  (next_timer s <= next_timer s')%nat ->
  next_promise s' = S (next_promise s) ->
  reconnectTimeout s' = reconnectTimeout s ->
  log s' = log s ++ es ->
  (forall q, q <> next_promise s -> settlements q es = []) ->
  (forall t id p, In t (timers_set es) -> action t = TRequestTimeout id p ->
     p = next_promise s
     /\ exists o, settlements p es = [o] /\ good_outcome id o) ->
  Inv s'.
Proof.
  intros [Ikeys Iprom Ihand Ifresh Ientry Itimer Irec Ireg Iunborn]
         Hp Ht Hnt Hnp Hr Hl Hes Hts.
  constructor.
  - rewrite Hp. exact Ikeys.
  - rewrite Hp. exact Iprom.
  - rewrite Ht. exact Ihand.
  - intros t H. rewrite Ht in H. specialize (Ifresh t H). lia.
  - intros id pd H. rewrite Hp in H. destruct (Ientry id pd H) as (H1 & H2 & H3).
    rewrite Ht, Hl, settlements_app, H2, Hnp, Hes by lia.
    repeat split; [exact H1 | lia].
  - intros t id p H Ha. rewrite Ht in H. rewrite Hp. exact (Itimer t id p H Ha).
  - intros h Hh. rewrite Hr in Hh. destruct (Irec h Hh) as [H1 H2].
    split; [lia|]. intros t H. rewrite Ht in H. exact (H2 t H).
  - intros t id p H Ha. rewrite Hl, timers_set_app in H. rewrite Hnp, Hl, settlements_app.
    apply in_app_or in H. destruct H as [H|H].
    + destruct (Ireg t id p H Ha) as [H1 H2]. split; [lia|].
      rewrite Hes, app_nil_r by lia. rewrite Ht. exact H2.
    + destruct (Hts t id p H Ha) as [-> [o [Ho Hg]]]. split; [lia|].
      right. exists o. rewrite (Iunborn _ (Nat.le_refl _)), Ho. split; [reflexivity | exact Hg].
  - intros q Hq. rewrite Hnp in Hq.
    rewrite Hl, settlements_app, Iunborn, Hes by lia. reflexivity.
Qed.

Lemma JsMap_has_false_keys {V : Type} (k : string) (m : JsMap.t V) :
  JsMap.has k m = false -> ~ In k (JsMap.keys m).
Proof.
  intros H Hin. apply in_map_iff in Hin. destruct Hin as [[k' v] [E Hin]].
  cbn in E. subst k'. rewrite (JsMap_In_has _ _ _ Hin) in H. discriminate.
Qed.

(** A request is registered: a fresh promise, a fresh timer, a new entry. *)
Lemma Inv_registered_new (s s' : State) (id : string) (es : list Effect) :
  Inv s ->
  JsMap.has id (pendingRequests s) = false ->
  pendingRequests s'
  = pendingRequests s ++ [(id, mkPending (next_promise s) (next_timer s))] ->
  timers s'
  = timers s ++ [mkTimer (next_timer s) 30000 (TRequestTimeout id (next_promise s))] ->
  next_timer s' = S (next_timer s) ->
  next_promise s' = S (next_promise s) ->
  reconnectTimeout s' = reconnectTimeout s ->
  log s' = log s ++ es ->
  (forall q, settlements q es = []) ->
  timers_set es = [mkTimer (next_timer s) 30000 (TRequestTimeout id (next_promise s))] ->
  Inv s'.
Proof.
  intros [Ikeys Iprom Ihand Ifresh Ientry Itimer Irec Ireg Iunborn]
         Hfresh Hp Ht Hnt Hnp Hr Hl Hes Hts.
  set (T := mkTimer (next_timer s) 30000 (TRequestTimeout id (next_promise s))) in *.
  constructor.
  - rewrite Hp. apply (@NoDup_map_snoc _ _ fst); [exact Ikeys|].
    apply JsMap_has_false_keys. exact Hfresh.
  - rewrite Hp. apply NoDup_map_snoc; [exact Iprom|]. cbn [snd promise].
    intros Hin. apply in_map_iff in Hin. destruct Hin as [[id' pd'] [E Hin]].
    cbn [snd] in E. destruct (Ientry id' pd' Hin) as (_ & _ & Hlt). lia.
  - rewrite Ht. apply NoDup_map_snoc; [exact Ihand|]. cbn [handle T].
    intros Hin. apply in_map_iff in Hin. destruct Hin as [t [E Hin]].
    specialize (Ifresh t Hin). lia.
  - intros t H. rewrite Ht in H. rewrite Hnt.
    apply in_app_or in H. destruct H as [H|[<-|[]]].
    + specialize (Ifresh t H). lia.
    + cbn. lia.
  - intros id' pd' H. rewrite Hp in H. rewrite Ht, Hl, settlements_app, Hes, app_nil_r, Hnp.
    apply in_app_or in H. destruct H as [H|[H|[]]].
    + destruct (Ientry id' pd' H) as (H1 & H2 & H3).
      repeat split; [apply in_or_app; left; exact H1 | exact H2 | lia].
    + injection H as <- <-. cbn [promise timeout].
      repeat split; [apply in_or_app; right; left; reflexivity | | lia].
      apply Iunborn. apply Nat.le_refl.
  - intros t id' p H Ha. rewrite Ht in H. rewrite Hp.
    apply in_app_or in H. destruct H as [H|[<-|[]]].
    + apply in_or_app. left. exact (Itimer t id' p H Ha).
    + cbn [action T] in Ha. injection Ha as <- <-.
      apply in_or_app. right. left. reflexivity.
  - intros h Hh. rewrite Hr in Hh. destruct (Irec h Hh) as [H1 H2].
    rewrite Hnt. split; [lia|]. intros t H Eh. rewrite Ht in H.
    apply in_app_or in H. destruct H as [H|[<-|[]]].
    + exact (H2 t H Eh).
    + cbn [handle T] in Eh. lia.
  - intros t id' p H Ha. rewrite Hl, timers_set_app, Hts in H.
    rewrite Hnp, Hl, settlements_app, Hes, app_nil_r, Ht.
    apply in_app_or in H. destruct H as [H|[<-|[]]].
    + destruct (Ireg t id' p H Ha) as [H1 H2]. split; [lia|].
      destruct H2 as [[H2 H3]|H2]; [left | right; exact H2].
      split; [exact H2 | apply in_or_app; left; exact H3].
    + cbn [action T] in Ha. injection Ha as <- <-. split; [lia|]. left.
      split; [apply Iunborn, Nat.le_refl | apply in_or_app; right; left; reflexivity].
  - intros q Hq. rewrite Hnp in Hq.
    rewrite Hl, settlements_app, Hes, app_nil_r. apply Iunborn. lia.
Qed.

Lemma Inv_sendRequest (act : string) (params : list (string * json))
    (draws : nat -> Q) (send_error : option string) (s : State) :
  Inv s ->
  no_collision (CallSendRequest act params draws send_error) s ->
  Inv (snd (sendRequest act params draws send_error s)).
Proof.
  intros HI Hnc. cbn [no_collision] in Hnc.
  destruct (ws_is_open s) eqn:Hopen.
  - specialize (Hnc eq_refl).
    destruct (ws_is_open_wsRef s Hopen) as [w Hw].
    unfold sendRequest, new_promise.
    change (ws_is_open (set_next_promise (S (next_promise s)) s)) with (ws_is_open s).
    rewrite Hopen. cbn [wsRef set_next_promise]. rewrite Hw.
    set (id := IdGen.generateRequestId draws) in *.
    set (T := mkTimer (next_timer s) 30000 (TRequestTimeout id (next_promise s))).
    destruct send_error as [error|].
    + apply (@Inv_born s _
               [ESetTimeout T; EClearTimeout (next_timer s);
                EReject (next_promise s) (HostException error)] HI).
      * cbn. apply JsMap_has_set_delete. exact Hnc.
      * cbn. apply (@find_fresh_timer (timers s) T). exact (inv_fresh HI).
      * cbn. lia.
      * reflexivity.
      * reflexivity.
      * cbn. rewrite <- !app_assoc. reflexivity.
      * intros q Hq. cbn. apply Nat.eqb_neq in Hq. rewrite Nat.eqb_sym, Hq. reflexivity.
      * intros t id' p [<-|[]] Ha. cbn [action T] in Ha. injection Ha as <- <-.
        split; [reflexivity|]. exists (Rejected (HostException error)). split.
        -- cbn. rewrite Nat.eqb_refl. reflexivity.
        -- cbn. right. right. right. exists error. reflexivity.
    + apply (@Inv_registered_new s _ id
               [ESetTimeout T; ESend w (request_frame act id params)] HI Hnc).
      * cbn. apply JsMap_set_fresh. exact Hnc.
      * reflexivity.
      * reflexivity.
      * reflexivity.
      * reflexivity.
      * cbn. rewrite <- !app_assoc. reflexivity.
      * intros q. reflexivity.
      * reflexivity.
  - rewrite (@sendRequest_closed act params draws send_error s Hopen). cbn [snd].
    apply (@Inv_born s _ [EReject (next_promise s) NotConnected] HI).
    + reflexivity.
    + reflexivity.
    + apply Nat.le_refl.
    + reflexivity.
    + reflexivity.
    + reflexivity.
    + intros q Hq. cbn. apply Nat.eqb_neq in Hq. rewrite Nat.eqb_sym, Hq. reflexivity.
    + intros t id p [].
Qed.

(** *** The handlers and the calls keep the invariant *)

Ltac neutral_kept s :=
  apply (@Neutral_kept' s);
  [ | reflexivity | reflexivity | reflexivity | reflexivity
    | neutral_log | right; reflexivity ].

Lemma Inv_onclose_handler (s : State) : Inv s -> Inv (onclose_handler s).
Proof.
  intros HI. unfold onclose_handler.
  set (s2 := notifyConnectionHandlers false _).
  assert (H2 : Inv s2).
  { apply (@Inv_neutral s); [|exact HI]. subst s2.
    neutral_kept s. exact (inv_handles HI). }
  assert (H3 : Inv (reject_all ConnectionClosed s2)).
  { apply Inv_reject_all; [intros id; right; left; reflexivity | exact H2]. }
  destruct (_ <? _)%nat; [|exact H3].
  apply (@Inv_reconnect_timer _ _ H3).
Qed.

Lemma Inv_disconnect (s : State) : Inv s -> Inv (disconnect s).
Proof.
  intros HI. unfold disconnect.
  apply Inv_reject_all;
    [intros id; right; right; left; reflexivity|].
  apply (@Inv_neutral s); [|exact HI].
  pose proof (inv_handles HI) as Hnd.
  change (reconnectTimeout (set_reconnectAttempts maxReconnectAttempts s))
    with (reconnectTimeout s).
  destruct (reconnectTimeout s) as [h|] eqn:Er.
  - destruct (inv_reconnect HI Er) as [_ Hh].
    change (wsRef (set_reconnectTimeout None
                     (clearTimeout h (set_reconnectAttempts maxReconnectAttempts s))))
      with (wsRef s).
    destruct (wsRef s) as [w|];
      (apply (@Neutral_cleared' s _ h Hnd Hh);
       [reflexivity | reflexivity | reflexivity | reflexivity
       | neutral_log | left; reflexivity]).
  - change (wsRef (set_reconnectAttempts maxReconnectAttempts s)) with (wsRef s).
    destruct (wsRef s) as [w|]; (neutral_kept s; exact Hnd).
Qed.

Lemma Inv_onopen_handler (s : State) : Inv s -> Inv (onopen_handler s).
Proof.
  intros HI. apply (@Inv_neutral s); [|exact HI].
  unfold onopen_handler. neutral_kept s. exact (inv_handles HI).
Qed.

Lemma Inv_update_socket (w : nat) (f : WebSocket -> WebSocket) (s : State) :
  Inv s -> Inv (update_socket w f s).
Proof.
  intros HI. apply (@Inv_neutral s); [|exact HI].
  neutral_kept s. exact (inv_handles HI).
Qed.

Lemma Inv_onmessage_handler (parsed : option json) (s : State) :
  Inv s -> Inv (onmessage_handler parsed s).
Proof.
  intros HI. unfold onmessage_handler.
  destruct parsed as [data|]; [|exact HI].
  destruct (get_prop data "request_id") as [rid|] eqn:Hrid; [|exact HI].
  set (s1 := match (if truthy rid then as_key rid else None) with
             | Some k => _
             | None => s
             end).
  assert (H1 : Inv s1).
  { subst s1. destruct (if truthy rid then as_key rid else None) as [k|] eqn:Ek;
      [|exact HI].
    assert (Hk : rid = Some (JStr k)).
    { destruct (truthy rid); [|discriminate].
      destruct rid as [[]|]; cbn in Ek; congruence. }
    destruct (JsMap.get k (pendingRequests s)) as [pending|] eqn:Eg; [|exact HI].
    apply (@Inv_settle s _ k pending
             [EClearTimeout (timeout pending); EResolve (promise pending) data]
             (Resolved data) HI (JsMap_get_In _ _ Eg)).
    - reflexivity.
    - reflexivity.
    - reflexivity.
    - reflexivity.
    - reflexivity.
    - cbn. rewrite <- !app_assoc. reflexivity.
    - intros p. reflexivity.
    - reflexivity.
    - cbn. unfold matching_response. rewrite Hrid, Hk. reflexivity. }
  apply (@Inv_neutral s1); [|exact H1].
  unfold notifyMessageHandlers. neutral_kept s1. exact (inv_handles H1).
Qed.

Lemma Inv_request_timeout (t : Timer) (id : string) (p : nat) (s : State) :
  Inv s -> In t (timers s) -> action t = TRequestTimeout id p ->
  Inv (request_timeout id p
         (set_timers (filter (fun t' => negb (Nat.eqb (handle t') (handle t))) (timers s)) s)).
Proof.
  intros HI Ht Ha.
  pose proof (inv_timer HI t Ht Ha) as Hin.
  unfold request_timeout. cbn [pendingRequests set_timers].
  rewrite (JsMap_In_has _ _ _ Hin).
  apply (@Inv_settle s _ id (mkPending p (handle t)) [EReject p RequestTimeout]
           (Rejected RequestTimeout) HI Hin); try reflexivity.
  cbn. left. reflexivity.
Qed.

Lemma Inv_reconnect_timer_fired (t : Timer) (s : State) :
  Inv s -> In t (timers s) -> action t = TReconnect ->
  Inv (reconnect_timer url_accepted
         (set_timers (filter (fun t' => negb (Nat.eqb (handle t') (handle t))) (timers s)) s)).
Proof.
  intros HI Ht Ha. pose proof (inv_handles HI) as Hnd.
  set (s1 := set_timers _ s).
  assert (H1 : Inv s1).
  { apply (@Inv_neutral s); [|exact HI]. subst s1.
    apply (@Neutral_cleared' s _ (handle t) Hnd);
      [ | reflexivity | reflexivity | reflexivity | reflexivity
        | neutral_log | right; reflexivity ].
    intros t' Ht' E.
    rewrite (@NoDup_map_inj _ _ handle (timers s) t' t Hnd Ht' Ht E). exact Ha. }
  unfold reconnect_timer.
  set (s2 := set_reconnectAttempts _ s1).
  assert (H2 : Inv s2).
  { apply (@Inv_neutral s1); [|exact H1]. subst s2.
    neutral_kept s1. exact (inv_handles H1). }
  apply (@Inv_neutral s2); [|exact H2]. apply connect_neutral. exact H2.
Qed.

Lemma find_timer_In (h : nat) (s : State) (t : Timer) :
  find_timer h s = Some t -> In t (timers s) /\ handle t = h.
Proof.
  unfold find_timer. intros H. apply find_some in H.
  destruct H as [Hin E]. apply Nat.eqb_eq in E. split; assumption.
Qed.

Lemma Inv_step (e : Event) (s : State) :
  Inv s -> no_collision e s -> Inv (step url_accepted e s).
Proof.
  intros HI Hnc.
  destruct e as [ip port| |act params draws send_error|h|h|h|h|w|w parsed|w|w|w code|h];
    cbn [step].
  - apply (@Inv_neutral s); [apply connect_neutral|]; exact HI.
  - apply Inv_disconnect. exact HI.
  - apply Inv_sendRequest; assumption.
  - apply (@Inv_neutral s); [|exact HI].
    unfold addMessageHandler. neutral_kept s. exact (inv_handles HI).
  - apply (@Inv_neutral s); [|exact HI].
    unfold removeMessageHandler. neutral_kept s. exact (inv_handles HI).
  - apply (@Inv_neutral s); [|exact HI].
    unfold addConnectionHandler. neutral_kept s. exact (inv_handles HI).
  - apply (@Inv_neutral s); [|exact HI].
    unfold removeConnectionHandler. neutral_kept s. exact (inv_handles HI).
  - destruct (socket w s) as [x|]; [|exact HI].
    destruct (readyState x); try exact HI.
    destruct (onopen x); [apply Inv_onopen_handler|]; apply Inv_update_socket; exact HI.
  - destruct (socket w s) as [x|]; [|exact HI].
    destruct (readyState x); try exact HI;
      (destruct (onmessage x); [apply Inv_onmessage_handler|]; exact HI).
  - exact HI.
  - destruct (socket w s) as [x|]; [|exact HI].
    destruct (readyState x); try exact HI. apply Inv_update_socket. exact HI.
  - destruct (socket w s) as [x|]; [|exact HI].
    destruct (readyState x); try exact HI;
      (destruct (onclose x); [apply Inv_onclose_handler|]; apply Inv_update_socket; exact HI).
  - destruct (find_timer h s) as [t|] eqn:Ef; [|exact HI].
    destruct (find_timer_In h s Ef) as [Hin <-].
    destruct (action t) as [|id p] eqn:Ea; cbn [run_timer].
    + apply Inv_reconnect_timer_fired; assumption.
    + apply (@Inv_request_timeout t id p s); assumption.
Qed.

Lemma Inv_initial : Inv initial_state.
Proof.
  constructor; cbn; try constructor; try contradiction; try discriminate.
Qed.

Lemma Inv_run (es : list Event) (s : State) :
  Inv s -> collision_free url_accepted es s -> Inv (run url_accepted es s).
Proof.
  revert s. induction es as [|e es IH]; intros s HI Hcf; [exact HI|].
  destruct Hcf as [Hnc Hcf]. cbn [run fold_left].
  apply IH; [apply Inv_step; assumption | exact Hcf].
Qed.

Lemma JsMap_In_get {V : Type} (k : string) (v : V) (m : JsMap.t V) :
  NoDup (JsMap.keys m) -> In (k, v) m -> JsMap.get k m = Some v.
Proof.
  induction m as [|[k' v'] m IH]; cbn; [contradiction|].
  intros Hnd. inversion Hnd as [|? ? Hnot Hnd']; subst.
  intros [H|H].
  - injection H as -> ->. rewrite String.eqb_refl. reflexivity.
  - destruct (String.eqb k k') eqn:E; [|exact (IH Hnd' H)].
    apply String.eqb_eq in E. subst k'. exfalso. apply Hnot.
    apply (in_map fst) in H. exact H.
Qed.

Lemma find_armed (ts : list Timer) (t : Timer) :
  NoDup (map handle ts) -> In t ts ->
  find (fun t' => Nat.eqb (handle t') (handle t)) ts = Some t.
Proof.
  induction ts as [|a ts IH]; cbn; [contradiction|].
  intros Hnd. inversion Hnd as [|? ? Hnot Hnd']; subst.
  intros [->|H]; [rewrite Nat.eqb_refl; reflexivity|].
  destruct (Nat.eqb (handle a) (handle t)) eqn:E; [|exact (IH Hnd' H)].
  apply Nat.eqb_eq in E. exfalso. apply Hnot. rewrite E. apply in_map. exact H.
Qed.

(** C1, as the code has it. A request is registered when [sendRequest] sets
    its 30 s timer, just before it enters the pending table. Provided no
    generated identifier is a key of the table when it is generated, in
    every state the provider reaches each registered request is in one of
    two situations. Either its promise is not settled, its entry is in the
    table under its identifier, its timer is armed, and the firing of that
    timer rejects the promise with "Request timeout". Or its promise has
    been settled exactly once and it has no entry any more: resolved with a
    frame whose [request_id] is the identifier of the request, or rejected
    with one of "Request timeout", "Connection closed", "Disconnected" or
    the exception of the transmission. *)
Theorem settled_exactly_once (es : list Event) :
  collision_free url_accepted es initial_state ->
  let s := run url_accepted es initial_state in
  forall t id p,
    In t (timers_set (log s)) -> action t = TRequestTimeout id p ->
    (settlements p (log s) = []
     /\ JsMap.get id (pendingRequests s) = Some (mkPending p (handle t))
     /\ find_timer (handle t) s = Some t
     /\ settlements p (log (step url_accepted (TimerFire (handle t)) s))
        = [Rejected RequestTimeout])
    \/ (exists o, settlements p (log s) = [o] /\ good_outcome id o
                  /\ forall id' pd, In (id', pd) (pendingRequests s) -> promise pd <> p).
Proof.
  intros Hcf s t id p Hreg Ha.
  assert (HI : Inv s) by (apply Inv_run; [apply Inv_initial | exact Hcf]).
  clearbody s.
  destruct (inv_registered HI t Hreg Ha) as [_ [[Hunset Harmed]|[o [Hset Hgood]]]].
  - left. pose proof (inv_timer HI t Harmed Ha) as Hin.
    pose proof (@find_armed (timers s) t (inv_handles HI) Harmed) as Hfind.
    split; [exact Hunset|].
    split; [exact (@JsMap_In_get _ _ _ _ (inv_keys HI) Hin)|].
    split; [exact Hfind|].
    cbn [step]. unfold find_timer. rewrite Hfind, Ha. cbn [run_timer].
    unfold request_timeout. cbn [pendingRequests set_timers].
    rewrite (JsMap_In_has _ _ _ Hin).
    cbn [log reject emit set_log set_pendingRequests set_timers].
    rewrite settlements_app, Hunset. cbn. rewrite Nat.eqb_refl. reflexivity.
  - right. exists o. split; [exact Hset|]. split; [exact Hgood|].
    intros id' pd Hin E. destruct (inv_entry HI id' pd Hin) as (_ & Hs & _).
    rewrite E, Hset in Hs. discriminate.
Qed.

(** * Further properties of the provider *)

(** ** Opening and connecting *)

Lemma timers_set_backoff_first (s : State) :
  reconnectAttempts s = 0%nat ->
  map delay (timers_set (backoff_timer_set s)) = [1000].
Proof. intros H. unfold backoff_timer_set. rewrite H. reflexivity. Qed.

Lemma sockets_opened_app (l1 l2 : list Effect) :
  sockets_opened (l1 ++ l2) = sockets_opened l1 ++ sockets_opened l2.
Proof.
  induction l1 as [|e l1 IH]; [reflexivity|].
  destruct e; cbn; rewrite ?IH; reflexivity.
Qed.

(** X2. With no current socket and an address the host accepts,
    [connect] opens exactly one socket, to [ws://ip:port], and makes it the
    current socket; it records the address as the server configuration,
    sets [isConnecting], leaves the pending table alone, and a reconnect
    timer held at that moment is cleared: it is no longer armed. *)
Theorem connect_opens_one_socket (ip port : string) (s : State) :
  wsRef s = None ->
  url_accepted (server_uri (ip, port)) = true ->
  let s' := connect url_accepted ip port s in
  let w := List.length (sockets s) in
  wsRef s' = Some w
  /\ socket w s'
     = Some (mkWebSocket (server_uri (ip, port)) CONNECTING true true true true)
  /\ sockets_opened (new_effects s s') = [w]
  /\ serverConfig s' = (ip, port)
  /\ isConnecting s' = true
  /\ pendingRequests s' = pendingRequests s
  /\ reconnectTimeout s' = None
  /\ forall h, reconnectTimeout s = Some h -> find_timer h s' = None.
Proof.
  intros Hws Hurl s' w. subst s' w.
  unfold connect, connect_with, ws_is_open. rewrite Hws.
  change ("ws://" ++ ip ++ ":" ++ port)%string with (server_uri (ip, port)).
  rewrite Hurl.
  destruct (reconnectTimeout s) as [h|] eqn:Er;
    cbn -[new_effects server_uri]; rewrite Hws; cbn -[new_effects server_uri];
    (split; [reflexivity|]);
    (split; [unfold socket; cbn [sockets set_wsRef set_log set_sockets];
             apply (@nth_error_middle _ (sockets s) _ [])|]);
    (split; [erewrite new_effects_app;
             [|cbn; rewrite <- ?app_assoc; reflexivity]; reflexivity|]);
    do 3 (split; [reflexivity|]); (split; [first [reflexivity | exact Er]|]).
  - intros h' Eh. injection Eh as <-. unfold find_timer.
    apply find_handle_None. intros t Ht. cbn in Ht. apply In_clear in Ht. exact (proj2 Ht).
  - intros h' Eh. discriminate.
Qed.

(** X3. When the host refuses the address ([new WebSocket] throws), a
    [connect] on a manager that is not open ends with no current socket and
    [isConnecting] false; it opens no socket and sets no timer, so nothing
    will retry. The address is recorded all the same, and a socket that was
    current is detached and closed. *)
Theorem connect_refused_address (ip port : string) (s : State) :
  ws_is_open s = false ->
  url_accepted (server_uri (ip, port)) = false ->
  let s' := connect url_accepted ip port s in
  wsRef s' = None
  /\ isConnecting s' = false
  /\ sockets_opened (new_effects s s') = []
  /\ timers_set (new_effects s s') = []
  /\ reconnectTimeout s' = None
  /\ serverConfig s' = (ip, port)
  /\ forall w x, wsRef s = Some w -> socket w s = Some x ->
       socket w s' = Some (closing (clear_handlers x)).
Proof.
  intros Hopen Hurl s'. subst s'.
  unfold connect, connect_with. rewrite Hopen.
  change ("ws://" ++ ip ++ ":" ++ port)%string with (server_uri (ip, port)).
  rewrite Hurl.
  destruct (reconnectTimeout s) as [h|] eqn:Er, (wsRef s) as [w0|] eqn:Ew;
    cbn -[new_effects server_uri]; rewrite ?Ew; cbn -[new_effects server_uri];
    (split; [first [reflexivity | exact Ew]|]); (split; [reflexivity|]);
    (split; [first [ erewrite new_effects_app;
                     [|cbn; rewrite <- ?app_assoc; reflexivity]; reflexivity
                   | unfold new_effects; rewrite skipn_all; reflexivity ]|]);
    (split; [first [ erewrite new_effects_app;
                     [|cbn; rewrite <- ?app_assoc; reflexivity]; reflexivity
                   | unfold new_effects; rewrite skipn_all; reflexivity ]|]);
    (split; [first [reflexivity | exact Er]|]); (split; [reflexivity|]);
    intros w x Hw Hx; try discriminate;
    injection Hw as <-; unfold socket in *; cbn;
    rewrite !nth_error_update_nth, Hx; reflexivity.
Qed.

(** X4. The attempt counter that [disconnect] sets to its maximum is reset
    only when a socket opens. So after [disconnect], a [connect] whose
    socket closes before it opened is not retried: the close sets no timer
    and the manager is left without socket. *)
Theorem no_retry_after_disconnect (ip port : string) (code : Z) (s : State) :
  url_accepted (server_uri (ip, port)) = true ->
  let s1 := connect url_accepted ip port (disconnect s) in
  let s2 := close_current url_accepted code s1 in
  reconnectAttempts s1 = maxReconnectAttempts
  /\ wsRef s1 = Some (List.length (sockets (disconnect s)))
  /\ wsRef s2 = None
  /\ isConnected s2 = false
  /\ reconnectTimeout s2 = None
  /\ timers_set (new_effects s1 s2) = [].
Proof.
  intros Hurl s1 s2.
  destruct (disconnect_fields s) as (_ & Hws0 & _ & Hatt0 & _).
  destruct (@connect_from_scratch ip port (disconnect s) Hws0 Hurl)
    as (Hws1 & Hsock1 & _ & _ & Hrt1 & _ & Hatt1 & _).
  fold s1 in Hws1, Hsock1, Hrt1, Hatt1.
  assert (Hx1 : socket (List.length (sockets (disconnect s))) s1
                = Some (mkWebSocket (server_uri (ip, port)) CONNECTING true true true true)).
  { unfold socket. rewrite Hsock1. apply nth_error_middle. }
  split; [rewrite Hatt1; exact Hatt0|]. split; [exact Hws1|].
  subst s2. unfold close_current. rewrite Hws1.
  rewrite (@step_close_attached _ code _ s1 Hx1); [|discriminate | reflexivity].
  set (sa := update_socket _ (set_readyState CLOSED) s1).
  destruct (@onclose_handler_give_up sa) as (H1 & H2 & _ & _ & H5 & _).
  { change (reconnectAttempts sa) with (reconnectAttempts s1).
    rewrite Hatt1, Hatt0. apply Nat.le_refl. }
  split; [exact H1|]. split; [exact H5|]. split; [rewrite H2; exact Hrt1|].
  rewrite (new_effects_app s1 (onclose_handler sa) _ (onclose_handler_log sa)).
  rewrite !timers_set_app, timers_set_notify_connection, timers_set_rejections.
  unfold backoff_timer_set.
  change (reconnectAttempts sa) with (reconnectAttempts s1).
  rewrite Hatt1, Hatt0. reflexivity.
Qed.

(** ** Manual disconnect, again *)

Lemma disconnect_at_rest (s : State) :
  reconnectTimeout s = None -> wsRef s = None -> pendingRequests s = [] ->
  reconnectAttempts s = maxReconnectAttempts ->
  isConnected s = false -> isConnecting s = false ->
  disconnect s = s.
Proof.
  destruct s; cbn. intros -> -> -> -> -> ->. reflexivity.
Qed.

(** X5. [disconnect] is idempotent: a second call (the clean-up on unmount
    after a manual disconnect, for one) changes nothing and causes no
    effect. *)
Theorem disconnect_idempotent (s : State) :
  disconnect (disconnect s) = disconnect s.
Proof.
  destruct (disconnect_fields s) as (H1 & H2 & H3 & H4 & H5 & H6).
  apply disconnect_at_rest; assumption.
Qed.

(** ** Subscriptions *)

Lemma JsSet_delete_not_In (h : nat) (s : JsSet.t) : ~ In h (JsSet.delete h s).
Proof.
  unfold JsSet.delete. intros H. apply filter_In in H. destruct H as [_ H].
  rewrite Nat.eqb_refl in H. discriminate.
Qed.

Lemma onmessage_handler_notified (parsed : option json) (s : State) :
  notified_message (new_effects s (onmessage_handler parsed s)) = []
  \/ exists data,
       notified_message (new_effects s (onmessage_handler parsed s))
       = map (fun h => (h, data)) (messageHandlers s).
Proof.
  assert (Hnone : notified_message (new_effects s s) = []).
  { unfold new_effects. rewrite skipn_all. reflexivity. }
  unfold onmessage_handler.
  destruct parsed as [data|]; [|left; exact Hnone].
  destruct (get_prop data "request_id") as [rid|]; [|left; exact Hnone].
  right. exists data.
  destruct (if truthy rid then as_key rid else None) as [k|];
    [destruct (JsMap.get k (pendingRequests s)) as [pending|]|];
    (erewrite new_effects_app; [|cbn; rewrite <- ?app_assoc; reflexivity]);
    cbn; apply notified_message_map.
Qed.

(** X6. Once the function returned by [addMessageHandler] has been called,
    the handler is called for no frame any more; likewise a connection
    handler that was unsubscribed is called neither when a socket opens nor
    when it closes. *)
Theorem unsubscribed_handler_is_silent (h : nat) (s : State) :
  (forall parsed data,
     let s' := removeMessageHandler h s in
     ~ In (h, data) (notified_message (new_effects s' (onmessage_handler parsed s'))))
  /\ (forall b,
        let s' := removeConnectionHandler h s in
        ~ In (h, b) (notified_connection (new_effects s' (onopen_handler s')))
        /\ ~ In (h, b) (notified_connection (new_effects s' (onclose_handler s')))).
Proof.
  split.
  - intros parsed data s' Hin.
    destruct (onmessage_handler_notified parsed s') as [E|[d E]];
      rewrite E in Hin; [contradiction|].
    apply in_map_iff in Hin. destruct Hin as [h' [Eh Hin]].
    injection Eh as -> _. exact (JsSet_delete_not_In _ _ Hin).
  - intros b s'. split; intros Hin.
    + rewrite (new_effects_app s' (onopen_handler s')
                 (map (fun h => ENotifyConnection h true) (connectionHandlers s'))
                 eq_refl) in Hin.
      rewrite notified_connection_map in Hin.
      apply in_map_iff in Hin. destruct Hin as [h' [Eh Hin]].
      injection Eh as -> _. exact (JsSet_delete_not_In _ _ Hin).
    + rewrite (new_effects_app s' (onclose_handler s') _ (onclose_handler_log s')) in Hin.
      rewrite !notified_connection_app, notified_connection_map,
        notified_connection_rejections in Hin.
      assert (Ht : notified_connection (backoff_timer_set s') = [])
        by (unfold backoff_timer_set; destruct (_ <? _)%nat; reflexivity).
      rewrite Ht, !app_nil_r in Hin.
      apply in_map_iff in Hin. destruct Hin as [h' [Eh Hin]].
      injection Eh as -> _. exact (JsSet_delete_not_In _ _ Hin).
Qed.

(** ** Responses *)

Lemma JsMap_get_delete {V : Type} (k : string) (m : JsMap.t V) :
  NoDup (JsMap.keys m) -> JsMap.get k (JsMap.delete k m) = None.
Proof.
  intros Hnd. destruct (JsMap.get k (JsMap.delete k m)) as [v|] eqn:E; [|reflexivity].
  apply JsMap_get_In in E. exfalso.
  exact (@JsMap_delete_key _ k k v m Hnd E eq_refl).
Qed.

Lemma onmessage_no_match (data : json) (s : State) :
  (forall rid k, get_prop data "request_id" = Returns rid ->
                 (if truthy rid then as_key rid else None) = Some k ->
                 JsMap.get k (pendingRequests s) = None) ->
  onmessage_handler (Some data) s = s
  \/ onmessage_handler (Some data) s = notifyMessageHandlers data s.
Proof.
  intros H. unfold onmessage_handler.
  destruct (get_prop data "request_id") as [rid|]; [|left; reflexivity].
  right. destruct (if truthy rid then as_key rid else None) as [k|] eqn:Ek; [|reflexivity].
  rewrite (H rid k eq_refl Ek). reflexivity.
Qed.

Lemma onmessage_key_gone (data : json) (rid : option json) (k : string) (s : State) :
  NoDup (JsMap.keys (pendingRequests s)) ->
  get_prop data "request_id" = Returns rid ->
  (if truthy rid then as_key rid else None) = Some k ->
  JsMap.get k (pendingRequests (onmessage_handler (Some data) s)) = None.
Proof.
  intros Hnd Hrid Ek. unfold onmessage_handler. rewrite Hrid, Ek.
  destruct (JsMap.get k (pendingRequests s)) as [pending|] eqn:Eg; cbn.
  - apply JsMap_get_delete. exact Hnd.
  - exact Eg.
Qed.

(** X7. A response delivered twice resolves its request once. Whatever the
    frame, after the handler has treated it a second delivery of the same
    frame leaves the pending table and the timers as they are and settles
    no promise. *)
Theorem duplicate_response_ignored (data : json) (s : State) :
  NoDup (JsMap.keys (pendingRequests s)) ->
  let s1 := onmessage_handler (Some data) s in
  let s2 := onmessage_handler (Some data) s1 in
  pendingRequests s2 = pendingRequests s1
  /\ timers s2 = timers s1
  /\ forall p, settlements p (new_effects s1 s2) = [].
Proof.
  intros Hnd s1 s2.
  destruct (@onmessage_no_match data s1) as [E|E].
  { intros rid k Hrid Ek. subst s1. apply (@onmessage_key_gone data rid k s Hnd Hrid Ek). }
  - subst s2. rewrite E. repeat split. intros p.
    unfold new_effects. rewrite skipn_all. reflexivity.
  - subst s2. rewrite E. repeat split. intros p.
    rewrite (new_effects_app s1 (notifyMessageHandlers data s1)
               (map (fun h => ENotifyMessage h data) (messageHandlers s1)) eq_refl).
    apply settlements_notify_message.
Qed.

(** ** The frame of a request *)

Lemma JsMap_get_set_same {V : Type} (k : string) (v : V) (m : JsMap.t V) :
  JsMap.get k (JsMap.set k v m) = Some v.
Proof.
  induction m as [|[k' v'] m IH]; cbn.
  - rewrite String.eqb_refl. reflexivity.
  - destruct (String.eqb k k') eqn:E; cbn.
    + rewrite String.eqb_refl. reflexivity.
    + rewrite E. exact IH.
Qed.

Lemma JsMap_get_set_other {V : Type} (k k0 : string) (v : V) (m : JsMap.t V) :
  k <> k0 -> JsMap.get k (JsMap.set k0 v m) = JsMap.get k m.
Proof.
  intros Hne. apply String.eqb_neq in Hne.
  induction m as [|[k' v'] m IH]; cbn.
  - rewrite Hne. reflexivity.
  - destruct (String.eqb k0 k') eqn:E; cbn.
    + apply String.eqb_eq in E. subst k'. rewrite Hne. reflexivity.
    + destruct (String.eqb k k'); [reflexivity | exact IH].
Qed.

Lemma JsMap_has_cons {V : Type} (k k0 : string) (v : V) (m : JsMap.t V) :
  JsMap.has k ((k0, v) :: m) = false -> k <> k0 /\ JsMap.has k m = false.
Proof.
  unfold JsMap.has. cbn. destruct (String.eqb k k0) eqn:E; [discriminate|].
  apply String.eqb_neq in E. intros H. split; assumption.
Qed.

Lemma get_spread_absent {V : Type} (k : string) (params base : list (string * V)) :
  JsMap.has k params = false ->
  JsMap.get k (fold_left (fun o kv => JsMap.set (fst kv) (snd kv) o) params base)
  = JsMap.get k base.
Proof.
  revert base. induction params as [|[k0 v0] params IH]; intros base H; [reflexivity|].
  apply JsMap_has_cons in H. destruct H as [Hne H].
  cbn [fold_left fst snd]. rewrite (IH _ H). apply JsMap_get_set_other. exact Hne.
Qed.

Lemma JsMap_not_key_has {V : Type} (k : string) (m : JsMap.t V) :
  ~ In k (JsMap.keys m) -> JsMap.has k m = false.
Proof.
  intros H. unfold JsMap.has.
  destruct (JsMap.get k m) as [v|] eqn:E; [|reflexivity].
  exfalso. apply H. apply JsMap_get_In in E. apply (in_map fst) in E. exact E.
Qed.

Lemma get_spread_present {V : Type} (k : string) (v : V)
    (params base : list (string * V)) :
  NoDup (JsMap.keys params) -> In (k, v) params ->
  JsMap.get k (fold_left (fun o kv => JsMap.set (fst kv) (snd kv) o) params base)
  = Some v.
Proof.
  revert base. induction params as [|[k0 v0] params IH]; intros base Hnd Hin;
    [contradiction|].
  inversion Hnd as [|? ? Hnot Hnd']; subst. cbn [fold_left fst snd].
  destruct Hin as [E|Hin].
  - injection E as -> ->.
    rewrite get_spread_absent by (apply JsMap_not_key_has; exact Hnot).
    apply JsMap_get_set_same.
  - exact (IH _ Hnd' Hin).
Qed.

(** ** Table and timers *)

(** X9. In every state reached without a collision of identifiers the
    table and the armed request timers correspond one to one: the keys of
    the table are pairwise distinct, every entry has its own 30 s timer
    armed and an unsettled promise, and every armed request timer is the
    timer of the entry under its identifier. No timer of a settled request
    stays armed. *)
Theorem timers_match_table (es : list Event) :
  collision_free url_accepted es initial_state ->
  let s := run url_accepted es initial_state in
  NoDup (JsMap.keys (pendingRequests s))
  /\ (forall id pd, In (id, pd) (pendingRequests s) ->
        find_timer (timeout pd) s
        = Some (mkTimer (timeout pd) 30000 (TRequestTimeout id (promise pd)))
        /\ settlements (promise pd) (log s) = [])
  /\ (forall t id p, In t (timers s) -> action t = TRequestTimeout id p ->
        JsMap.get id (pendingRequests s) = Some (mkPending p (handle t))
        /\ settlements p (log s) = []).
Proof.
  intros Hcf s.
  assert (HI : Inv s) by (apply Inv_run; [apply Inv_initial | exact Hcf]).
  clearbody s. split; [exact (inv_keys HI)|]. split.
  - intros id pd Hin. destruct (inv_entry HI id pd Hin) as (H1 & H2 & _).
    split; [|exact H2].
    exact (@find_armed (timers s) _ (inv_handles HI) H1).
  - intros t id p Ht Ha. pose proof (inv_timer HI t Ht Ha) as Hin.
    split; [exact (@JsMap_In_get _ _ _ _ (inv_keys HI) Hin)|].
    exact (proj1 (proj2 (inv_entry HI id _ Hin))).
Qed.

(** ** One transport at a time *)

Lemma retired_closing (f : WebSocket -> WebSocket) (x : WebSocket) :
  onclose (f x) = false -> readyState (f x) = readyState x ->
  retired (closing (f x)).
Proof.
  intros Hc Hr. unfold retired, closing.
  destruct (readyState (f x)) eqn:E; cbn; rewrite ?E, ?Hc; auto.
Qed.

Lemma OneSocket_same (s s' : State) :
  sockets s' = sockets s -> wsRef s' = wsRef s -> OneSocket s -> OneSocket s'.
Proof.
  intros Hs Hw [H1 H2]. constructor.
  - intros w. rewrite Hw, Hs. apply H1.
  - intros w x. unfold socket. rewrite Hs, Hw. apply H2.
Qed.

Lemma let_go_retired (f : WebSocket -> WebSocket) (s : State) :
  (forall x, onclose (f x) = false /\ readyState (f x) = readyState x) ->
  OneSocket s ->
  forall w x, nth_error (let_go f s) w = Some x -> retired x.
Proof.
  intros Hf [H1 H2] w x Hx. unfold let_go in Hx.
  destruct (wsRef s) as [w0|] eqn:Ew.
  - destruct (Nat.eq_dec w w0) as [->|Hne].
    + rewrite !nth_error_update_nth in Hx.
      destruct (nth_error (sockets s) w0) as [x0|]; cbn in Hx; [|discriminate].
      injection Hx as <-. destruct (Hf x0). apply retired_closing; assumption.
    + rewrite !nth_error_update_nth_ne in Hx by congruence.
      apply (H2 w x Hx). congruence.
  - apply (H2 w x Hx). congruence.
Qed.

Lemma let_go_length (f : WebSocket -> WebSocket) (s : State) :
  List.length (let_go f s) = List.length (sockets s).
Proof.
  unfold let_go. destruct (wsRef s); [|reflexivity].
  rewrite !length_update_nth. reflexivity.
Qed.

Lemma OneSocket_none (s : State) :
  wsRef s = None -> (forall w x, socket w s = Some x -> retired x) -> OneSocket s.
Proof.
  intros Hw H. constructor; [intros w E; congruence|].
  intros w x Hx _. exact (H w x Hx).
Qed.

Lemma OneSocket_fresh (s : State) (old : list WebSocket) (x : WebSocket) :
  wsRef s = Some (List.length old) -> sockets s = old ++ [x] ->
  (forall w y, nth_error old w = Some y -> retired y) -> OneSocket s.
Proof.
  intros Hw Hs H. constructor.
  - intros w E. rewrite Hw in E. injection E as <-.
    rewrite Hs, length_app. cbn. lia.
  - intros w y Hy Hne. unfold socket in Hy. rewrite Hs in Hy. rewrite Hw in Hne.
    assert (Hlt : (w < List.length old)%nat).
    { assert (Hsome : nth_error (old ++ [x]) w <> None) by congruence.
      apply nth_error_Some in Hsome. rewrite length_app in Hsome. cbn in Hsome.
      assert (w <> List.length old) by congruence. lia. }
    rewrite nth_error_app1 in Hy by exact Hlt. exact (H w y Hy).
Qed.

Lemma connect_sockets (ip port : string) (s : State) :
  ws_is_open s = false ->
  let s' := connect url_accepted ip port s in
  if url_accepted (server_uri (ip, port))
  then wsRef s' = Some (List.length (let_go clear_handlers s))
       /\ sockets s'
          = let_go clear_handlers s
            ++ [mkWebSocket (server_uri (ip, port)) CONNECTING true true true true]
  else wsRef s' = None /\ sockets s' = let_go clear_handlers s.
Proof.
  intros Hopen s'. subst s'. unfold connect, connect_with, let_go. rewrite Hopen.
  change ("ws://" ++ ip ++ ":" ++ port)%string with (server_uri (ip, port)).
  destruct (url_accepted (server_uri (ip, port)));
    destruct (reconnectTimeout s) as [h|], (wsRef s) as [w|] eqn:Ew;
    cbn -[server_uri]; rewrite ?Ew; cbn -[server_uri];
    rewrite ?length_update_nth; split; first [reflexivity | exact Ew].
Qed.

Lemma OneSocket_connect (ip port : string) (s : State) :
  OneSocket s -> OneSocket (connect url_accepted ip port s).
Proof.
  intros H1. destruct (ws_is_open s) eqn:Hopen.
  - unfold connect, connect_with. rewrite Hopen. exact H1.
  - pose proof (@connect_sockets ip port s Hopen) as Hc. cbv zeta in Hc.
    assert (Hret : forall w x, nth_error (let_go clear_handlers s) w = Some x -> retired x).
    { apply let_go_retired; [intros x; split; reflexivity | exact H1]. }
    destruct (url_accepted (server_uri (ip, port))); destruct Hc as [Hw Hs].
    + exact (@OneSocket_fresh _ _ _ Hw Hs Hret).
    + apply OneSocket_none; [exact Hw|]. unfold socket. rewrite Hs. exact Hret.
Qed.

Lemma OneSocket_disconnect (s : State) : OneSocket s -> OneSocket (disconnect s).
Proof.
  intros H1. destruct (disconnect_fields s) as (_ & Hw & _).
  apply OneSocket_none; [exact Hw|]. unfold socket. rewrite disconnect_sockets.
  apply (@let_go_retired clear_onclose s); [intros x; split; reflexivity | exact H1].
Qed.

Lemma onclose_handler_sockets (s : State) :
  sockets (onclose_handler s) = sockets s /\ wsRef (onclose_handler s) = None.
Proof.
  unfold onclose_handler. rewrite reject_all_eq.
  destruct (_ <? _)%nat; split; reflexivity.
Qed.

Lemma sendRequest_sockets (act : string) (params : list (string * json))
    (draws : nat -> Q) (send_error : option string) (s : State) :
  sockets (snd (sendRequest act params draws send_error s)) = sockets s
  /\ wsRef (snd (sendRequest act params draws send_error s)) = wsRef s.
Proof.
  unfold sendRequest, new_promise.
  change (ws_is_open (set_next_promise (S (next_promise s)) s)) with (ws_is_open s).
  cbn [wsRef set_next_promise].
  destruct (wsRef s) as [w|] eqn:Ew; [|split; [reflexivity | exact Ew]].
  destruct (ws_is_open s); [|split; [reflexivity | exact Ew]].
  destruct send_error; split; first [reflexivity | exact Ew].
Qed.

Lemma OneSocket_update (w : nat) (f : WebSocket -> WebSocket) (s : State) :
  OneSocket s ->
  (forall x, socket w s = Some x -> wsRef s <> Some w -> retired (f x)) ->
  OneSocket (update_socket w f s).
Proof.
  intros [H1 H2] Hf. constructor.
  - intros w0 E. cbn [update_socket set_sockets sockets]. rewrite length_update_nth.
    exact (H1 w0 E).
  - intros w0 x Hx Hne. unfold socket in Hx. cbn [update_socket set_sockets sockets wsRef] in *.
    destruct (Nat.eq_dec w0 w) as [->|Hn].
    + rewrite nth_error_update_nth in Hx.
      destruct (nth_error (sockets s) w) as [x0|] eqn:E; cbn in Hx; [|discriminate].
      injection Hx as <-. exact (Hf x0 E Hne).
    + rewrite nth_error_update_nth_ne in Hx by congruence. exact (H2 w0 x Hx Hne).
Qed.

Lemma OneSocket_step (e : Event) (s : State) :
  OneSocket s -> OneSocket (step url_accepted e s).
Proof.
  intros H1.
  destruct e as [ip port| |act params draws send_error|h|h|h|h|w|w parsed|w|w|w code|h];
    cbn [step].
  - apply OneSocket_connect. exact H1.
  - apply OneSocket_disconnect. exact H1.
  - destruct (sendRequest_sockets act params draws send_error s) as [Hs Hw].
    exact (@OneSocket_same s _ Hs Hw H1).
  - (apply (@OneSocket_same s); [reflexivity | reflexivity | exact H1]).
  - (apply (@OneSocket_same s); [reflexivity | reflexivity | exact H1]).
  - (apply (@OneSocket_same s); [reflexivity | reflexivity | exact H1]).
  - (apply (@OneSocket_same s); [reflexivity | reflexivity | exact H1]).
  - destruct (socket w s) as [x|] eqn:Ex; [|exact H1].
    destruct (readyState x) eqn:Er; try exact H1.
    assert (Hu : OneSocket (update_socket w (set_readyState OPEN) s)).
    { apply OneSocket_update; [exact H1|]. intros x0 Hx0 Hne.
      rewrite Hx0 in Ex. injection Ex as ->.
      destruct (@one_retired _ H1 w _ Hx0 Hne) as [[E|E] _]; congruence. }
    destruct (onopen x); [|exact Hu].
    apply (@OneSocket_same (update_socket w (set_readyState OPEN) s));
      [reflexivity | reflexivity | exact Hu].
  - destruct (socket w s) as [x|]; [|exact H1].
    destruct (onmessage_handler_frame parsed s) as (_ & Hw & Hs & _).
    destruct (readyState x); try exact H1;
      (destruct (onmessage x); [|exact H1]); exact (@OneSocket_same s _ Hs Hw H1).
  - exact H1.
  - destruct (socket w s) as [x|] eqn:Ex; [|exact H1].
    destruct (readyState x) eqn:Er; try exact H1.
    apply OneSocket_update; [exact H1|]. intros x0 Hx0 Hne.
    rewrite Hx0 in Ex. injection Ex as ->.
    destruct (@one_retired _ H1 w _ Hx0 Hne) as [[E|E] _]; congruence.
  - destruct (socket w s) as [x|] eqn:Ex; [|exact H1].
    assert (Hu : OneSocket (update_socket w (set_readyState CLOSED) s)).
    { apply OneSocket_update; [exact H1|]. intros x0 _ _.
      split; right; reflexivity. }
    assert (Hh : readyState x <> CLOSED -> onclose x = true ->
                 OneSocket (onclose_handler (update_socket w (set_readyState CLOSED) s))).
    { intros Hr Hc.
      assert (Hcur : wsRef s = Some w).
      { destruct (wsRef s) as [w1|] eqn:Ew.
        - destruct (Nat.eq_dec w1 w) as [->|Hn]; [reflexivity|].
          assert (Hne : Some w1 <> Some w) by congruence.
          rewrite <- Ew in Hne.
          destruct (@one_retired _ H1 w _ Ex Hne) as [_ [E|E]]; congruence.
        - assert (Hne : wsRef s <> Some w) by congruence.
          destruct (@one_retired _ H1 w _ Ex Hne) as [_ [E|E]]; congruence. }
      destruct (onclose_handler_sockets (update_socket w (set_readyState CLOSED) s))
        as [Hs Hw].
      apply OneSocket_none; [exact Hw|]. unfold socket. rewrite Hs.
      intros w0 x0 Hx0. cbn [update_socket set_sockets sockets] in Hx0.
      destruct (Nat.eq_dec w0 w) as [->|Hn].
      - rewrite nth_error_update_nth in Hx0.
        destruct (nth_error (sockets s) w); cbn in Hx0; [|discriminate].
        injection Hx0 as <-. split; right; reflexivity.
      - rewrite nth_error_update_nth_ne in Hx0 by congruence.
        apply (@one_retired _ H1 w0 _ Hx0). rewrite Hcur. congruence. }
    destruct (readyState x) eqn:Er; try exact H1;
      (destruct (onclose x) eqn:Ec; [apply Hh; [discriminate | reflexivity] | exact Hu]).
  - destruct (find_timer h s) as [t|]; [|exact H1].
    set (s1 := set_timers _ s).
    assert (Hs1 : OneSocket s1)
      by (apply (@OneSocket_same s); [reflexivity | reflexivity | exact H1]).
    destruct (action t) as [|id p]; cbn [run_timer].
    + unfold reconnect_timer. apply OneSocket_connect.
      apply (@OneSocket_same s1); [reflexivity | reflexivity | exact Hs1].
    + destruct (request_timeout_frame id p s1) as (_ & Hw & Hs & _).
      exact (@OneSocket_same s1 _ Hs Hw Hs1).
Qed.

Lemma OneSocket_run (es : list Event) (s : State) :
  OneSocket s -> OneSocket (run url_accepted es s).
Proof.
  revert s. induction es as [|e es IH]; intros s H; [exact H|].
  cbn [run fold_left]. apply IH. apply OneSocket_step. exact H.
Qed.

(** X10. Whatever happens, the manager never has two transports alive. In
    every reachable state a socket other than the current one is closing or
    closed and will not report its close, so that only the current socket
    can be connecting or open: two sockets that are connecting or open are
    the same socket, the current one. *)
Theorem one_transport_alive (es : list Event) :
  let s := run url_accepted es initial_state in
  (forall w x, socket w s = Some x -> wsRef s <> Some w -> retired x)
  /\ forall w1 w2 x1 x2,
       socket w1 s = Some x1 -> socket w2 s = Some x2 ->
       alive x1 = true -> alive x2 = true ->
       w1 = w2 /\ wsRef s = Some w1.
Proof.
  intros s.
  assert (H : OneSocket s).
  { apply OneSocket_run. apply OneSocket_none; [reflexivity|].
    intros [|w] x Hx; discriminate. }
  clearbody s. split; [exact (@one_retired _ H)|].
  assert (Hcur : forall w x, socket w s = Some x -> alive x = true -> wsRef s = Some w).
  { intros w x Hx Ha. destruct (wsRef s) as [w0|] eqn:Ew.
    - destruct (Nat.eq_dec w0 w) as [->|Hn]; [reflexivity|].
      assert (Hne : Some w0 <> Some w) by congruence. rewrite <- Ew in Hne.
      destruct (@one_retired _ H w _ Hx Hne) as [[E|E] _];
        unfold alive in Ha; rewrite E in Ha; discriminate.
    - assert (Hne : wsRef s <> Some w) by congruence.
      destruct (@one_retired _ H w _ Hx Hne) as [[E|E] _];
        unfold alive in Ha; rewrite E in Ha; discriminate. }
  intros w1 w2 x1 x2 Hx1 Hx2 Ha1 Ha2.
  pose proof (Hcur w1 x1 Hx1 Ha1) as E1. pose proof (Hcur w2 x2 Hx2 Ha2) as E2.
  split; [congruence | exact E1].
Qed.

(** ** At most one settlement, collisions included *)

Lemma Once_neutral (s s' : State) : Neutral s s' -> Once s -> Once s'.
Proof.
  intros [Hp Ht Hq Hsub Hnd Hkeep [es [Hl [Hset Htim]]] Hr]
         [Okeys Ohand Ofresh Oentry Oarmed Oprom Orec Oset Ounborn].
  assert (Hs : forall p, settlements p (log s') = settlements p (log s)).
  { intros p. rewrite Hl, settlements_app, Hset, app_nil_r. reflexivity. }
  constructor.
  - rewrite Hp. exact Okeys.
  - exact Hnd.
  - intros t H. rewrite Ht. auto.
  - intros id pd H. rewrite Hp in H. apply Hkeep; [exact (Oentry id pd H) | discriminate].
  - intros t id p H Ha. rewrite Hs, Hq. exact (Oarmed t id p (Hsub t H) Ha).
  - intros t1 t2 id1 id2 p H1 H2. exact (Oprom t1 t2 id1 id2 p (Hsub t1 H1) (Hsub t2 H2)).
  - intros h Hh. destruct Hr as [Hr|Hr]; [congruence|]. rewrite Hr in Hh.
    destruct (Orec h Hh) as [H1 H2]. rewrite Ht. split; [exact H1|]. auto.
  - intros p. rewrite Hs. apply Oset.
  - intros p H. rewrite Hs. apply Ounborn. rewrite <- Hq. exact H.
Qed.

Lemma NoDup_map_transfer {A B C : Type} (f : A -> B) (g : A -> C) (l : list A) :
  NoDup (map f l) ->
  (forall x y, In x l -> In y l -> g x = g y -> f x = f y) ->
  NoDup (map g l).
Proof.
  induction l as [|a l IH]; cbn; intros Hnd Hinj; constructor.
  - inversion Hnd as [|? ? Hnot _]; subst. intros Hin. apply Hnot.
    apply in_map_iff in Hin. destruct Hin as [y [E Hy]].
    rewrite <- (Hinj y a (or_intror Hy) (or_introl eq_refl) E).
    apply in_map. exact Hy.
  - inversion Hnd; subst. apply IH; [assumption|].
    intros x y Hx Hy. apply Hinj; right; assumption.
Qed.

(** The entries of the table belong to different promises. *)
Lemma Once_entries_differ (s : State) :
  Once s -> NoDup (map (fun e => promise (snd e)) (pendingRequests s)).
Proof.
  intros [Okeys _ _ Oentry _ Oprom _ _ _].
  apply (@NoDup_map_transfer _ _ _ fst); [exact Okeys|].
  intros [id1 pd1] [id2 pd2] H1 H2 E. cbn [snd fst] in *.
  pose proof (Oentry id1 pd1 H1) as T1. pose proof (Oentry id2 pd2 H2) as T2.
  pose proof (Oprom _ _ id1 id2 (promise pd1) T1 T2 eq_refl) as Heq.
  cbn [action] in Heq. rewrite E in Heq. specialize (Heq eq_refl).
  injection Heq as _ Ei. exact Ei.
Qed.

Lemma Once_reject_all (reason : JsError) (s : State) :
  Once s -> Once (reject_all reason s).
Proof.
  intros HO. pose proof (Once_entries_differ HO) as Hdiff.
  destruct HO as [Okeys Ohand Ofresh Oentry Oarmed Oprom Orec Oset Ounborn].
  rewrite reject_all_eq.
  assert (Habsent : forall t id p, In t (timers s) -> action t = TRequestTimeout id p ->
            ~ In (handle t) (map (fun e => timeout (snd e)) (pendingRequests s)) ->
            forall e, In e (pendingRequests s) -> promise (snd e) <> p).
  { intros t id p Ht Ha Hn [k pd] Hin E. cbn [snd] in E. apply Hn.
    pose proof (Oentry k pd Hin) as Tk.
    pose proof (Oprom _ _ k id p Tk Ht) as Heq. cbn [action] in Heq.
    rewrite E in Heq. specialize (Heq eq_refl Ha). subst t.
    apply in_map_iff. exists (k, pd). split; [reflexivity | exact Hin]. }
  constructor;
    cbn [pendingRequests timers next_timer next_promise log reconnectTimeout
         set_pendingRequests set_log set_timers].
  - constructor.
  - apply NoDup_map_filter. exact Ohand.
  - intros t Ht. apply In_disarm in Ht. apply Ofresh. exact (proj1 Ht).
  - intros id pd [].
  - intros t id p Ht Ha. apply In_disarm in Ht. destruct Ht as [Ht Hn].
    destruct (Oarmed t id p Ht Ha) as [H1 H2]. split; [|exact H2].
    rewrite settlements_app, H1. cbn [app].
    apply settlements_rejections_absent. exact (Habsent t id p Ht Ha Hn).
  - intros t1 t2 id1 id2 p H1 H2. apply In_disarm in H1, H2.
    exact (Oprom t1 t2 id1 id2 p (proj1 H1) (proj1 H2)).
  - intros h Hh. destruct (Orec h Hh) as [H1 H2]. split; [exact H1|].
    intros t Ht. apply In_disarm in Ht. apply H2. exact (proj1 Ht).
  - intros p. rewrite settlements_app, length_app.
    destruct (in_dec Nat.eq_dec p (map (fun e => promise (snd e)) (pendingRequests s)))
      as [Hin|Hnot].
    + apply in_map_iff in Hin. destruct Hin as [[k pd] [E Hin]]. cbn [snd] in E. subst p.
      rewrite (@settlements_rejections_once reason _ k pd Hdiff Hin).
      destruct (Oarmed _ k (promise pd) (Oentry k pd Hin) eq_refl) as [H1 _].
      rewrite H1. cbn. lia.
    + rewrite settlements_rejections_absent.
      * cbn. rewrite Nat.add_0_r. apply Oset.
      * intros e He E. apply Hnot. rewrite <- E.
        apply (in_map (fun e => promise (snd e))). exact He.
  - intros p Hp. rewrite settlements_app, (Ounborn p Hp).
    apply settlements_rejections_absent.
    intros [k pd] Hin E. cbn [snd] in E.
    destruct (Oarmed _ k (promise pd) (Oentry k pd Hin) eq_refl) as [_ Hlt]. lia.
Qed.

Lemma Once_reconnect_timer (ms : Z) (s : State) :
  Once s ->
  Once (set_reconnectTimeout (Some (fst (setTimeout TReconnect ms s)))
          (snd (setTimeout TReconnect ms s))).
Proof.
  intros [Okeys Ohand Ofresh Oentry Oarmed Oprom Orec Oset Ounborn].
  constructor;
    cbn [setTimeout fst snd emit pendingRequests timers next_timer next_promise log
         reconnectTimeout set_reconnectTimeout set_log set_timers set_next_timer].
  - exact Okeys.
  - apply NoDup_map_snoc; [exact Ohand|]. cbn [handle].
    intros Hin. apply in_map_iff in Hin. destruct Hin as [t [E Ht]].
    specialize (Ofresh t Ht). lia.
  - intros t Ht. apply in_app_or in Ht. destruct Ht as [Ht|[<-|[]]].
    + specialize (Ofresh t Ht). lia.
    + cbn. lia.
  - intros id pd Hin. apply in_or_app. left. exact (Oentry id pd Hin).
  - intros t id p Ht Ha. rewrite settlements_app, app_nil_r.
    apply in_app_or in Ht. destruct Ht as [Ht|[<-|[]]]; [|discriminate].
    exact (Oarmed t id p Ht Ha).
  - intros t1 t2 id1 id2 p H1 H2 A1 A2.
    apply in_app_or in H1, H2.
    destruct H1 as [H1|[<-|[]]]; [|discriminate].
    destruct H2 as [H2|[<-|[]]]; [|discriminate].
    exact (Oprom t1 t2 id1 id2 p H1 H2 A1 A2).
  - intros h Hh. injection Hh as <-. split; [lia|].
    intros t Ht Eh. apply in_app_or in Ht. destruct Ht as [Ht|[<-|[]]].
    + specialize (Ofresh t Ht). lia.
    + reflexivity.
  - intros p. rewrite settlements_app, app_nil_r. apply Oset.
  - intros p Hp. rewrite settlements_app, (Ounborn p Hp). reflexivity.
Qed.

Lemma JsMap_delete_set {V : Type} (k : string) (v : V) (m : JsMap.t V) :
  JsMap.delete k (JsMap.set k v m) = JsMap.delete k m.
Proof.
  induction m as [|[k' v'] m IH]; cbn.
  - rewrite String.eqb_refl. reflexivity.
  - destruct (String.eqb k k') eqn:E; cbn.
    + rewrite String.eqb_refl. reflexivity.
    + rewrite E, IH. reflexivity.
Qed.

Lemma JsMap_In_set {V : Type} (k id : string) (v v' : V) (m : JsMap.t V) :
  In (id, v') (JsMap.set k v m) -> (id = k /\ v' = v) \/ In (id, v') m.
Proof.
  induction m as [|[k0 v0] m IH]; cbn.
  - intros [H|[]]. injection H as <- <-. left. split; reflexivity.
  - destruct (String.eqb k k0) eqn:E; cbn.
    + intros [H|H]; [injection H as <- <-; left; split; reflexivity | right; right; exact H].
    + intros [H|H]; [right; left; exact H|].
      destruct (IH H) as [H'|H']; [left; exact H' | right; right; exact H'].
Qed.

Lemma JsMap_set_keys_NoDup {V : Type} (k : string) (v : V) (m : JsMap.t V) :
  NoDup (JsMap.keys m) -> NoDup (JsMap.keys (JsMap.set k v m)).
Proof.
  unfold JsMap.keys. induction m as [|[k0 v0] m IH]; cbn; intros Hnd.
  - constructor; [intros [] | constructor].
  - inversion Hnd as [|? ? Hnot Hnd']; subst.
    destruct (String.eqb k k0) eqn:E; cbn.
    + apply String.eqb_eq in E. subst k0. constructor; assumption.
    + constructor; [|exact (IH Hnd')].
      intros Hin. apply in_map_iff in Hin. destruct Hin as [[id v'] [Eid Hin]].
      cbn in Eid. subst id. destruct (JsMap_In_set _ _ _ _ _ Hin) as [[Ek _]|Hin'].
      * subst k0. rewrite String.eqb_refl in E. discriminate.
      * apply Hnot. apply (in_map fst) in Hin'. exact Hin'.
Qed.

Lemma connect_neutral_once (ip port : string) (s : State) :
  Once s -> Neutral s (connect url_accepted ip port s).
Proof.
  intros HO. pose proof (once_handles HO) as Hnd.
  unfold connect, connect_with.
  destruct (ws_is_open s); [apply Neutral_refl; exact Hnd|].
  destruct (reconnectTimeout s) as [h|] eqn:Er.
  - destruct (once_reconnect HO Er) as [_ Hh].
    cbn [wsRef setIsConnecting set_serverConfig set_reconnectTimeout clearTimeout
         emit set_log set_timers].
    destruct (wsRef s) as [w|]; destruct (url_accepted _);
      (apply (@Neutral_cleared' s _ h Hnd Hh);
       [reflexivity | reflexivity | reflexivity | reflexivity
       | neutral_log | left; reflexivity]).
  - cbn [wsRef setIsConnecting set_serverConfig].
    destruct (wsRef s) as [w|]; destruct (url_accepted _);
      (apply (@Neutral_kept' s _ Hnd);
       [reflexivity | reflexivity | reflexivity | reflexivity
       | neutral_log | right; reflexivity]).
Qed.

(** The timer [t] of a request goes, with at most the entry under its
    identifier, and only its promise may be settled, once. *)
Lemma Once_drop (s s' : State) (t : Timer) (id : string) (p : nat)
    (es : list Effect) :
  Once s ->
  In t (timers s) -> action t = TRequestTimeout id p ->
  NoDup (JsMap.keys (pendingRequests s')) ->
  (forall id' pd, In (id', pd) (pendingRequests s') ->
     In (id', pd) (pendingRequests s) /\ id' <> id) ->
  timers s' = filter (fun t' => negb (Nat.eqb (handle t') (handle t))) (timers s) ->
  next_timer s' = next_timer s ->
  next_promise s' = next_promise s ->
  reconnectTimeout s' = reconnectTimeout s ->
  log s' = log s ++ es ->
  (forall q, q <> p -> settlements q es = []) ->
  (List.length (settlements p es) <= 1)%nat ->
  Once s'.
Proof.
  intros [Okeys Ohand Ofresh Oentry Oarmed Oprom Orec Oset Ounborn]
         Ht Ha Hkeys Hsub Htim Hnt Hnp Hr Hl Hes Hone.
  destruct (Oarmed t id p Ht Ha) as [Hunset Hlt].
  constructor.
  - exact Hkeys.
  - rewrite Htim. apply NoDup_map_filter. exact Ohand.
  - intros t' H. rewrite Htim in H. apply In_clear in H. rewrite Hnt.
    apply Ofresh. exact (proj1 H).
  - intros id' pd H. destruct (Hsub id' pd H) as [Hin Hne].
    pose proof (Oentry id' pd Hin) as HT. rewrite Htim. apply In_clear.
    split; [exact HT|]. cbn [handle]. intros E.
    pose proof (@NoDup_map_inj _ _ handle (timers s) _ t Ohand HT Ht E) as Heq.
    rewrite <- Heq in Ha. cbn [action] in Ha. injection Ha as Hid _. exact (Hne Hid).
  - intros t' id' p' H Ha'. rewrite Htim in H. apply In_clear in H.
    destruct H as [H Hh]. destruct (Oarmed t' id' p' H Ha') as [H1 H2].
    rewrite Hnp, Hl, settlements_app, H1. split; [|exact H2]. cbn [app].
    apply Hes. intros ->. apply Hh.
    rewrite (Oprom t' t id' id p H Ht Ha' Ha). reflexivity.
  - intros t1 t2 id1 id2 q H1 H2. rewrite Htim in H1, H2.
    apply In_clear in H1, H2.
    exact (Oprom t1 t2 id1 id2 q (proj1 H1) (proj1 H2)).
  - intros h Hh. rewrite Hr in Hh. destruct (Orec h Hh) as [H1 H2].
    rewrite Hnt. split; [exact H1|].
    intros t' H. rewrite Htim in H. apply In_clear in H. apply H2. exact (proj1 H).
  - intros q. rewrite Hl, settlements_app, length_app.
    destruct (Nat.eq_dec q p) as [->|Hne].
    + rewrite Hunset. exact Hone.
    + rewrite (Hes q Hne). cbn. rewrite Nat.add_0_r. apply Oset.
  - intros q Hq. rewrite Hnp in Hq.
    rewrite Hl, settlements_app, (Ounborn q Hq). cbn [app].
    apply Hes. lia.
Qed.

(** A promise is created, and settled at most once, in a call that leaves
    no timer behind. *)
Lemma Once_born (s s' : State) (es : list Effect) :
  Once s ->
  NoDup (JsMap.keys (pendingRequests s')) ->
  (forall e, In e (pendingRequests s') -> In e (pendingRequests s)) ->
  timers s' = timers s ->
  (next_timer s <= next_timer s')%nat ->
  next_promise s' = S (next_promise s) ->
  reconnectTimeout s' = reconnectTimeout s ->
  log s' = log s ++ es ->
  (forall q, q <> next_promise s -> settlements q es = []) ->
  (List.length (settlements (next_promise s) es) <= 1)%nat ->
  Once s'.
Proof.
  intros [Okeys Ohand Ofresh Oentry Oarmed Oprom Orec Oset Ounborn]
         Hkeys Hsub Htim Hnt Hnp Hr Hl Hes Hone.
  constructor.
  - exact Hkeys.
  - rewrite Htim. exact Ohand.
  - intros t H. rewrite Htim in H. specialize (Ofresh t H). lia.
  - intros id pd H. rewrite Htim. apply Oentry. apply Hsub. exact H.
  - intros t id p H Ha. rewrite Htim in H. destruct (Oarmed t id p H Ha) as [H1 H2].
    rewrite Hnp, Hl, settlements_app, H1. split; [|lia]. cbn [app]. apply Hes. lia.
  - rewrite Htim. exact Oprom.
  - intros h Hh. rewrite Hr in Hh. destruct (Orec h Hh) as [H1 H2].
    rewrite Htim. split; [lia | exact H2].
  - intros q. rewrite Hl, settlements_app, length_app.
    destruct (Nat.eq_dec q (next_promise s)) as [->|Hne].
    + rewrite (Ounborn _ (Nat.le_refl _)). exact Hone.
    + rewrite (Hes q Hne). cbn. rewrite Nat.add_0_r. apply Oset.
  - intros q Hq. rewrite Hnp in Hq.
    rewrite Hl, settlements_app, Ounborn by lia. cbn [app]. apply Hes. lia.
Qed.

(** A request is registered under [id], over the entry that identifier may
    already have. *)
Lemma Once_registered (s s' : State) (id : string) (es : list Effect) :
  Once s ->
  pendingRequests s'
  = JsMap.set id (mkPending (next_promise s) (next_timer s)) (pendingRequests s) ->
  timers s'
  = timers s ++ [mkTimer (next_timer s) 30000 (TRequestTimeout id (next_promise s))] ->
  next_timer s' = S (next_timer s) ->
  next_promise s' = S (next_promise s) ->
  reconnectTimeout s' = reconnectTimeout s ->
  log s' = log s ++ es ->
  (forall q, settlements q es = []) ->
  Once s'.
Proof.
  intros [Okeys Ohand Ofresh Oentry Oarmed Oprom Orec Oset Ounborn]
         Hp Htim Hnt Hnp Hr Hl Hes.
  set (T := mkTimer (next_timer s) 30000 (TRequestTimeout id (next_promise s))) in *.
  assert (Hs : forall q, settlements q (log s') = settlements q (log s)).
  { intros q. rewrite Hl, settlements_app, Hes, app_nil_r. reflexivity. }
  constructor.
  - rewrite Hp. apply JsMap_set_keys_NoDup. exact Okeys.
  - rewrite Htim. apply NoDup_map_snoc; [exact Ohand|]. cbn [handle T].
    intros Hin. apply in_map_iff in Hin. destruct Hin as [t [E Ht]].
    specialize (Ofresh t Ht). lia.
  - intros t H. rewrite Htim in H. apply in_app_or in H. rewrite Hnt.
    destruct H as [H|[<-|[]]]; [specialize (Ofresh t H); lia | cbn; lia].
  - intros id' pd H. rewrite Hp in H. rewrite Htim. apply in_or_app.
    destruct (JsMap_In_set _ _ _ _ _ H) as [[-> ->]|Hin].
    + right. left. reflexivity.
    + left. exact (Oentry id' pd Hin).
  - intros t id' p H Ha. rewrite Htim in H. apply in_app_or in H.
    rewrite Hs, Hnp. destruct H as [H|[<-|[]]].
    + destruct (Oarmed t id' p H Ha) as [H1 H2]. split; [exact H1 | lia].
    + cbn [action T] in Ha. injection Ha as _ <-.
      split; [apply Ounborn; apply Nat.le_refl | lia].
  - intros t1 t2 id1 id2 p H1 H2 A1 A2. rewrite Htim in H1, H2.
    apply in_app_or in H1, H2.
    destruct H1 as [H1|[<-|[]]]; destruct H2 as [H2|[<-|[]]].
    + exact (Oprom t1 t2 id1 id2 p H1 H2 A1 A2).
    + cbn [action T] in A2. injection A2 as _ <-.
      destruct (Oarmed t1 id1 _ H1 A1) as [_ Hlt]. lia.
    + cbn [action T] in A1. injection A1 as _ <-.
      destruct (Oarmed t2 id2 _ H2 A2) as [_ Hlt]. lia.
    + reflexivity.
  - intros h Hh. rewrite Hr in Hh. destruct (Orec h Hh) as [H1 H2].
    rewrite Hnt. split; [lia|].
    intros t H Eh. rewrite Htim in H. apply in_app_or in H.
    destruct H as [H|[<-|[]]]; [exact (H2 t H Eh)|]. cbn [handle T] in Eh. lia.
  - intros q. rewrite Hs. apply Oset.
  - intros q Hq. rewrite Hs. apply Ounborn. lia.
Qed.

Lemma Once_sendRequest (act : string) (params : list (string * json))
    (draws : nat -> Q) (send_error : option string) (s : State) :
  Once s -> Once (snd (sendRequest act params draws send_error s)).
Proof.
  intros HO.
  destruct (ws_is_open s) eqn:Hopen.
  - destruct (ws_is_open_wsRef s Hopen) as [w Hw].
    unfold sendRequest, new_promise.
    change (ws_is_open (set_next_promise (S (next_promise s)) s)) with (ws_is_open s).
    rewrite Hopen. cbn [wsRef set_next_promise]. rewrite Hw.
    set (id := IdGen.generateRequestId draws) in *.
    set (T := mkTimer (next_timer s) 30000 (TRequestTimeout id (next_promise s))).
    destruct send_error as [error|].
    + apply (@Once_born s _
               [ESetTimeout T; EClearTimeout (next_timer s);
                EReject (next_promise s) (HostException error)] HO).
      * cbn. rewrite JsMap_delete_set.
        apply (@JsMap_delete_NoDup _ _ fst). exact (once_keys HO).
      * cbn. rewrite JsMap_delete_set. intros [k pd] H.
        exact (JsMap_In_delete _ _ _ _ H).
      * cbn. apply (@find_fresh_timer (timers s) T). exact (once_fresh HO).
      * cbn. lia.
      * reflexivity.
      * reflexivity.
      * cbn. rewrite <- !app_assoc. reflexivity.
      * intros q Hq. cbn. apply Nat.eqb_neq in Hq. rewrite Nat.eqb_sym, Hq. reflexivity.
      * cbn. rewrite Nat.eqb_refl. cbn. lia.
    + apply (@Once_registered s _ id
               [ESetTimeout T; ESend w (request_frame act id params)] HO).
      * reflexivity.
      * reflexivity.
      * reflexivity.
      * reflexivity.
      * reflexivity.
      * cbn. rewrite <- !app_assoc. reflexivity.
      * intros q. reflexivity.
  - rewrite (@sendRequest_closed act params draws send_error s Hopen). cbn [snd].
    apply (@Once_born s _ [EReject (next_promise s) NotConnected] HO).
    + exact (once_keys HO).
    + intros e H. exact H.
    + reflexivity.
    + apply Nat.le_refl.
    + reflexivity.
    + reflexivity.
    + reflexivity.
    + intros q Hq. cbn. apply Nat.eqb_neq in Hq. rewrite Nat.eqb_sym, Hq. reflexivity.
    + cbn. rewrite Nat.eqb_refl. cbn. lia.
Qed.

Lemma Once_onclose_handler (s : State) : Once s -> Once (onclose_handler s).
Proof.
  intros HO. unfold onclose_handler.
  set (s2 := notifyConnectionHandlers false _).
  assert (H2 : Once s2).
  { apply (@Once_neutral s); [|exact HO]. subst s2.
    neutral_kept s. exact (once_handles HO). }
  assert (H3 : Once (reject_all ConnectionClosed s2)).
  { apply Once_reject_all. exact H2. }
  destruct (_ <? _)%nat; [|exact H3].
  apply (@Once_reconnect_timer _ _ H3).
Qed.

Lemma Once_disconnect (s : State) : Once s -> Once (disconnect s).
Proof.
  intros HO. unfold disconnect.
  apply Once_reject_all.
  apply (@Once_neutral s); [|exact HO].
  pose proof (once_handles HO) as Hnd.
  change (reconnectTimeout (set_reconnectAttempts maxReconnectAttempts s))
    with (reconnectTimeout s).
  destruct (reconnectTimeout s) as [h|] eqn:Er.
  - destruct (once_reconnect HO Er) as [_ Hh].
    change (wsRef (set_reconnectTimeout None
                     (clearTimeout h (set_reconnectAttempts maxReconnectAttempts s))))
      with (wsRef s).
    destruct (wsRef s) as [w|];
      (apply (@Neutral_cleared' s _ h Hnd Hh);
       [reflexivity | reflexivity | reflexivity | reflexivity
       | neutral_log | left; reflexivity]).
  - change (wsRef (set_reconnectAttempts maxReconnectAttempts s)) with (wsRef s).
    destruct (wsRef s) as [w|]; (neutral_kept s; exact Hnd).
Qed.

Lemma Once_update_socket (w : nat) (f : WebSocket -> WebSocket) (s : State) :
  Once s -> Once (update_socket w f s).
Proof.
  intros HO. apply (@Once_neutral s); [|exact HO].
  neutral_kept s. exact (once_handles HO).
Qed.

Lemma Once_onmessage_handler (parsed : option json) (s : State) :
  Once s -> Once (onmessage_handler parsed s).
Proof.
  intros HO. unfold onmessage_handler.
  destruct parsed as [data|]; [|exact HO].
  destruct (get_prop data "request_id") as [rid|] eqn:Hrid; [|exact HO].
  set (s1 := match (if truthy rid then as_key rid else None) with
             | Some k => _
             | None => s
             end).
  assert (H1 : Once s1).
  { subst s1. destruct (if truthy rid then as_key rid else None) as [k|] eqn:Ek;
      [|exact HO].
    destruct (JsMap.get k (pendingRequests s)) as [pending|] eqn:Eg; [|exact HO].
    pose proof (JsMap_get_In _ _ Eg) as Hin.
    apply (@Once_drop s _
             (mkTimer (timeout pending) 30000 (TRequestTimeout k (promise pending)))
             k (promise pending)
             [EClearTimeout (timeout pending); EResolve (promise pending) data] HO
             (once_entry HO k pending Hin) eq_refl).
    - cbn. apply (@JsMap_delete_NoDup _ _ fst). exact (once_keys HO).
    - cbn. intros id' pd H. split; [exact (JsMap_In_delete _ _ _ _ H)|].
      exact (@JsMap_delete_key _ _ _ _ _ (once_keys HO) H).
    - reflexivity.
    - reflexivity.
    - reflexivity.
    - reflexivity.
    - cbn. rewrite <- !app_assoc. reflexivity.
    - intros q Hq. cbn. apply Nat.eqb_neq in Hq. rewrite Nat.eqb_sym, Hq. reflexivity.
    - cbn. rewrite Nat.eqb_refl. cbn. lia. }
  apply (@Once_neutral s1); [|exact H1].
  unfold notifyMessageHandlers. neutral_kept s1. exact (once_handles H1).
Qed.

Lemma Once_request_timeout (t : Timer) (id : string) (p : nat) (s : State) :
  Once s -> In t (timers s) -> action t = TRequestTimeout id p ->
  Once (request_timeout id p
          (set_timers (filter (fun t' => negb (Nat.eqb (handle t') (handle t))) (timers s)) s)).
Proof.
  intros HO Ht Ha.
  unfold request_timeout. cbn [pendingRequests set_timers].
  destruct (JsMap.has id (pendingRequests s)) eqn:Eh.
  - apply (@Once_drop s _ t id p [EReject p RequestTimeout] HO Ht Ha).
    + cbn. apply (@JsMap_delete_NoDup _ _ fst). exact (once_keys HO).
    + cbn. intros id' pd H. split; [exact (JsMap_In_delete _ _ _ _ H)|].
      exact (@JsMap_delete_key _ _ _ _ _ (once_keys HO) H).
    + reflexivity.
    + reflexivity.
    + reflexivity.
    + reflexivity.
    + reflexivity.
    + intros q Hq. cbn. apply Nat.eqb_neq in Hq. rewrite Nat.eqb_sym, Hq. reflexivity.
    + cbn. rewrite Nat.eqb_refl. cbn. lia.
  - apply (@Once_drop s _ t id p [] HO Ht Ha).
    + exact (once_keys HO).
    + cbn. intros id' pd H. split; [exact H|]. intros ->.
      rewrite (JsMap_In_has _ _ _ H) in Eh. discriminate.
    + reflexivity.
    + reflexivity.
    + reflexivity.
    + reflexivity.
    + cbn. rewrite app_nil_r. reflexivity.
    + intros q _. reflexivity.
    + cbn. lia.
Qed.

Lemma Once_reconnect_timer_fired (t : Timer) (s : State) :
  Once s -> In t (timers s) -> action t = TReconnect ->
  Once (reconnect_timer url_accepted
          (set_timers (filter (fun t' => negb (Nat.eqb (handle t') (handle t))) (timers s)) s)).
Proof.
  intros HO Ht Ha. pose proof (once_handles HO) as Hnd.
  set (s1 := set_timers _ s).
  assert (H1 : Once s1).
  { apply (@Once_neutral s); [|exact HO]. subst s1.
    apply (@Neutral_cleared' s _ (handle t) Hnd);
      [ | reflexivity | reflexivity | reflexivity | reflexivity
        | neutral_log | right; reflexivity ].
    intros t' Ht' E.
    rewrite (@NoDup_map_inj _ _ handle (timers s) t' t Hnd Ht' Ht E). exact Ha. }
  unfold reconnect_timer.
  set (s2 := set_reconnectAttempts _ s1).
  assert (H2 : Once s2).
  { apply (@Once_neutral s1); [|exact H1]. subst s2.
    neutral_kept s1. exact (once_handles H1). }
  apply (@Once_neutral s2); [|exact H2]. apply connect_neutral_once. exact H2.
Qed.

Lemma Once_step (e : Event) (s : State) :
  Once s -> Once (step url_accepted e s).
Proof.
  intros HO.
  destruct e as [ip port| |act params draws send_error|h|h|h|h|w|w parsed|w|w|w code|h];
    cbn [step].
  - apply (@Once_neutral s); [apply connect_neutral_once|]; exact HO.
  - apply Once_disconnect. exact HO.
  - apply Once_sendRequest. exact HO.
  - apply (@Once_neutral s); [|exact HO].
    unfold addMessageHandler. neutral_kept s. exact (once_handles HO).
  - apply (@Once_neutral s); [|exact HO].
    unfold removeMessageHandler. neutral_kept s. exact (once_handles HO).
  - apply (@Once_neutral s); [|exact HO].
    unfold addConnectionHandler. neutral_kept s. exact (once_handles HO).
  - apply (@Once_neutral s); [|exact HO].
    unfold removeConnectionHandler. neutral_kept s. exact (once_handles HO).
  - destruct (socket w s) as [x|]; [|exact HO].
    destruct (readyState x); try exact HO.
    destruct (onopen x).
    + apply (@Once_neutral (update_socket w (set_readyState OPEN) s));
        [|apply Once_update_socket; exact HO].
      unfold onopen_handler. neutral_kept (update_socket w (set_readyState OPEN) s).
      exact (once_handles HO).
    + apply Once_update_socket; exact HO.
  - destruct (socket w s) as [x|]; [|exact HO].
    destruct (readyState x); try exact HO;
      (destruct (onmessage x); [apply Once_onmessage_handler|]; exact HO).
  - exact HO.
  - destruct (socket w s) as [x|]; [|exact HO].
    destruct (readyState x); try exact HO. apply Once_update_socket. exact HO.
  - destruct (socket w s) as [x|]; [|exact HO].
    destruct (readyState x); try exact HO;
      (destruct (onclose x); [apply Once_onclose_handler|]; apply Once_update_socket; exact HO).
  - destruct (find_timer h s) as [t|] eqn:Ef; [|exact HO].
    destruct (find_timer_In h s Ef) as [Hin <-].
    destruct (action t) as [|id p] eqn:Ea; cbn [run_timer].
    + apply Once_reconnect_timer_fired; assumption.
    + apply (@Once_request_timeout t id p s); assumption.
Qed.

Lemma Once_initial : Once initial_state.
Proof.
  constructor; cbn; try constructor; try contradiction; try discriminate;
    try reflexivity; try lia.
Qed.

Lemma Once_run (es : list Event) (s : State) :
  Once s -> Once (run url_accepted es s).
Proof.
  revert s. induction es as [|e es IH]; intros s HO; [exact HO|].
  cbn [run fold_left]. apply IH. apply Once_step. exact HO.
Qed.

(** X11. Whatever the application and the network do, in whatever order,
    and also when generated identifiers collide or responses arrive twice,
    no promise returned by [sendRequest] is settled more than once: the log
    of every run from the initial state has at most one call of [resolve]
    or [reject] for each promise. *)
Theorem settled_at_most_once (es : list Event) (p : nat) :
  (List.length (settlements p (log (run url_accepted es initial_state))) <= 1)%nat.
Proof.
  exact (once_settled (Once_run es Once_initial) p).
Qed.

(** ** A disconnect is final *)

Lemma Tidy_none (s : State) :
  (forall t, In t (timers s) -> action t <> TReconnect) -> Tidy s.
Proof.
  intros H. constructor.
  - intros t Ht Ha. destruct (H t Ht Ha).
  - intros w t _ Ht. exact (H t Ht).
Qed.

Lemma Tidy_ext (s s' : State) :
  Tidy s ->
  (forall t, In t (timers s') -> In t (timers s) \/ action t <> TReconnect) ->
  reconnectTimeout s' = reconnectTimeout s ->
  wsRef s' = wsRef s \/ wsRef s' = None ->
  Tidy s'.
Proof.
  intros [Hheld Hcur] Hsub Hr Hw. constructor.
  - intros t Ht Ha. rewrite Hr. destruct (Hsub t Ht) as [H|H]; [|contradiction].
    exact (Hheld t H Ha).
  - intros w t Ew Ht. destruct Hw as [Hw|Hw]; [|congruence]. rewrite Hw in Ew.
    destruct (Hsub t Ht) as [H|H]; [exact (Hcur w t Ew H) | exact H].
Qed.

Lemma connect_timers (ip port : string) (s : State) :
  timers (connect url_accepted ip port s)
  = if ws_is_open s then timers s
    else match reconnectTimeout s with
         | Some h => filter (fun t => negb (Nat.eqb (handle t) h)) (timers s)
         | None => timers s
         end.
Proof.
  unfold connect, connect_with. destruct (ws_is_open s); [reflexivity|].
  destruct (reconnectTimeout s) as [h|];
    cbn [wsRef setIsConnecting set_serverConfig set_reconnectTimeout clearTimeout
         emit set_log set_timers];
    destruct (wsRef s) as [w|]; destruct (url_accepted _); reflexivity.
Qed.

Lemma Tidy_connect (ip port : string) (s : State) :
  Tidy s -> Tidy (connect url_accepted ip port s).
Proof.
  intros HT. destruct (ws_is_open s) eqn:Hopen.
  - unfold connect, connect_with. rewrite Hopen. exact HT.
  - apply Tidy_none. intros t Ht Ha. rewrite connect_timers, Hopen in Ht.
    destruct (reconnectTimeout s) as [h|] eqn:Er.
    + apply In_clear in Ht. destruct Ht as [Ht Hne].
      pose proof (tidy_held HT t Ht Ha) as E. congruence.
    + pose proof (tidy_held HT t Ht Ha) as E. congruence.
Qed.

Lemma Tidy_disconnect (s : State) :
  Tidy s -> forall t, In t (timers (disconnect s)) -> action t <> TReconnect.
Proof.
  intros HT t Ht Ha. rewrite disconnect_timers in Ht. apply In_disarm in Ht.
  destruct Ht as [Ht _]. destruct (reconnectTimeout s) as [h|] eqn:Er.
  - apply In_clear in Ht. destruct Ht as [Ht Hne].
    pose proof (tidy_held HT t Ht Ha) as E. congruence.
  - pose proof (tidy_held HT t Ht Ha) as E. congruence.
Qed.

Lemma onclose_handler_timers (s : State) :
  timers (onclose_handler s)
  = disarm (pending_handles s) (timers s)
    ++ (if (reconnectAttempts s <? maxReconnectAttempts)%nat
        then [mkTimer (next_timer s) (backoff_delay (reconnectAttempts s)) TReconnect]
        else [])
  /\ reconnectTimeout (onclose_handler s)
     = (if (reconnectAttempts s <? maxReconnectAttempts)%nat
        then Some (next_timer s) else reconnectTimeout s)
  /\ wsRef (onclose_handler s) = None.
Proof.
  unfold onclose_handler, pending_handles. rewrite reject_all_eq.
  cbn [reconnectAttempts set_pendingRequests set_log set_timers
       notifyConnectionHandlers emit set_wsRef setIsConnecting setIsConnected
       log pendingRequests connectionHandlers timers next_timer].
  destruct (reconnectAttempts s <? maxReconnectAttempts)%nat; cbn.
  - repeat split; reflexivity.
  - rewrite app_nil_r. repeat split; reflexivity.
Qed.

Lemma Tidy_onclose_handler (s : State) :
  (forall t, In t (timers s) -> action t <> TReconnect) ->
  Tidy (onclose_handler s).
Proof.
  intros Hno. destruct (onclose_handler_timers s) as (Ht & Hr & Hw).
  constructor.
  - intros t Hin Ha. rewrite Ht in Hin. apply in_app_or in Hin.
    destruct Hin as [Hin|Hin].
    + apply In_disarm in Hin. destruct (Hno t (proj1 Hin) Ha).
    + rewrite Hr. destruct (_ <? _)%nat; [|destruct Hin].
      destruct Hin as [<-|[]]. reflexivity.
  - intros w t Ew. rewrite Hw in Ew. discriminate.
Qed.

Lemma sendRequest_timers (act : string) (params : list (string * json))
    (draws : nat -> Q) (send_error : option string) (s : State) :
  let s' := snd (sendRequest act params draws send_error s) in
  (forall t, In t (timers s') -> In t (timers s) \/ action t <> TReconnect)
  /\ reconnectTimeout s' = reconnectTimeout s
  /\ wsRef s' = wsRef s.
Proof.
  destruct (ws_is_open s) eqn:Hopen.
  - destruct (ws_is_open_wsRef s Hopen) as [w Hw].
    unfold sendRequest, new_promise.
    change (ws_is_open (set_next_promise (S (next_promise s)) s)) with (ws_is_open s).
    rewrite Hopen. cbn [wsRef set_next_promise]. rewrite Hw.
    destruct send_error as [error|]; cbn; (split; [|split; [reflexivity | exact Hw]]).
    + intros t Ht. apply In_clear in Ht. destruct Ht as [Ht _].
      apply in_app_or in Ht. destruct Ht as [Ht|[<-|[]]]; [left; exact Ht|].
      right. discriminate.
    + intros t Ht.
      apply in_app_or in Ht. destruct Ht as [Ht|[<-|[]]]; [left; exact Ht|].
      right. discriminate.
  - rewrite (@sendRequest_closed act params draws send_error s Hopen). cbn.
    repeat split. intros t Ht. left. exact Ht.
Qed.

Lemma onmessage_handler_reconnect (parsed : option json) (s : State) :
  reconnectTimeout (onmessage_handler parsed s) = reconnectTimeout s.
Proof.
  unfold onmessage_handler.
  destruct parsed as [data|]; [|reflexivity].
  destruct (get_prop data "request_id") as [rid|]; [|reflexivity].
  destruct (if truthy rid then as_key rid else None) as [k|]; [|reflexivity].
  destruct (JsMap.get k (pendingRequests s)) as [pending|]; reflexivity.
Qed.

Lemma request_timeout_reconnect (requestId : string) (p : nat) (s : State) :
  reconnectTimeout (request_timeout requestId p s) = reconnectTimeout s.
Proof.
  unfold request_timeout.
  destruct (JsMap.has requestId (pendingRequests s)); reflexivity.
Qed.

Lemma current_if_attached (s : State) (w : nat) (x : WebSocket) :
  OneSocket s -> socket w s = Some x ->
  readyState x <> CLOSED -> onclose x = true -> wsRef s = Some w.
Proof.
  intros H1 Ex Hr Hc.
  destruct (wsRef s) as [w1|] eqn:Ew.
  - destruct (Nat.eq_dec w1 w) as [->|Hn]; [reflexivity|].
    assert (Hne : Some w1 <> Some w) by congruence.
    rewrite <- Ew in Hne.
    destruct (@one_retired _ H1 w _ Ex Hne) as [_ [E|E]]; congruence.
  - assert (Hne : wsRef s <> Some w) by congruence.
    destruct (@one_retired _ H1 w _ Ex Hne) as [_ [E|E]]; congruence.
Qed.

Lemma Tidy_step (e : Event) (s : State) :
  OneSocket s -> Tidy s -> Tidy (step url_accepted e s).
Proof.
  intros H1 HT.
  destruct e as [ip port| |act params draws send_error|h|h|h|h|w|w parsed|w|w|w code|h];
    cbn [step].
  - apply Tidy_connect. exact HT.
  - apply Tidy_none. apply Tidy_disconnect. exact HT.
  - destruct (sendRequest_timers act params draws send_error s) as (Ht & Hr & Hw).
    apply (@Tidy_ext s); [exact HT | exact Ht | exact Hr | left; exact Hw].
  - (apply (@Tidy_ext s); [exact HT | intros ? Hin; left; exact Hin | reflexivity | left; reflexivity]).
  - (apply (@Tidy_ext s); [exact HT | intros ? Hin; left; exact Hin | reflexivity | left; reflexivity]).
  - (apply (@Tidy_ext s); [exact HT | intros ? Hin; left; exact Hin | reflexivity | left; reflexivity]).
  - (apply (@Tidy_ext s); [exact HT | intros ? Hin; left; exact Hin | reflexivity | left; reflexivity]).
  - destruct (socket w s) as [x|]; [|exact HT].
    destruct (readyState x); try exact HT.
    destruct (onopen x);
      (apply (@Tidy_ext s); [exact HT | intros ? Hin; left; exact Hin | reflexivity | left; reflexivity]).
  - destruct (onmessage_handler_frame parsed s) as (_ & Hw & _ & Ht).
    pose proof (onmessage_handler_reconnect parsed s) as Hr.
    destruct (socket w s) as [x|]; [|exact HT].
    destruct (readyState x); try exact HT;
      (destruct (onmessage x); [|exact HT]);
      exact (@Tidy_ext s _ HT (fun t H => or_introl (Ht t H)) Hr (or_introl Hw)).
  - exact HT.
  - destruct (socket w s) as [x|]; [|exact HT].
    destruct (readyState x); try exact HT.
    (apply (@Tidy_ext s); [exact HT | intros ? Hin; left; exact Hin | reflexivity | left; reflexivity]).
  - destruct (socket w s) as [x|] eqn:Ex; [|exact HT].
    assert (Hupd : Tidy (update_socket w (set_readyState CLOSED) s))
      by (apply (@Tidy_ext s); [exact HT | intros ? Hin; left; exact Hin | reflexivity | left; reflexivity]).
    assert (Hcur : readyState x <> CLOSED -> onclose x = true ->
                   forall t, In t (timers s) -> action t <> TReconnect).
    { intros Hr Hc t Ht.
      exact (tidy_current HT t (@current_if_attached s w x H1 Ex Hr Hc) Ht). }
    destruct (readyState x) eqn:Er; try exact HT;
      (destruct (onclose x) eqn:Ec; [|exact Hupd]);
      (apply Tidy_onclose_handler; apply Hcur; [discriminate | reflexivity]).
  - destruct (find_timer h s) as [t|] eqn:Ef; [|exact HT].
    destruct (find_timer_In h s Ef) as [Hin <-].
    destruct (action t) as [|id p] eqn:Ea; cbn [run_timer].
    + apply Tidy_none. intros t' Ht' Ha'. unfold reconnect_timer in Ht'.
      rewrite connect_timers in Ht'.
      assert (Hs1 : In t' (filter (fun t0 => negb (Nat.eqb (handle t0) (handle t)))
                             (timers s))).
      { cbn [serverConfig set_reconnectAttempts] in Ht'.
        destruct (ws_is_open _); [exact Ht'|].
        cbn [reconnectTimeout set_reconnectAttempts set_timers timers] in Ht'.
        destruct (reconnectTimeout s); [apply In_clear in Ht'; exact (proj1 Ht') | exact Ht']. }
      apply In_clear in Hs1. destruct Hs1 as [Hs1 Hne].
      pose proof (tidy_held HT t' Hs1 Ha') as E1.
      pose proof (tidy_held HT t Hin Ea) as E2. congruence.
    + set (s1 := set_timers _ s).
      destruct (request_timeout_frame id p s1) as (_ & Hw & _ & Ht).
      pose proof (request_timeout_reconnect id p s1) as Hr.
      apply (@Tidy_ext s); [exact HT | | exact Hr | left; exact Hw].
      intros t' Ht'. rewrite Ht in Ht'. cbn in Ht'. apply In_clear in Ht'.
      left. exact (proj1 Ht').
Qed.

Lemma OneSocket_initial : OneSocket initial_state.
Proof.
  apply OneSocket_none; [reflexivity|]. intros [|w] x Hx; discriminate.
Qed.

Lemma Tidy_run (es : list Event) (s : State) :
  OneSocket s -> Tidy s -> Tidy (run url_accepted es s).
Proof.
  revert s. induction es as [|e es IH]; intros s H1 HT; [exact HT|].
  cbn [run fold_left]. apply IH; [apply OneSocket_step | apply Tidy_step]; assumption.
Qed.

Lemma disconnect_quiet (s : State) :
  OneSocket s -> Tidy s -> Quiet (disconnect s).
Proof.
  intros H1 HT. destruct (disconnect_fields s) as (_ & Hw & _ & _ & Hic & _).
  constructor; [exact Hic | exact Hw | exact (Tidy_disconnect HT) |].
  intros w x Hx. assert (Hne : wsRef (disconnect s) <> Some w) by congruence.
  destruct (@one_retired _ (OneSocket_disconnect H1) w x Hx Hne) as [[E|E] Hc].
  - split; [congruence | exact Hc].
  - split; [congruence | exact Hc].
Qed.

Lemma still_nil : still [].
Proof. repeat split. Qed.

Lemma still_app (es1 es2 : list Effect) : still es1 -> still es2 -> still (es1 ++ es2).
Proof.
  intros (A1 & B1 & C1) (A2 & B2 & C2). unfold still.
  rewrite sockets_opened_app, timers_set_app, notified_connection_app,
    A1, B1, C1, A2, B2, C2.
  repeat split.
Qed.

Lemma still_rejections (reason : JsError) (m : JsMap.t PendingRequest) :
  still (rejections reason m).
Proof.
  repeat split;
    [ | apply timers_set_rejections | apply notified_connection_rejections ].
  induction m as [|e m IH]; [reflexivity | exact IH].
Qed.

Lemma still_notify_message (data : json) (hs : list nat) :
  still (map (fun h => ENotifyMessage h data) hs).
Proof. repeat split; (induction hs as [|h hs IH]; [reflexivity | exact IH]). Qed.

Lemma onmessage_handler_still (parsed : option json) (s : State) :
  exists es, log (onmessage_handler parsed s) = log s ++ es /\ still es.
Proof.
  unfold onmessage_handler.
  destruct parsed as [data|];
    [|exists []; split; [rewrite app_nil_r; reflexivity | apply still_nil]].
  destruct (get_prop data "request_id") as [rid|];
    [|exists []; split; [rewrite app_nil_r; reflexivity | apply still_nil]].
  destruct (if truthy rid then as_key rid else None) as [k|].
  - destruct (JsMap.get k (pendingRequests s)) as [pending|].
    + exists ([EClearTimeout (timeout pending); EResolve (promise pending) data]
              ++ map (fun h => ENotifyMessage h data) (messageHandlers s)).
      split; [cbn; rewrite <- !app_assoc; reflexivity|].
      apply still_app; [repeat split | apply still_notify_message].
    + exists (map (fun h => ENotifyMessage h data) (messageHandlers s)).
      split; [reflexivity | apply still_notify_message].
  - exists (map (fun h => ENotifyMessage h data) (messageHandlers s)).
    split; [reflexivity | apply still_notify_message].
Qed.

(** While the manager is quiet, it opens no socket, sets no timer and calls
    no connection handler, whatever happens short of a call of [connect]. *)
Lemma Quiet_step_still (e : Event) (s : State) :
  Quiet s -> is_connect e = false ->
  exists es, log (step url_accepted e s) = log s ++ es /\ still es.
Proof.
  intros Hq He. pose proof Hq as [Hic Hws Hnore Hsock].
  assert (Hsame : exists es, log s = log s ++ es /\ still es)
    by (exists []; split; [rewrite app_nil_r; reflexivity | apply still_nil]).
  destruct e as [ip port| |act params draws send_error|h|h|h|h|w|w parsed|w|w|w code|h];
    try discriminate; cbn [step].
  - eexists. split; [apply disconnect_log|].
    rewrite Hws. apply still_app; [|apply still_app; [apply still_nil|]].
    + destruct (reconnectTimeout s); repeat split.
    + apply still_rejections.
  - assert (Hopen : ws_is_open s = false) by (unfold ws_is_open; rewrite Hws; reflexivity).
    rewrite (@sendRequest_closed act params draws send_error s Hopen). cbn [snd].
    exists [EReject (next_promise s) NotConnected]. split; [reflexivity | repeat split].
  - exact Hsame.
  - exact Hsame.
  - exact Hsame.
  - exact Hsame.
  - destruct (socket w s) as [x|] eqn:Ex; [|exact Hsame].
    destruct (readyState x) eqn:Er; try exact Hsame.
    destruct (Hsock w x Ex) as [Hn _]. congruence.
  - destruct (socket w s) as [x|] eqn:Ex; [|exact Hsame].
    destruct (readyState x); try exact Hsame;
      (destruct (onmessage x); [apply onmessage_handler_still | exact Hsame]).
  - exact Hsame.
  - destruct (socket w s) as [x|] eqn:Ex; [|exact Hsame].
    destruct (readyState x) eqn:Er; exact Hsame.
  - destruct (socket w s) as [x|] eqn:Ex; [|exact Hsame].
    destruct (Hsock w x Ex) as [_ [Hc|Hc]].
    + rewrite Hc. destruct (readyState x); exact Hsame.
    + rewrite Hc. exact Hsame.
  - unfold find_timer. destruct (find _ (timers s)) as [t|] eqn:Ef; [|exact Hsame].
    apply find_some in Ef. destruct Ef as [Hin _].
    specialize (Hnore t Hin) as Hact.
    destruct (action t) as [|requestId p]; [congruence|].
    cbn [run_timer]. unfold request_timeout. cbn [pendingRequests set_timers].
    destruct (JsMap.has requestId (pendingRequests s)); [|exact Hsame].
    exists [EReject p RequestTimeout]. split; [reflexivity | repeat split].
Qed.

Lemma Quiet_run_still (es : list Event) (s : State) :
  Quiet s -> forallb (fun e => negb (is_connect e)) es = true ->
  exists l, log (run url_accepted es s) = log s ++ l /\ still l.
Proof.
  revert s. induction es as [|e es IH]; intros s Hq Hes.
  - exists []. split; [rewrite app_nil_r; reflexivity | apply still_nil].
  - cbn in Hes. apply andb_prop in Hes. destruct Hes as [He Hes].
    apply negb_true_iff in He.
    destruct (@Quiet_step_still e s Hq He) as [l1 [E1 S1]].
    destruct (IH _ (@Quiet_step e s Hq He) Hes) as [l2 [E2 S2]].
    exists (l1 ++ l2). split; [|apply still_app; assumption].
    change (run url_accepted (e :: es) s)
      with (run url_accepted es (step url_accepted e s)).
    rewrite E2, E1, app_assoc. reflexivity.
Qed.

Lemma reachable_tidy (es : list Event) :
  OneSocket (run url_accepted es initial_state)
  /\ Tidy (run url_accepted es initial_state).
Proof.
  split; [apply OneSocket_run; exact OneSocket_initial|].
  apply Tidy_run; [exact OneSocket_initial|].
  apply Tidy_none. intros t [].
Qed.

(** X12. A manual disconnect is final. Take any state the manager can
    reach and call [disconnect]: whatever happens afterwards, short of a call
    of [connect], the manager stays disconnected. It has no current socket,
    no socket is connecting or open, no reconnect timer is armed (the only
    one that could be is the one [disconnect] cleared), and it opens no
    socket and sets no timer. *)
Theorem disconnect_is_final (es es' : list Event) :
  forallb (fun e => negb (is_connect e)) es' = true ->
  let s := disconnect (run url_accepted es initial_state) in
  let s' := run url_accepted es' s in
  isConnected s' = false /\ wsRef s' = None
  /\ (forall w x, socket w s' = Some x -> alive x = false)
  /\ (forall t, In t (timers s') -> action t <> TReconnect)
  /\ sockets_opened (new_effects s s') = []
  /\ timers_set (new_effects s s') = [].
Proof.
  intros Hes s s'.
  destruct (reachable_tidy es) as [H1 HT].
  pose proof (disconnect_quiet H1 HT) as Hq. fold s in Hq.
  pose proof (@Quiet_run es' s Hq Hes) as [Hic Hws Hnore Hsock]. fold s' in Hic, Hws, Hnore, Hsock.
  destruct (@Quiet_run_still es' s Hq Hes) as [l [El (A & B & _)]]. fold s' in El.
  rewrite (@new_effects_app s s' l El).
  split; [exact Hic|]. split; [exact Hws|]. split; [|split; [exact Hnore|split; assumption]].
  assert (H1' : OneSocket s')
    by (apply OneSocket_run; apply OneSocket_disconnect; exact H1).
  intros w x Hx. assert (Hne : wsRef s' <> Some w) by congruence.
  destruct (@one_retired _ H1' w x Hx Hne) as [[E|E] _];
    unfold alive; rewrite E; reflexivity.
Qed.

(** X13. A manual disconnect is not announced. [disconnect] detaches the
    close handler before it closes the socket, so from any reachable state,
    the call and everything that happens after it up to the next call of
    [connect] calls no connection handler, although [isConnected] has
    become false: subscribers of [addConnectionHandler] hear of a close of
    the transport, never of a disconnect. *)
Theorem disconnect_not_announced (es es' : list Event) :
  forallb (fun e => negb (is_connect e)) es' = true ->
  let s := run url_accepted es initial_state in
  let s' := run url_accepted es' (disconnect s) in
  isConnected s' = false
  /\ notified_connection (new_effects s s') = [].
Proof.
  intros Hes s s'.
  destruct (reachable_tidy es) as [H1 HT].
  pose proof (disconnect_quiet H1 HT) as Hq. fold s in Hq.
  pose proof (@Quiet_run es' (disconnect s) Hq Hes) as [Hic _ _ _]. fold s' in Hic.
  destruct (@Quiet_run_still es' (disconnect s) Hq Hes) as [l [El (_ & _ & C)]].
  fold s' in El. split; [exact Hic|].
  rewrite disconnect_log in El. rewrite <- app_assoc in El.
  rewrite (@new_effects_app s s' _ El).
  rewrite !notified_connection_app, C, notified_connection_rejections.
  destruct (reconnectTimeout s), (wsRef s); reflexivity.
Qed.

(** ** Requests that get no answer *)


(** ** The address of a reconnect *)

Lemma addresses_app (l1 l2 : list Effect) :
  addresses (l1 ++ l2) = addresses l1 ++ addresses l2.
Proof.
  induction l1 as [|e l1 IH]; [reflexivity|].
  destruct e; cbn; rewrite ?IH; reflexivity.
Qed.

Lemma addresses_none (es : list Effect) :
  sockets_opened es = [] -> addresses es = [].
Proof.
  induction es as [|e es IH]; [reflexivity|].
  destruct e; cbn; try exact IH. discriminate.
Qed.

Lemma keeps_address_refl (s : State) : keeps_address s s.
Proof.
  split; [|reflexivity]. exists []. split; [rewrite app_nil_r|]; reflexivity.
Qed.

Lemma keeps_address_same (s s' : State) :
  log s' = log s -> serverConfig s' = serverConfig s -> keeps_address s s'.
Proof.
  intros El Ec. split; [|exact Ec].
  exists []. split; [rewrite app_nil_r; exact El | reflexivity].
Qed.

Lemma sendRequest_keeps_address (act : string) (params : list (string * json))
    (draws : nat -> Q) (send_error : option string) (s : State) :
  keeps_address s (snd (sendRequest act params draws send_error s)).
Proof.
  destruct (ws_is_open s) eqn:Hopen.
  - destruct (ws_is_open_wsRef s Hopen) as [w Hw].
    unfold sendRequest, new_promise.
    change (ws_is_open (set_next_promise (S (next_promise s)) s)) with (ws_is_open s).
    rewrite Hopen. cbn [wsRef set_next_promise]. rewrite Hw.
    set (id := IdGen.generateRequestId draws). clearbody id.
    set (T := mkTimer (next_timer s) 30000 (TRequestTimeout id (next_promise s))).
    destruct send_error as [error|]; (split; [|reflexivity]).
    + exists [ESetTimeout T; EClearTimeout (next_timer s);
              EReject (next_promise s) (HostException error)].
      split; [cbn; rewrite <- !app_assoc; reflexivity | reflexivity].
    + exists [ESetTimeout T; ESend w (request_frame act id params)].
      split; [cbn; rewrite <- !app_assoc; reflexivity | reflexivity].
  - rewrite (@sendRequest_closed act params draws send_error s Hopen). cbn [snd].
    split; [|reflexivity].
    exists [EReject (next_promise s) NotConnected]. split; reflexivity.
Qed.

Lemma disconnect_keeps_address (s : State) : keeps_address s (disconnect s).
Proof.
  split.
  - eexists. split; [apply disconnect_log|].
    rewrite !sockets_opened_app.
    destruct (still_rejections Disconnected (pendingRequests s)) as (E & _ & _).
    rewrite E. destruct (reconnectTimeout s), (wsRef s); reflexivity.
  - unfold disconnect. rewrite reject_all_eq.
    cbn [reconnectTimeout set_reconnectAttempts].
    destruct (reconnectTimeout s) as [h|], (wsRef s) as [w|] eqn:Ew;
      cbn; rewrite ?Ew; reflexivity.
Qed.

Lemma onclose_handler_keeps_address (s : State) : keeps_address s (onclose_handler s).
Proof.
  split.
  - eexists. split; [apply onclose_handler_log|].
    rewrite !sockets_opened_app.
    destruct (still_rejections ConnectionClosed (pendingRequests s)) as (E & _ & _).
    rewrite E. unfold backoff_timer_set.
    destruct (_ <? _)%nat; cbn; rewrite ?app_nil_r;
      (induction (connectionHandlers s) as [|h hs IH]; [reflexivity | exact IH]).
  - unfold onclose_handler. rewrite reject_all_eq.
    destruct (_ <? _)%nat; reflexivity.
Qed.

Lemma onmessage_handler_keeps_address (parsed : option json) (s : State) :
  keeps_address s (onmessage_handler parsed s).
Proof.
  split.
  - destruct (onmessage_handler_still parsed s) as [es [E (A & _ & _)]].
    exists es. split; assumption.
  - unfold onmessage_handler.
    destruct parsed as [data|]; [|reflexivity].
    destruct (get_prop data "request_id") as [rid|]; [|reflexivity].
    destruct (if truthy rid then as_key rid else None) as [k|]; [|reflexivity].
    destruct (JsMap.get k (pendingRequests s)) as [pending|]; reflexivity.
Qed.

Lemma connect_addresses (ip port : string) (s : State) :
  (exists es, log (connect url_accepted ip port s) = log s ++ es
              /\ Forall (eq (server_uri (ip, port))) (addresses es))
  /\ serverConfig (connect url_accepted ip port s)
     = (if ws_is_open s then serverConfig s else (ip, port)).
Proof.
  unfold connect, connect_with. destruct (ws_is_open s).
  { split; [|reflexivity]. exists []. split; [rewrite app_nil_r; reflexivity | constructor]. }
  destruct (reconnectTimeout s) as [h|];
    cbn [wsRef setIsConnecting set_serverConfig set_reconnectTimeout clearTimeout
         emit set_log set_timers];
    destruct (wsRef s) as [w|]; destruct (url_accepted _);
    (split; [|reflexivity]); cbn.
  - exists [EClearTimeout h; EClose w; ENewWebSocket (List.length (sockets s)) (server_uri (ip, port))].
    split; [rewrite <- !app_assoc; rewrite ?length_update_nth; reflexivity|].
    repeat constructor.
  - exists [EClearTimeout h; EClose w].
    split; [rewrite <- !app_assoc; reflexivity | constructor].
  - exists [EClearTimeout h; ENewWebSocket (List.length (sockets s)) (server_uri (ip, port))].
    split; [rewrite <- !app_assoc; reflexivity | repeat constructor].
  - exists [EClearTimeout h]. split; [reflexivity | constructor].
  - exists [EClose w; ENewWebSocket (List.length (sockets s)) (server_uri (ip, port))].
    split; [rewrite <- !app_assoc; rewrite ?length_update_nth; reflexivity|].
    repeat constructor.
  - exists [EClose w]. split; [reflexivity | constructor].
  - exists [ENewWebSocket (List.length (sockets s)) (server_uri (ip, port))].
    split; [reflexivity | repeat constructor].
  - exists []. split; [rewrite app_nil_r; reflexivity | constructor].
Qed.

Lemma step_addresses (e : Event) (s : State) :
  is_connect e = false ->
  (exists es, log (step url_accepted e s) = log s ++ es
              /\ Forall (eq (server_uri (serverConfig s))) (addresses es))
  /\ serverConfig (step url_accepted e s) = serverConfig s.
Proof.
  intros He.
  assert (Hkeep : forall s', keeps_address s s' ->
            (exists es, log s' = log s ++ es
                        /\ Forall (eq (server_uri (serverConfig s))) (addresses es))
            /\ serverConfig s' = serverConfig s).
  { intros s' [[es [E A]] C]. split; [|exact C]. exists es. split; [exact E|].
    rewrite (addresses_none _ A). constructor. }
  destruct e as [ip port| |act params draws send_error|h|h|h|h|w|w parsed|w|w|w code|h];
    try discriminate; cbn [step].
  - apply Hkeep, disconnect_keeps_address.
  - apply Hkeep, sendRequest_keeps_address.
  - apply Hkeep, keeps_address_same; reflexivity.
  - apply Hkeep, keeps_address_same; reflexivity.
  - apply Hkeep, keeps_address_same; reflexivity.
  - apply Hkeep, keeps_address_same; reflexivity.
  - apply Hkeep. destruct (socket w s) as [x|]; [|apply keeps_address_refl].
    destruct (readyState x); try apply keeps_address_refl.
    destruct (onopen x); [|apply keeps_address_same; reflexivity].
    split; [|reflexivity].
    exists (map (fun h => ENotifyConnection h true) (connectionHandlers s)).
    split; [reflexivity|].
    induction (connectionHandlers s) as [|h hs IH]; [reflexivity | exact IH].
  - apply Hkeep. destruct (socket w s) as [x|]; [|apply keeps_address_refl].
    destruct (readyState x); try apply keeps_address_refl;
      (destruct (onmessage x);
       [apply onmessage_handler_keeps_address | apply keeps_address_refl]).
  - apply Hkeep, keeps_address_refl.
  - apply Hkeep. destruct (socket w s) as [x|]; [|apply keeps_address_refl].
    destruct (readyState x);
      first [apply keeps_address_refl | apply keeps_address_same; reflexivity].
  - apply Hkeep. destruct (socket w s) as [x|]; [|apply keeps_address_refl].
    destruct (readyState x); try apply keeps_address_refl;
      (destruct (onclose x); [|apply keeps_address_same; reflexivity]);
      exact (onclose_handler_keeps_address (update_socket w (set_readyState CLOSED) s)).
  - destruct (find_timer h s) as [t|]; [|apply Hkeep, keeps_address_refl].
    destruct (action t) as [|id p]; cbn [run_timer].
    + unfold reconnect_timer.
      set (s1 := set_reconnectAttempts _ _).
      destruct (connect_addresses (fst (serverConfig s1)) (snd (serverConfig s1)) s1)
        as [[es [E A]] C].
      split.
      * exists es. split; [exact E|].
        change (serverConfig s) with (serverConfig s1).
        unfold server_uri in *. exact A.
      * rewrite C. change (serverConfig s) with (serverConfig s1).
        destruct (ws_is_open s1); [reflexivity|]. destruct (serverConfig s1); reflexivity.
    + apply Hkeep. unfold request_timeout. cbn [pendingRequests set_timers].
      destruct (JsMap.has id (pendingRequests s));
        [|apply keeps_address_same; reflexivity].
      split; [|reflexivity]. exists [EReject p RequestTimeout]. split; reflexivity.
Qed.

Lemma run_addresses (es : list Event) (s : State) :
  forallb (fun e => negb (is_connect e)) es = true ->
  (exists l, log (run url_accepted es s) = log s ++ l
             /\ Forall (eq (server_uri (serverConfig s))) (addresses l))
  /\ serverConfig (run url_accepted es s) = serverConfig s.
Proof.
  revert s. induction es as [|e es IH]; intros s Hes.
  - split; [|reflexivity]. exists []. split; [rewrite app_nil_r; reflexivity | constructor].
  - cbn in Hes. apply andb_prop in Hes. destruct Hes as [He Hes].
    apply negb_true_iff in He.
    destruct (@step_addresses e s He) as [[l1 [E1 A1]] C1].
    destruct (IH (step url_accepted e s) Hes) as [[l2 [E2 A2]] C2].
    change (run url_accepted (e :: es) s)
      with (run url_accepted es (step url_accepted e s)).
    split; [|rewrite C2; exact C1].
    exists (l1 ++ l2). split; [rewrite E2, E1, app_assoc; reflexivity|].
    rewrite addresses_app. apply Forall_app. split; [exact A1|].
    rewrite C1 in A2. exact A2.
Qed.

(** X15. The manager reconnects to the address of the last call of
    [connect] that was not ignored. After [connect ip port] on a manager
    whose socket is not open, and until the next call of [connect], every
    socket opened (the one of the call and those of the automatic retries)
    is opened to [ws://ip:port], and the recorded address stays [ip],
    [port]. *)
Theorem reconnects_to_last_address (ip port : string) (es : list Event) (s : State) :
  ws_is_open s = false ->
  forallb (fun e => negb (is_connect e)) es = true ->
  let s' := run url_accepted es (connect url_accepted ip port s) in
  Forall (eq (server_uri (ip, port))) (addresses (new_effects s s'))
  /\ serverConfig s' = (ip, port).
Proof.
  intros Hopen Hes s'.
  destruct (connect_addresses ip port s) as [[l1 [E1 A1]] C1].
  rewrite Hopen in C1.
  destruct (@run_addresses es (connect url_accepted ip port s) Hes) as [[l2 [E2 A2]] C2].
  fold s' in E2, C2. rewrite C1 in A2, C2. split; [|exact C2].
  rewrite E1, <- app_assoc in E2.
  rewrite (@new_effects_app s s' _ E2), addresses_app.
  apply Forall_app. split; assumption.
Qed.

(** ** When identifiers collide *)

Lemma hex_digit_inj (a b : Z) :
  0 <= a < 16 -> 0 <= b < 16 -> hex_digit a = hex_digit b -> a = b.
Proof.
  intros Ha Hb E.
  assert (Hv : forall v, 0 <= v < 16 ->
            Z.of_nat (if Nat.ltb (nat_of_ascii (hex_digit v)) 58
                      then nat_of_ascii (hex_digit v) - 48
                      else nat_of_ascii (hex_digit v) - 87) = v).
  { intros v Hv. by_nibble v Hv; reflexivity. }
  rewrite <- (Hv a Ha), <- (Hv b Hb), E. reflexivity.
Qed.

Lemma variant_inj (a b : Z) :
  0 <= a < 16 -> 0 <= b < 16 ->
  (Z.lor (Z.land a 3) 8 = Z.lor (Z.land b 3) 8 <-> Z.land a 3 = Z.land b 3).
Proof.
  intros Ha Hb. split; [|intros ->; reflexivity].
  assert (Hv : forall v, 0 <= v < 16 -> Z.land (Z.lor (Z.land v 3) 8) 3 = Z.land v 3).
  { intros v Hv. by_nibble v Hv; reflexivity. }
  intros E. rewrite <- (Hv a Ha), <- (Hv b Hb), E. reflexivity.
Qed.

Lemma replacement_digit (c : ascii) (q : Q) :
  (0 <= q)%Q /\ (q < 1)%Q ->
  IdGen.replacement c q
  = String (hex_digit (if Ascii.eqb c "x" then IdGen.nibble q
                       else Z.lor (Z.land (IdGen.nibble q) 3) 8)) "".
Proof.
  intros [H0 H1]. pose proof (nibble_range H0 H1) as Hr.
  unfold IdGen.replacement, IdGen.nibble. cbv zeta.
  destruct (Ascii.eqb c "x").
  - apply toString16_nibble, Hr.
  - apply toString16_nibble. exact (proj1 (variant_nibble Hr)).
Qed.

Lemma replacement_eq (c : ascii) (q1 q2 : Q) :
  (0 <= q1)%Q /\ (q1 < 1)%Q -> (0 <= q2)%Q /\ (q2 < 1)%Q ->
  (IdGen.replacement c q1 = IdGen.replacement c q2 <-> IdGen.same_digit c q1 q2).
Proof.
  intros H1 H2. rewrite (replacement_digit c H1), (replacement_digit c H2).
  pose proof (nibble_range (proj1 H1) (proj2 H1)) as R1.
  pose proof (nibble_range (proj1 H2) (proj2 H2)) as R2.
  fold (IdGen.nibble q1) in R1. fold (IdGen.nibble q2) in R2.
  unfold IdGen.same_digit. destruct (Ascii.eqb c "x").
  - split; [|intros ->; reflexivity].
    intros E. injection E as E. exact (hex_digit_inj R1 R2 E).
  - rewrite <- (variant_inj R1 R2). split; [|intros ->; reflexivity].
    intros E. injection E as E.
    exact (hex_digit_inj (proj1 (variant_nibble R1)) (proj1 (variant_nibble R2)) E).
Qed.

Lemma replace_xy_eq (t : string) (d1 d2 : nat -> Q) (i : nat) :
  IdGen.unit_interval d1 -> IdGen.unit_interval d2 ->
  (IdGen.replace_xy t d1 i = IdGen.replace_xy t d2 i
   <-> forall k c, nth_error (IdGen.holes t) k = Some c ->
                   IdGen.same_digit c (d1 (i + k)%nat) (d2 (i + k)%nat)).
Proof.
  intros U1 U2. revert i. induction t as [|c t IH]; intros i.
  - split; [intros _ [|k] c H; discriminate | reflexivity].
  - unfold IdGen.holes. cbn [IdGen.replace_xy list_ascii_of_string filter].
    fold (IdGen.holes t).
    destruct (Ascii.eqb c "x" || Ascii.eqb c "y")%bool.
    + rewrite (replacement_digit c (U1 i)), (replacement_digit c (U2 i)).
      cbn [String.append].
      pose proof (replacement_eq c (U1 i) (U2 i)) as Hd.
      rewrite (replacement_digit c (U1 i)), (replacement_digit c (U2 i)) in Hd.
      split.
      * intros E. injection E as Eh Et.
        intros [|k] c' Hk.
        -- cbn in Hk. injection Hk as <-. rewrite Nat.add_0_r.
           apply Hd. rewrite Eh. reflexivity.
        -- cbn in Hk. rewrite Nat.add_succ_r.
           exact (proj1 (IH (S i)) Et k c' Hk).
      * intros H.
        pose proof (proj2 Hd) as Hh.
        specialize (H 0%nat c eq_refl) as H0. rewrite Nat.add_0_r in H0.
        specialize (Hh H0). injection Hh as Hh. rewrite Hh. f_equal.
        apply (IH (S i)). intros k c' Hk.
        specialize (H (S k) c' Hk). rewrite Nat.add_succ_r in H. exact H.
    + split.
      * intros E. injection E as Et. exact (proj1 (IH i) Et).
      * intros H. f_equal. exact (proj2 (IH i) H).
Qed.

(** X16. When two identifiers are the same. The template has 31 places,
    the sixteenth being the [y]; the [i]-th place takes the [i]-th outcome of
    [Math.random]. Two calls of [generateRequestId] return the same
    identifier exactly when, place by place, the outcomes have the same
    integer part of their sixteenfold (for the [y], the same two low bits of
    it): the identifier carries 122 bits of the random source and nothing
    else, no time stamp or counter. *)
Theorem generateRequestId_collision (d1 d2 : nat -> Q) :
  IdGen.unit_interval d1 -> IdGen.unit_interval d2 ->
  List.length (IdGen.holes IdGen.template) = 31%nat
  /\ nth_error (IdGen.holes IdGen.template) 15 = Some "y"%char
  /\ (IdGen.generateRequestId d1 = IdGen.generateRequestId d2
      <-> forall i c, nth_error (IdGen.holes IdGen.template) i = Some c ->
                      IdGen.same_digit c (d1 i) (d2 i)).
Proof.
  intros U1 U2. split; [reflexivity|]. split; [reflexivity|].
  exact (replace_xy_eq IdGen.template 0 U1 U2).
Qed.

(** ** The flags and the socket *)

Lemma Shown_none (s : State) : wsRef s = None -> Shown s.
Proof.
  intros Hw. constructor.
  - intros w x E. congruence.
  - unfold ws_is_open. rewrite Hw. discriminate.
Qed.

Lemma Shown_same (s s' : State) :
  sockets s' = sockets s -> wsRef s' = wsRef s ->
  isConnected s' = isConnected s -> isConnecting s' = isConnecting s ->
  Shown s -> Shown s'.
Proof.
  intros Hs Hw Hc Hg [Ha Ho]. constructor.
  - intros w x. unfold socket. rewrite Hw, Hs. exact (Ha w x).
  - unfold ws_is_open, socket. rewrite Hw, Hs, Hc, Hg. exact Ho.
Qed.

Lemma ws_is_open_socket (s : State) :
  ws_is_open s = true ->
  exists w x, wsRef s = Some w /\ socket w s = Some x /\ readyState x = OPEN.
Proof.
  unfold ws_is_open. destruct (wsRef s) as [w|]; [|discriminate].
  destruct (socket w s) as [x|] eqn:Ex; [|discriminate].
  intros H. exists w, x. split; [reflexivity|]. split; [exact Ex|].
  destruct (readyState x); try discriminate. reflexivity.
Qed.

Lemma Shown_update (w : nat) (f : WebSocket -> WebSocket) (s : State) :
  Shown s ->
  (forall x, onopen (f x) = onopen x /\ onclose (f x) = onclose x) ->
  (forall x, wsRef s = Some w -> socket w s = Some x ->
             readyState (f x) = OPEN -> readyState x = OPEN) ->
  Shown (update_socket w f s).
Proof.
  intros [Ha Ho] Hf Hr.
  assert (Hsock : forall w0 x0, socket w0 (update_socket w f s) = Some x0 ->
            exists x, socket w0 s = Some x /\ onopen x0 = onopen x
                      /\ onclose x0 = onclose x
                      /\ (wsRef s = Some w0 -> readyState x0 = OPEN -> readyState x = OPEN)).
  { intros w0 x0 Hx0. unfold socket in *. cbn [update_socket set_sockets sockets] in Hx0.
    destruct (Nat.eq_dec w0 w) as [->|Hn].
    - rewrite nth_error_update_nth in Hx0.
      destruct (nth_error (sockets s) w) as [x|] eqn:E; cbn in Hx0; [|discriminate].
      injection Hx0 as <-. exists x. destruct (Hf x) as [H1 H2].
      repeat split; try assumption. intros Ew. exact (Hr x Ew eq_refl).
    - rewrite nth_error_update_nth_ne in Hx0 by congruence.
      exists x0. repeat split; auto. }
  constructor.
  - intros w0 x0 Ew Hx0. change (wsRef (update_socket w f s)) with (wsRef s) in Ew.
    destruct (Hsock w0 x0 Hx0) as (x & Hx & E1 & E2 & _).
    rewrite E1, E2. exact (Ha w0 x Ew Hx).
  - intros Hopen. destruct (ws_is_open_socket _ Hopen) as (w0 & x0 & Ew & Hx0 & Er).
    change (wsRef (update_socket w f s)) with (wsRef s) in Ew.
    destruct (Hsock w0 x0 Hx0) as (x & Hx & _ & _ & Hro).
    apply Ho. unfold ws_is_open. rewrite Ew, Hx, (Hro Ew Er). reflexivity.
Qed.

Lemma Shown_connect (ip port : string) (s : State) :
  Shown s -> Shown (connect url_accepted ip port s).
Proof.
  intros HS. destruct (ws_is_open s) eqn:Hopen.
  - unfold connect, connect_with. rewrite Hopen. exact HS.
  - pose proof (@connect_sockets ip port s Hopen) as Hc. cbv zeta in Hc.
    destruct (url_accepted (server_uri (ip, port))); destruct Hc as [Hw Hs];
      [|apply Shown_none; exact Hw].
    assert (Hnew : forall x, socket (List.length (let_go clear_handlers s))
                               (connect url_accepted ip port s) = Some x ->
              x = mkWebSocket (server_uri (ip, port)) CONNECTING true true true true).
    { intros x Hx. unfold socket in Hx. rewrite Hs in Hx.
      rewrite nth_error_app2, Nat.sub_diag in Hx by apply Nat.le_refl.
      cbn [nth_error] in Hx. injection Hx as <-. reflexivity. }
    constructor.
    + intros w x Ew Hx. rewrite Hw in Ew. injection Ew as <-.
      rewrite (Hnew x Hx). split; reflexivity.
    + intros Ho. destruct (ws_is_open_socket _ Ho) as (w & x & Ew & Hx & Er).
      rewrite Hw in Ew. injection Ew as <-. rewrite (Hnew x Hx) in Er. discriminate.
Qed.

Lemma sendRequest_flags (act : string) (params : list (string * json))
    (draws : nat -> Q) (send_error : option string) (s : State) :
  isConnected (snd (sendRequest act params draws send_error s)) = isConnected s
  /\ isConnecting (snd (sendRequest act params draws send_error s)) = isConnecting s.
Proof.
  unfold sendRequest, new_promise.
  change (ws_is_open (set_next_promise (S (next_promise s)) s)) with (ws_is_open s).
  cbn [wsRef set_next_promise].
  destruct (wsRef s) as [w|]; [|split; reflexivity].
  destruct (ws_is_open s); [|split; reflexivity].
  destruct send_error; split; reflexivity.
Qed.

Lemma onmessage_handler_isConnecting (parsed : option json) (s : State) :
  isConnecting (onmessage_handler parsed s) = isConnecting s.
Proof.
  unfold onmessage_handler.
  destruct parsed as [data|]; [|reflexivity].
  destruct (get_prop data "request_id") as [rid|]; [|reflexivity].
  destruct (if truthy rid then as_key rid else None) as [k|]; [|reflexivity].
  destruct (JsMap.get k (pendingRequests s)) as [pending|]; reflexivity.
Qed.

Lemma Shown_step (e : Event) (s : State) :
  OneSocket s -> Shown s -> Shown (step url_accepted e s).
Proof.
  intros H1 HS.
  destruct e as [ip port| |act params draws send_error|h|h|h|h|w|w parsed|w|w|w code|h];
    cbn [step].
  - apply Shown_connect. exact HS.
  - apply Shown_none. exact (proj1 (proj2 (disconnect_fields s))).
  - destruct (sendRequest_sockets act params draws send_error s) as [Hs Hw].
    destruct (sendRequest_flags act params draws send_error s) as [Hc Hg].
    exact (@Shown_same s _ Hs Hw Hc Hg HS).
  - (apply (@Shown_same s); [reflexivity | reflexivity | reflexivity | reflexivity | exact HS]).
  - (apply (@Shown_same s); [reflexivity | reflexivity | reflexivity | reflexivity | exact HS]).
  - (apply (@Shown_same s); [reflexivity | reflexivity | reflexivity | reflexivity | exact HS]).
  - (apply (@Shown_same s); [reflexivity | reflexivity | reflexivity | reflexivity | exact HS]).
  - destruct (socket w s) as [x|] eqn:Ex; [|exact HS].
    destruct (readyState x) eqn:Er; try exact HS.
    assert (Hcur : wsRef s = Some w).
    { destruct (wsRef s) as [w1|] eqn:Ew.
      - destruct (Nat.eq_dec w1 w) as [->|Hn]; [reflexivity|].
        assert (Hne : Some w1 <> Some w) by congruence. rewrite <- Ew in Hne.
        destruct (@one_retired _ H1 w _ Ex Hne) as [[E|E] _]; congruence.
      - assert (Hne : wsRef s <> Some w) by congruence.
        destruct (@one_retired _ H1 w _ Ex Hne) as [[E|E] _]; congruence. }
    destruct (@shown_attached _ HS w x Hcur Ex) as [Hon Hcl]. rewrite Hon.
    constructor.
    + intros w0 x0 Ew Hx0.
      change (wsRef (onopen_handler (update_socket w (set_readyState OPEN) s)))
        with (wsRef s) in Ew.
      rewrite Hcur in Ew. injection Ew as <-.
      unfold socket, onopen_handler in Hx0. cbn in Hx0.
      rewrite nth_error_update_nth in Hx0. unfold socket in Ex. rewrite Ex in Hx0.
      cbn in Hx0. injection Hx0 as <-. split; assumption.
    + intros _. split; reflexivity.
  - destruct (onmessage_handler_frame parsed s) as (Hc & Hw & Hs & _).
    pose proof (onmessage_handler_isConnecting parsed s) as Hg.
    destruct (socket w s) as [x|]; [|exact HS].
    destruct (readyState x); try exact HS;
      (destruct (onmessage x); [|exact HS]); exact (@Shown_same s _ Hs Hw Hc Hg HS).
  - exact HS.
  - destruct (socket w s) as [x|] eqn:Ex; [|exact HS].
    destruct (readyState x) eqn:Er; try exact HS.
    apply Shown_update; [exact HS | intros x0; split; reflexivity|].
    intros x0 _ _ E. discriminate.
  - destruct (socket w s) as [x|] eqn:Ex; [|exact HS].
    assert (Hu : Shown (update_socket w (set_readyState CLOSED) s)).
    { apply Shown_update; [exact HS | intros x0; split; reflexivity|].
      intros x0 _ _ E. discriminate. }
    destruct (readyState x) eqn:Er; try exact HS;
      (destruct (onclose x) eqn:Ec; [|exact Hu]);
      (apply Shown_none;
       exact (proj2 (onclose_handler_sockets (update_socket w (set_readyState CLOSED) s)))).
  - destruct (find_timer h s) as [t|]; [|exact HS].
    set (s1 := set_timers _ s).
    assert (Hs1 : Shown s1)
      by (apply (@Shown_same s);
          [reflexivity | reflexivity | reflexivity | reflexivity | exact HS]).
    destruct (action t) as [|id p]; cbn [run_timer].
    + unfold reconnect_timer. apply Shown_connect.
      apply (@Shown_same s1);
        [reflexivity | reflexivity | reflexivity | reflexivity | exact Hs1].
    + destruct (request_timeout_frame id p s1) as (Hc & Hw & Hs & _).
      apply (@Shown_same s1); try assumption.
      unfold request_timeout. destruct (JsMap.has id (pendingRequests s1)); reflexivity.
Qed.

Lemma Shown_run (es : list Event) (s : State) :
  OneSocket s -> Shown s -> Shown (run url_accepted es s).
Proof.
  revert s. induction es as [|e es IH]; intros s H1 HS; [exact HS|].
  cbn [run fold_left]. apply IH; [apply OneSocket_step | apply Shown_step]; assumption.
Qed.

(** X17. The flags are set when the socket opens. In every reachable
    state in which the current socket is open, the value last given to
    [setIsConnected] is [true] and the one last given to [setIsConnecting]
    is [false]: by the time the socket can carry a frame both setters have
    been called, so from its next render on the provider shows the
    connection as up and not as being set up. The current socket has its
    open and close handlers attached. *)
Theorem open_socket_flags_set (es : list Event) :
  let s := run url_accepted es initial_state in
  (ws_is_open s = true -> isConnected s = true /\ isConnecting s = false)
  /\ (forall w x, wsRef s = Some w -> socket w s = Some x ->
        onopen x = true /\ onclose x = true).
Proof.
  intros s.
  assert (HS : Shown s).
  { apply Shown_run; [exact OneSocket_initial | apply Shown_none; reflexivity]. }
  split; [exact (shown_open HS) | exact (@shown_attached _ HS)].
Qed.

(** ** A connection that opens *)

Lemma sendRequest_frame (act : string) (params : list (string * json))
    (draws : nat -> Q) (send_error : option string) (s : State) :
  let s' := snd (sendRequest act params draws send_error s) in
  sockets s' = sockets s
  /\ reconnectAttempts s' = reconnectAttempts s
  /\ exists es, log s' = log s ++ es /\ notified_connection es = [].
Proof.
  destruct (ws_is_open s) eqn:Hopen.
  - destruct (ws_is_open_wsRef s Hopen) as [w Hw].
    unfold sendRequest, new_promise.
    change (ws_is_open (set_next_promise (S (next_promise s)) s)) with (ws_is_open s).
    rewrite Hopen. cbn [wsRef set_next_promise]. rewrite Hw.
    set (id := IdGen.generateRequestId draws). clearbody id.
    set (T := mkTimer (next_timer s) 30000 (TRequestTimeout id (next_promise s))).
    destruct send_error as [error|]; (split; [reflexivity|]); (split; [reflexivity|]).
    + exists [ESetTimeout T; EClearTimeout (next_timer s);
              EReject (next_promise s) (HostException error)].
      split; [cbn; rewrite <- !app_assoc; reflexivity | reflexivity].
    + exists [ESetTimeout T; ESend w (request_frame act id params)].
      split; [cbn; rewrite <- !app_assoc; reflexivity | reflexivity].
  - rewrite (@sendRequest_closed act params draws send_error s Hopen). cbn [snd].
    split; [reflexivity|]. split; [reflexivity|].
    exists [EReject (next_promise s) NotConnected]. split; reflexivity.
Qed.

Lemma sends_frame (sends : list Event) (s : State) :
  forallb is_send sends = true ->
  let s' := run url_accepted sends s in
  sockets s' = sockets s
  /\ reconnectAttempts s' = reconnectAttempts s
  /\ exists es, log s' = log s ++ es /\ notified_connection es = [].
Proof.
  revert s. induction sends as [|e sends IH]; intros s Hs.
  - cbn. repeat split. exists []. split; [rewrite app_nil_r|]; reflexivity.
  - cbn in Hs. apply andb_prop in Hs. destruct Hs as [He Hs].
    destruct e as [ip port| |act params draws send_error|h|h|h|h|w|w parsed|w|w|w code|h];
      try discriminate.
    destruct (sendRequest_frame act params draws send_error s) as (S1 & A1 & l1 & L1 & N1).
    destruct (IH (snd (sendRequest act params draws send_error s)) Hs)
      as (S2 & A2 & l2 & L2 & N2).
    change (run url_accepted (CallSendRequest act params draws send_error :: sends) s)
      with (run url_accepted sends (snd (sendRequest act params draws send_error s))).
    cbv zeta. rewrite S2, S1, A2, A1. split; [reflexivity|]. split; [reflexivity|].
    exists (l1 ++ l2). split; [rewrite L2, L1, app_assoc; reflexivity|].
    rewrite notified_connection_app, N1, N2. reflexivity.
Qed.

(** X1. A successful connection restarts the back-off. When a connecting
    socket opens, every connection handler is called with [true], once and in
    registration order, and the attempt counter is set to 0. The observers
    of the repository start requests when they are told [true]; a request
    started inside the pass leaves the state that a call of [sendRequest]
    after it leaves, so these requests are the calls [sends]. Whatever the
    counter was before the open and whatever is sent meanwhile, the next
    close of that socket schedules the reconnect after 1000 ms. *)
Theorem open_restarts_backoff (w : nat) (x : WebSocket) (code : Z)
    (sends : list Event) (s : State) :
  socket w s = Some x -> readyState x = CONNECTING ->
  onopen x = true -> onclose x = true ->
  forallb is_send sends = true ->
  let s1 := run url_accepted sends (step url_accepted (SocketOpen w) s) in
  reconnectAttempts s1 = 0%nat
  /\ notified_connection (new_effects s s1)
     = map (fun h => (h, true)) (connectionHandlers s)
  /\ map delay (timers_set (new_effects s1 (step url_accepted (SocketClose w code) s1)))
     = [1000].
Proof.
  intros Hx Hr Ho Hc Hs s1.
  set (s0 := step url_accepted (SocketOpen w) s) in *.
  assert (E0 : s0 = onopen_handler (update_socket w (set_readyState OPEN) s)).
  { subst s0. cbn [step]. rewrite Hx, Hr, Ho. reflexivity. }
  assert (Hx0 : socket w s0 = Some (set_readyState OPEN x)).
  { rewrite E0. unfold socket. cbn [onopen_handler notifyConnectionHandlers emit
      set_log set_reconnectAttempts setIsConnecting setIsConnected update_socket
      set_sockets sockets].
    rewrite nth_error_update_nth. unfold socket in Hx. rewrite Hx. reflexivity. }
  assert (Hlog0 : log s0 = log s ++ map (fun h => ENotifyConnection h true) (connectionHandlers s)).
  { rewrite E0. reflexivity. }
  assert (Ha0 : reconnectAttempts s0 = 0%nat) by (rewrite E0; reflexivity).
  destruct (@sends_frame sends s0 Hs) as (S1 & A1 & l & L1 & N1). fold s1 in S1, A1, L1.
  assert (Hx1 : socket w s1 = Some (set_readyState OPEN x)).
  { unfold socket. rewrite S1. exact Hx0. }
  split; [rewrite A1; exact Ha0|]. split.
  - rewrite Hlog0, <- app_assoc in L1.
    rewrite (new_effects_app s s1 _ L1), notified_connection_app, N1, app_nil_r.
    apply notified_connection_map.
  - rewrite (@step_close_attached w code (set_readyState OPEN x) s1 Hx1);
      [|cbn; discriminate | exact Hc].
    set (sa := update_socket w (set_readyState CLOSED) s1).
    rewrite (new_effects_app s1 (onclose_handler sa) _ (onclose_handler_log sa)).
    rewrite !timers_set_app, timers_set_notify_connection, timers_set_rejections.
    apply timers_set_backoff_first. subst sa. cbn [reconnectAttempts update_socket set_sockets].
    rewrite A1. exact Ha0.
Qed.

(** ** The frame of a request *)

Lemma get_defined_fields (k : string) (o : list (string * option json)) :
  NoDup (JsMap.keys o) ->
  JsMap.get k (defined_fields o)
  = match JsMap.get k o with Some v => v | None => None end.
Proof.
  induction o as [|[k0 v0] o IH]; [reflexivity|].
  intros Hnd. inversion Hnd as [|? ? Hnot Hnd']; subst.
  cbn [defined_fields flat_map fst snd JsMap.get].
  fold (defined_fields o).
  destruct (String.eqb k k0) eqn:E.
  - apply String.eqb_eq in E. subst k0.
    assert (Hgone : JsMap.get k (defined_fields o) = None).
    { rewrite (IH Hnd').
      assert (Hh : JsMap.has k o = false) by (apply JsMap_not_key_has; exact Hnot).
      unfold JsMap.has in Hh. destruct (JsMap.get k o); [discriminate | reflexivity]. }
    destruct v0 as [v|]; cbn [app JsMap.get]; [rewrite String.eqb_refl; reflexivity|].
    exact Hgone.
  - destruct v0 as [v|]; cbn [app JsMap.get]; [rewrite E|]; exact (IH Hnd').
Qed.

Lemma request_object_keys (action id : string) (params : list (string * option json)) :
  NoDup (JsMap.keys (request_object action id params)).
Proof.
  unfold request_object.
  assert (H : NoDup (JsMap.keys [("action", Some (JStr action));
                                 ("request_id", Some (JStr id))])).
  { constructor; [intros [E|[]]; discriminate|]. constructor; [intros []|constructor]. }
  revert H. generalize [("action", Some (JStr action)); ("request_id", Some (JStr id))].
  induction params as [|[k v] params IH]; intros base H; [exact H|].
  cbn [fold_left fst snd]. apply IH. apply JsMap_set_keys_NoDup. exact H.
Qed.

Lemma defined_fields_all_defined (o : list (string * json)) :
  defined_fields (all_defined o) = o.
Proof.
  induction o as [|[k v] o IH]; [reflexivity|].
  cbn. fold (all_defined o). fold (defined_fields (all_defined o)). rewrite IH.
  reflexivity.
Qed.

Lemma set_all_defined (k : string) (v : json) (o : list (string * json)) :
  JsMap.set k (Some v) (all_defined o) = all_defined (JsMap.set k v o).
Proof.
  induction o as [|[k0 v0] o IH]; [reflexivity|].
  cbn [all_defined map fst snd JsMap.set]. fold (all_defined o).
  destruct (String.eqb k k0); [reflexivity|].
  cbn [map fst snd]. fold (all_defined (JsMap.set k v o)). rewrite IH. reflexivity.
Qed.

Lemma wire_frame_all_defined (action id : string) (params : list (string * json)) :
  wire_frame action id (all_defined params) = request_frame action id params.
Proof.
  unfold wire_frame, request_frame, request_object. f_equal.
  change [("action", Some (JStr action)); ("request_id", Some (JStr id))]
    with (all_defined [("action", JStr action); ("request_id", JStr id)]).
  generalize [("action", JStr action); ("request_id", JStr id)].
  induction params as [|[k v] params IH]; intros base.
  - apply defined_fields_all_defined.
  - cbn [all_defined map fold_left fst snd]. fold (all_defined params).
    rewrite set_all_defined. apply IH.
Qed.

(** X8. The frame on the wire. The request is the object
    [{ action, request_id, ...params }] and what is sent is its JSON text,
    which leaves out the properties that are [undefined]. If the parameters'
    names are distinct (they are the properties of one object), the frame
    has every parameter with its value, a parameter that is [undefined]
    being absent. When no parameter is called [request_id] the frame carries
    the generated identifier, so that a frame echoing it answers the
    request; when none is called [action] it carries the action; a parameter
    with one of these names replaces the field, or removes it if it is
    [undefined]. When no parameter is [undefined] the frame is
    [request_frame], the frame [sendRequest] hands to the socket. *)
Theorem frame_on_the_wire (action id : string)
    (params : list (string * option json)) :
  (JsMap.has "request_id" params = false ->
   matching_response id (wire_frame action id params))
  /\ (JsMap.has "action" params = false ->
      get_prop (wire_frame action id params) "action" = Returns (Some (JStr action)))
  /\ (NoDup (JsMap.keys params) ->
      forall k v, In (k, v) params ->
        get_prop (wire_frame action id params) k = Returns v)
  /\ (forall ps, params = all_defined ps ->
        wire_frame action id params = request_frame action id ps).
Proof.
  unfold matching_response, wire_frame. cbn [get_prop].
  pose proof (request_object_keys action id params) as Hk.
  split; [|split; [|split]].
  - intros H. rewrite (@get_defined_fields _ _ Hk). unfold request_object.
    rewrite (@get_spread_absent _ _ _ _ H). reflexivity.
  - intros H. rewrite (@get_defined_fields _ _ Hk). unfold request_object.
    rewrite (@get_spread_absent _ _ _ _ H). reflexivity.
  - intros Hnd k v Hin. rewrite (@get_defined_fields _ _ Hk). unfold request_object.
    rewrite (@get_spread_present _ _ _ _ _ Hnd Hin). reflexivity.
  - intros ps ->. apply wire_frame_all_defined.
Qed.

(** ** The maps screen *)

(** X18. What a user without the permission to edit maps gets. Whatever
    folder is asked for, the request is for the folder [main] and the list of
    folders is not asked for; a map whose file name or name starts with
    [00_Core] is not shown; and for every map that is shown, whatever the
    current folder, the path opened is [maps/main/] followed by the file name,
    so it is no path to a [00_Core] map of that folder. *)
Theorem restricted_user_maps (folder currentFolder : option string)
    (maps : list MapsScreen.MapItem) (map : MapsScreen.MapItem) :
  In map (MapsScreen.shownMaps false maps) ->
  MapsScreen.requestFolder false folder = Some "main"%string
  /\ MapsScreen.asksFolders false folder = false
  /\ In map maps
  /\ MapsScreen.startsWith (MapsScreen.filename map) "00_Core" = false
  /\ MapsScreen.startsWith (MapsScreen.name map) "00_Core" = false
  /\ MapsScreen.mapPath false currentFolder map
     = ("maps/main/" ++ MapsScreen.filename map)%string
  /\ MapsScreen.startsWith (MapsScreen.mapPath false currentFolder map)
       "maps/main/00_Core" = false.
Proof.
  intros Hin. unfold MapsScreen.shownMaps in Hin. cbn [negb] in Hin.
  apply filter_In in Hin. destruct Hin as [Hin Hb].
  apply andb_prop in Hb. destruct Hb as [Hf Hn].
  apply negb_true_iff in Hf. apply negb_true_iff in Hn.
  repeat split; assumption.
Qed.

End Properties.

(** * Concrete runs *)

Import Scenario.

Example generateRequestId_half :
  IdGen.generateRequestId half = "88888888-8888-4888-8888-888888888888".
Proof. reflexivity. Qed.

Lemma generateRequestId_uuid_v4_witness :
  IdGen.uuid_v4_shaped (IdGen.generateRequestId half) = true.
Proof.
  apply generateRequestId_uuid_v4.
  intro i. split; [discriminate | reflexivity].
Defined.

Lemma sendRequest_not_connected_witness :
  ws_is_open connecting = false
  /\ new_effects connecting (snd (sendRequest "ping" [] half None connecting))
     = [EReject 0%nat NotConnected].
Proof.
  split; [reflexivity|].
  apply (@sendRequest_not_connected "ping" [] half None connecting).
  reflexivity.
Defined.

Lemma close_rejects_all_pending_witness :
  pendingRequests one_pending
  = [("88888888-8888-4888-8888-888888888888", mkPending 0 1)]
  /\ pendingRequests (step any_url (SocketClose 0 1006) one_pending) = [].
Proof.
  split; [reflexivity|].
  apply (@close_rejects_all_pending any_url 0%nat 1006
           (mkWebSocket "ws://10.0.0.1:8081" OPEN true true true true)
           one_pending);
    [reflexivity | discriminate | reflexivity].
Defined.

Lemma sendRequest_send_failure_witness :
  ws_is_open one_pending = true
  /\ pendingRequests
       (snd (sendRequest "status" [] (fun _ => 1 # 4)
               (Some "INVALID_STATE_ERR") one_pending))
     = pendingRequests one_pending.
Proof.
  split; [reflexivity|].
  apply (@sendRequest_send_failure "status" [] (fun _ => 1 # 4)
           "INVALID_STATE_ERR" one_pending);
    reflexivity.
Defined.

(** C10, the claim as written, refuted: the random source repeats itself,
    so the second request gets the identifier of the outstanding first one;
    its [send] throws, and the table, which held the entry of the first
    request before the call, is empty after it. *)
Lemma sendRequest_send_failure_collision :
  let before := one_pending in
  let after := snd (sendRequest "status" [] half
                      (Some "INVALID_STATE_ERR") before) in
  ws_is_open before = true
  /\ pendingRequests before
     = [("88888888-8888-4888-8888-888888888888", mkPending 0 1)]
  /\ pendingRequests after = []
  /\ pendingRequests after <> pendingRequests before.
Proof. cbv zeta. repeat split; try reflexivity. discriminate. Qed.

Lemma onmessage_fans_out_witness :
  JObj [("event", JStr "device_down")] <> JNull
  /\ notified_message
       (new_effects listening
          (onmessage_handler (Some (JObj [("event", JStr "device_down")])) listening))
     = [(7%nat, JObj [("event", JStr "device_down")])].
Proof.
  split; [discriminate|].
  apply (@onmessage_fans_out (JObj [("event", JStr "device_down")]) listening).
  discriminate.
Defined.

(** C6, the claim as written, refuted: the frame [null] parses, reading its
    [request_id] throws, the [catch] swallows the exception and the one
    registered message handler is not called. *)
Lemma onmessage_null_not_fanned_out :
  messageHandlers listening = [7%nat]
  /\ socket 0 listening
     = Some (mkWebSocket "ws://10.0.0.1:8081" OPEN true true true true)
  /\ notified_message
       (new_effects listening (step any_url (SocketMessage 0 (Some JNull)) listening))
     = []
  /\ notified_message
       (new_effects listening (step any_url (SocketMessage 0 (Some JNull)) listening))
     <> map (fun h => (h, JNull)) (messageHandlers listening).
Proof. repeat split; try reflexivity. discriminate. Qed.

(** C4. The code at the failing input: [connect] is called a second time
    while the first socket is still connecting (the state variable
    [isConnecting] is [true]). The call is not a no-op: it closes the first
    socket, opens a second one and makes it the current socket. *)
Theorem connect_while_connecting_reopens :
  let s1 := connecting in
  let s2 := connect any_url "10.0.0.1" "8081" s1 in
  isConnecting s1 = true
  /\ wsRef s1 = Some 0%nat
  /\ option_map readyState (socket 0 s1) = Some CONNECTING
  /\ new_effects s1 s2 = [EClose 0; ENewWebSocket 1 "ws://10.0.0.1:8081"]
  /\ wsRef s2 = Some 1%nat
  /\ option_map readyState (socket 0 s2) = Some CLOSING
  /\ s2 <> s1.
Proof.
  cbv zeta. repeat split; try reflexivity.
  intros H. apply (f_equal wsRef) in H. discriminate.
Qed.

Lemma connecting_is_live : Live any_url connecting.
Proof.
  constructor; try reflexivity.
  - exists 0%nat. eexists. repeat split; discriminate.
  - intros t [].
  - intros t [].
  - intros [|w] x Hx Hne.
    + exfalso. apply Hne. reflexivity.
    + unfold socket in Hx. cbn in Hx. destruct w; discriminate.
Defined.

Lemma reconnect_backoff_witness :
  Live any_url connecting
  /\ reconnectAttempts connecting = 0%nat
  /\ map delay
       (timers_set
          (new_effects connecting
             (close_current any_url 1006
                (failures any_url [1006; 1006; 1006; 1006; 1006] connecting))))
     = [1000; 2000; 4000; 8000; 10000].
Proof.
  split; [exact connecting_is_live|]. split; [reflexivity|].
  apply (@reconnect_backoff any_url connecting 1006 1006 1006 1006 1006 1006
           connecting_is_live eq_refl).
Defined.

Example reconnect_backoff_run :
  let g := close_current any_url 1006
             (failures any_url [1006; 1006; 1006; 1006; 1006] connecting) in
  map delay (timers_set (log g)) = [1000; 2000; 4000; 8000; 10000]
  /\ sockets_opened (log g) = [0; 1; 2; 3; 4; 5]%nat
  /\ timers g = []
  /\ wsRef g = None
  /\ reconnectAttempts g = 5%nat.
Proof. vm_compute. repeat split. Qed.

Lemma leaves_when_called_self : Registry.self_unsubscribing leaves_when_called.
Proof.
  intros h. unfold leaves_when_called.
  destruct (Nat.eqb h 2); [right | left]; reflexivity.
Defined.

Lemma registry_is_a_live_set_witness :
  NoDup [1; 2; 3]%nat
  /\ Registry.self_unsubscribing leaves_when_called
  /\ Registry.notify_all 4 leaves_when_called [1; 2; 3]%nat
     = Some ([1; 3]%nat, [1; 2; 3]%nat).
Proof.
  assert (Hnd : NoDup [1; 2; 3]%nat).
  { repeat constructor; cbn; intuition discriminate. }
  split; [exact Hnd|]. split; [exact leaves_when_called_self|].
  apply (@registry_is_a_live_set leaves_when_called [1; 2; 3]%nat 2%nat
           Hnd leaves_when_called_self).
Defined.

(** C8, the claim as written, refuted. A handler registered twice is one
    subscription: after one call of the function returned it is no longer
    registered. A pass does not work on a snapshot: a handler unsubscribed
    by an earlier callback of the same pass is not called, and a handler
    registered by a callback is called in the same pass. *)
Lemma registry_not_independent_nor_snapshot :
  messageHandlers
    (removeMessageHandler 7 (addMessageHandler 7 (addMessageHandler 7 initial_state)))
  = []
  /\ Registry.notify_all 10 removes_next [1; 2]%nat = Some ([1]%nat, [1]%nat)
  /\ Registry.notify_all 10 adds_another [1; 2]%nat
     = Some ([1; 2; 3]%nat, [1; 2; 3]%nat)
  /\ [1]%nat <> Registry.snapshot_calls [1; 2]%nat
  /\ [1; 2; 3]%nat <> Registry.snapshot_calls [1; 2]%nat.
Proof. repeat split; try reflexivity; discriminate. Qed.

Lemma ping_pong_collision_free : collision_free any_url ping_pong initial_state.
Proof. vm_compute. repeat split. Defined.

Lemma settled_exactly_once_witness :
  collision_free any_url ping_pong initial_state
  /\ ((settlements 0 (log (run any_url ping_pong initial_state)) = []
       /\ JsMap.get id8 (pendingRequests (run any_url ping_pong initial_state))
          = Some (mkPending 0 1)
       /\ find_timer 1 (run any_url ping_pong initial_state)
          = Some (mkTimer 1 30000 (TRequestTimeout id8 0))
       /\ settlements 0
            (log (step any_url (TimerFire 1) (run any_url ping_pong initial_state)))
          = [Rejected RequestTimeout])
      \/ exists o,
           settlements 0 (log (run any_url ping_pong initial_state)) = [o]
           /\ good_outcome id8 o
           /\ forall id' pd,
                In (id', pd) (pendingRequests (run any_url ping_pong initial_state)) ->
                promise pd <> 0%nat).
Proof.
  split; [exact ping_pong_collision_free|].
  apply (@settled_exactly_once any_url ping_pong ping_pong_collision_free
           (mkTimer 1 30000 (TRequestTimeout id8 0)) id8 0%nat).
  - vm_compute. left. reflexivity.
  - reflexivity.
Defined.

Example ping_pong_resolved :
  settlements 0 (log (run any_url ping_pong initial_state)) = [Resolved pong]
  /\ pendingRequests (run any_url ping_pong initial_state) = []
  /\ timers (run any_url ping_pong initial_state) = [].
Proof. vm_compute. repeat split. Qed.

(** C1, the claim as written, refuted. First run: the random source repeats
    itself, the second request takes over the table entry of the first, the
    timer of the first request removes that entry and rejects the first
    promise, and the timer of the second finds nothing: the second request
    was registered, its promise is not settled, and neither an entry nor a
    timer is left that could settle it. Second run: a registered request is
    rejected by a manual disconnect with "Disconnected", which is neither
    "Request timeout" nor "Connection closed". *)
Lemma request_dropped_or_rejected_otherwise :
  (let s := run any_url collision initial_state in
   In (mkTimer 2 30000 (TRequestTimeout id8 1)) (timers_set (log s))
   /\ settlements 0 (log s) = [Rejected RequestTimeout]
   /\ settlements 1 (log s) = []
   /\ pendingRequests s = []
   /\ timers s = [])
  /\ (let s := run any_url hang_up initial_state in
      In (mkTimer 1 30000 (TRequestTimeout id8 0)) (timers_set (log s))
      /\ settlements 0 (log s) = [Rejected Disconnected]
      /\ Disconnected <> RequestTimeout
      /\ Disconnected <> ConnectionClosed).
Proof.
  vm_compute. repeat split; try discriminate.
  - right. left. reflexivity.
  - left. reflexivity.
Qed.

(** ** More runs *)

Lemma open_restarts_backoff_witness :
  socket 0 connecting
  = Some (mkWebSocket "ws://10.0.0.1:8081" CONNECTING true true true true)
  /\ forallb is_send loads = true
  /\ map delay
       (timers_set
          (new_effects
             (run any_url loads (step any_url (SocketOpen 0) connecting))
             (step any_url (SocketClose 0 1006)
                (run any_url loads (step any_url (SocketOpen 0) connecting)))))
     = [1000].
Proof.
  split; [reflexivity|]. split; [reflexivity|].
  pose proof (@open_restarts_backoff any_url 0%nat
                (mkWebSocket "ws://10.0.0.1:8081" CONNECTING true true true true)
                1006 loads connecting eq_refl eq_refl eq_refl eq_refl eq_refl) as H.
  cbv zeta in H. exact (proj2 (proj2 H)).
Defined.

Lemma connect_opens_one_socket_witness :
  wsRef initial_state = None
  /\ wsRef (connect any_url "10.0.0.1" "8081" initial_state) = Some 0%nat.
Proof.
  split; [reflexivity|].
  pose proof (@connect_opens_one_socket any_url "10.0.0.1" "8081" initial_state
                eq_refl eq_refl) as H.
  cbv zeta in H. exact (proj1 H).
Defined.

Lemma connect_refused_address_witness :
  ws_is_open initial_state = false
  /\ wsRef (connect no_url "10.0.0.1" "8081" initial_state) = None
  /\ isConnecting (connect no_url "10.0.0.1" "8081" initial_state) = false.
Proof.
  split; [reflexivity|].
  pose proof (@connect_refused_address no_url "10.0.0.1" "8081" initial_state
                eq_refl eq_refl) as H.
  cbv zeta in H. exact (conj (proj1 H) (proj1 (proj2 H))).
Defined.

Lemma no_retry_after_disconnect_witness :
  reconnectTimeout
    (close_current any_url 1006
       (connect any_url "10.0.0.2" "8081" (disconnect connected))) = None.
Proof.
  pose proof (@no_retry_after_disconnect any_url "10.0.0.2" "8081" 1006 connected
                eq_refl) as H.
  cbv zeta in H. exact (proj1 (proj2 (proj2 (proj2 (proj2 H))))).
Defined.

Lemma duplicate_response_ignored_witness :
  NoDup (JsMap.keys (pendingRequests one_pending))
  /\ pendingRequests
       (onmessage_handler (Some pong) (onmessage_handler (Some pong) one_pending))
     = pendingRequests (onmessage_handler (Some pong) one_pending).
Proof.
  assert (Hnd : NoDup (JsMap.keys (pendingRequests one_pending))).
  { vm_compute. constructor; [intros [] | constructor]. }
  split; [exact Hnd|].
  pose proof (@duplicate_response_ignored pong one_pending Hnd) as H.
  cbv zeta in H. exact (proj1 H).
Defined.

Lemma timers_match_table_witness :
  collision_free any_url ping_pong initial_state
  /\ NoDup (JsMap.keys (pendingRequests (run any_url ping_pong initial_state))).
Proof.
  split; [exact ping_pong_collision_free|].
  pose proof (@timers_match_table any_url ping_pong ping_pong_collision_free) as H.
  cbv zeta in H. exact (proj1 H).
Defined.

Lemma disconnect_is_final_witness :
  forallb (fun e => negb (is_connect e)) aftermath = true
  /\ wsRef (run any_url aftermath (disconnect (run any_url asking initial_state)))
     = None.
Proof.
  split; [reflexivity|].
  pose proof (@disconnect_is_final any_url asking aftermath eq_refl) as H.
  cbv zeta in H. exact (proj1 (proj2 H)).
Defined.

Lemma disconnect_not_announced_witness :
  forallb (fun e => negb (is_connect e)) aftermath = true
  /\ isConnected (run any_url aftermath (disconnect (run any_url asking initial_state)))
     = false.
Proof.
  split; [reflexivity|].
  pose proof (@disconnect_not_announced any_url asking aftermath eq_refl) as H.
  cbv zeta in H. exact (proj1 H).
Defined.

Lemma connected_is_open : ws_is_open (run any_url [CallConnect "10.0.0.1" "8081"; SocketOpen 0] initial_state) = true.
Proof. reflexivity. Defined.



Lemma reconnects_to_last_address_witness :
  ws_is_open initial_state = false
  /\ forallb (fun e => negb (is_connect e)) two_failures = true
  /\ Forall (eq "ws://10.0.0.1:8081"%string)
       (addresses
          (new_effects initial_state
             (run any_url two_failures
                (connect any_url "10.0.0.1" "8081" initial_state)))).
Proof.
  split; [reflexivity|]. split; [reflexivity|].
  pose proof (@reconnects_to_last_address any_url "10.0.0.1" "8081" two_failures
                initial_state eq_refl eq_refl) as H.
  cbv zeta in H. exact (proj1 H).
Defined.

Example reconnects_to_last_address_run :
  addresses
    (log (run any_url two_failures (connect any_url "10.0.0.1" "8081" initial_state)))
  = ["ws://10.0.0.1:8081"; "ws://10.0.0.1:8081"; "ws://10.0.0.1:8081"]%string.
Proof. vm_compute. reflexivity. Qed.

Lemma half_unit_interval : IdGen.unit_interval half.
Proof. intro i. split; [discriminate | reflexivity]. Defined.

Lemma above_half_unit_interval : IdGen.unit_interval above_half.
Proof. intro i. split; [discriminate | reflexivity]. Defined.

Lemma generateRequestId_collision_witness :
  IdGen.unit_interval half /\ IdGen.unit_interval above_half
  /\ IdGen.generateRequestId half = IdGen.generateRequestId above_half.
Proof.
  split; [exact half_unit_interval|]. split; [exact above_half_unit_interval|].
  apply (proj2 (proj2 (@generateRequestId_collision half above_half
                         half_unit_interval above_half_unit_interval))).
  intros i c _. unfold IdGen.same_digit.
  destruct (Ascii.eqb c "x"); reflexivity.
Defined.

Lemma open_socket_flags_set_witness :
  ws_is_open (run any_url [CallConnect "10.0.0.1" "8081"; SocketOpen 0] initial_state)
  = true
  /\ isConnected
       (run any_url [CallConnect "10.0.0.1" "8081"; SocketOpen 0] initial_state)
     = true.
Proof.
  split; [exact connected_is_open|].
  pose proof (@open_socket_flags_set any_url
                [CallConnect "10.0.0.1" "8081"; SocketOpen 0]) as H.
  cbv zeta in H. exact (proj1 (proj1 H connected_is_open)).
Defined.

Lemma restricted_user_maps_witness :
  In city_map (MapsScreen.shownMaps false [core_map; city_map])
  /\ MapsScreen.shownMaps false [core_map; city_map] = [city_map]
  /\ MapsScreen.mapPath false (Some "archive"%string) city_map
     = "maps/main/city.json"%string.
Proof.
  assert (Hin : In city_map (MapsScreen.shownMaps false [core_map; city_map]))
    by (left; reflexivity).
  split; [exact Hin|]. split; [reflexivity|].
  pose proof (@restricted_user_maps None (Some "archive"%string)
                [core_map; city_map] city_map Hin) as H.
  exact (proj1 (proj2 (proj2 (proj2 (proj2 (proj2 H)))))).
Defined.

Lemma frame_on_the_wire_witness :
  NoDup (JsMap.keys [("folder", @None json)])
  /\ get_prop (wire_frame "list_maps_with_metadata" id8 [("folder", None)]) "folder"
     = Returns None
  /\ wire_frame "list_maps_with_metadata" id8 [("folder", None)]
     = JObj [("action", JStr "list_maps_with_metadata"); ("request_id", JStr id8)].
Proof.
  assert (Hnd : NoDup (JsMap.keys [("folder", @None json)])).
  { constructor; [intros [] | constructor]. }
  split; [exact Hnd|]. split; [|reflexivity].
  exact (proj1 (proj2 (proj2 (@frame_on_the_wire "list_maps_with_metadata" id8
                                [("folder", None)])))
           Hnd "folder"%string None (or_introl eq_refl)).
Defined.

(** C3, the claim as written, refuted. First run: the closing handshake of
    the socket has started when [connect] is called; [connect] detaches the
    handlers of the socket and lets it go, and when its transport closes
    the request that was outstanding on it stays in the table, its promise
    is not settled and the connection handler is not called. Second run:
    the application disconnects; the promise is rejected with
    "Disconnected", not with "Connection closed", and the connection
    handler, which was told [true] when the socket opened, is never told
    [false], also not when the socket closes. *)
Lemma close_of_detached_socket_rejects_nothing :
  (let s := run any_url replaced initial_state in
   let s' := step any_url (SocketClose 0 1006) s in
   option_map readyState (socket 0 s) = Some CLOSING
   /\ option_map readyState (socket 0 s') = Some CLOSED
   /\ connectionHandlers s = [7]%nat
   /\ pendingRequests s = [(id8, mkPending 0 1)]
   /\ pendingRequests s' = pendingRequests s
   /\ settlements 0 (log s') = []
   /\ notified_connection (new_effects s s') = [])
  /\ (let s := run any_url rung_off initial_state in
      option_map readyState (socket 0 s) = Some CLOSED
      /\ settlements 0 (log s) = [Rejected Disconnected]
      /\ Disconnected <> ConnectionClosed
      /\ notified_connection (log s) = [(7, true)]%nat).
Proof. vm_compute. repeat split; discriminate. Qed.
